(** * Botibot: sensor-event ingestion and alert dispatch

    A shallow embedding of the alerting code of [server/main.py] and of the
    polling readers of [app/data_reader.py], [app/mongodb_reader.py] and
    [app/screens.py], with the properties of the design document stated
    and settled against it.

    Conventions.
    - A Python [float] is modelled by [num]: a finite value carries its exact
      rational value, and the two infinities and NaN are separate
      constructors; comparisons follow IEEE 754 (every comparison with NaN
      is false).  Python [int]s embed as finite values, which is how Python
      compares an [int] with a [float].
    - [time.time()] is a finite float; instants are rationals and the
      subtraction [current_time - last] is taken exactly.
    - A Python [dict] with string keys that is only read and written by key
      is a [gmap string _]; a parsed JSON document keeps its pairs in a list
      and is compared with Python's [==]. *)

From Stdlib Require Import QArith Qabs Lqa ZArith Bool List Ascii String.
From stdpp Require Import gmap strings list fin_maps.

Local Open Scope Q_scope.

(** ** Numbers *)

Inductive num : Type :=
| Fin (q : Q)
| PInf
| NInf
| NaN.

Module Num.

(** [a <= b] on floats. *)
Definition leb (a b : num) : bool :=
  match a, b with
  | NaN, _ | _, NaN => false
  | NInf, _ => true
  | _, PInf => true
  | Fin x, Fin y => Qle_bool x y
  | _, _ => false
  end.

(** [a < b] on floats. *)
Definition ltb (a b : num) : bool :=
  match a, b with
  | NaN, _ | _, NaN => false
  | NInf, NInf => false
  | PInf, PInf => false
  | NInf, _ => true
  | _, PInf => true
  | Fin x, Fin y => negb (Qle_bool y x)
  | _, _ => false
  end.

(** [a == b] on floats. *)
Definition eqb (a b : num) : bool :=
  match a, b with
  | Fin x, Fin y => Qeq_bool x y
  | PInf, PInf => true
  | NInf, NInf => true
  | _, _ => false
  end.

(** [a >= b] and [a > b] are the flipped comparisons. *)
Definition geb (a b : num) : bool := leb b a.
Definition gtb (a b : num) : bool := ltb b a.

(** [abs(a)]. *)
Definition abs (a : num) : num :=
  match a with
  | Fin x => Fin (Qabs x)
  | PInf | NInf => PInf
  | NaN => NaN
  end.

Definition is_nan (a : num) : bool :=
  match a with NaN => true | _ => false end.

End Num.

(** ** The cooldown gate ([should_play_audio_alert]) *)

(** [AUDIO_COOLDOWN = 30]. *)
Definition AUDIO_COOLDOWN : Q := 30.

(** The module-level dictionary [last_audio_alerts] as first created. *)
Definition last_audio_alerts_init : gmap string Q :=
  list_to_map
    [("high_temp", 0); ("low_temp", 0); ("high_bpm", 0); ("low_bpm", 0);
     ("normal_bpm", 0); ("alcohol", 0); ("motion", 0);
     ("mqtt_connected", 0); ("system_startup", 0)]%string.

Section Cooldown.

(** The window is a constant of the module; the gate is stated for any
    window and instantiated at [AUDIO_COOLDOWN] below. *)
Variable window : Q.

(** [last_audio_alerts.get(alert_type, 0)]. *)
Definition last_fired (alerts : gmap string Q) (alert_type : string) : Q :=
  default 0 (alerts !! alert_type).

(** [should_play_audio_alert], with [time.time()] passed as [current_time]
    and the dictionary threaded through. *)
Definition should_play_with
    (current_time : Q) (alert_type : string) (alerts : gmap string Q)
  : bool * gmap string Q :=
  if Qle_bool window (current_time - last_fired alerts alert_type)
  then (true, <[alert_type := current_time]> alerts)
  else (false, alerts).

End Cooldown.

Definition should_play_audio_alert := should_play_with AUDIO_COOLDOWN.

(** ** Parsed JSON documents *)

(** What [json.loads] and a MongoDB record hold.  A number is an [int] or a
    [float], both as [num]; an object keeps its pairs in insertion order,
    with pairwise distinct keys. *)
#[warnings="-register-all"]
Inductive json : Type :=
| JNull
| JBool (b : bool)
| JNum (x : num)
| JStr (s : string)
| JArr (items : list json)
| JObj (pairs : list (string * json)).

Module Py.

(** [d.get(k)], [None] of the option being Python's [None] result. *)
Fixpoint dict_get (k : string) (d : list (string * json)) : option json :=
  match d with
  | [] => None
  | (k', v) :: rest => if String.eqb k k' then Some v else dict_get k rest
  end.

(** [k in d]. *)
Definition dict_in (k : string) (d : list (string * json)) : bool :=
  match dict_get k d with Some _ => true | None => false end.

(** [d[k] = v]: an existing key keeps its position. *)
Fixpoint dict_set (k : string) (v : json) (d : list (string * json))
  : list (string * json) :=
  match d with
  | [] => [(k, v)]
  | (k', v') :: rest =>
      if String.eqb k k' then (k, v) :: rest
      else (k', v') :: dict_set k v rest
  end.

(** A [bool] is an [int]: [True == 1]. *)
Definition of_bool (b : bool) : num := Fin (if b then 1 else 0).

(** [a == b] on parsed values that share no object.  Two lists are equal
    when they have the same length and equal items; two dicts when they
    have the same number of keys and every key of the first is in the
    second with an equal value.  A NaN is unequal to every number, itself
    included; inside a container CPython answers equal for one and the
    same object without comparing it, which is why the statements about
    [eqb] are made for values without NaN, where this plays no part. *)
Fixpoint eqb (a b : json) {struct a} : bool :=
  match a, b with
  | JNull, JNull => true
  | JBool x, JBool y => Bool.eqb x y
  | JBool x, JNum y => Num.eqb (of_bool x) y
  | JNum x, JBool y => Num.eqb x (of_bool y)
  | JNum x, JNum y => Num.eqb x y
  | JStr s, JStr t => String.eqb s t
  | JArr xs, JArr ys =>
      (fix items (xs ys : list json) {struct xs} : bool :=
         match xs, ys with
         | [], [] => true
         | x :: xs', y :: ys' => eqb x y && items xs' ys'
         | _, _ => false
         end) xs ys
  | JObj d, JObj e =>
      Nat.eqb (length d) (length e)
      && (fix pairs (d : list (string * json)) {struct d} : bool :=
            match d with
            | [] => true
            | (k, v) :: d' =>
                match dict_get k e with
                | Some w => eqb v w && pairs d'
                | None => false
                end
            end) d
  | _, _ => false
  end.

(** [a != b]. *)
Definition neb (a b : json) : bool := negb (eqb a b).

(** No NaN anywhere in the value. *)
Fixpoint nan_free (a : json) : bool :=
  match a with
  | JNum x => negb (Num.is_nan x)
  | JArr xs => forallb nan_free xs
  | JObj d => forallb (fun kv => nan_free (snd kv)) d
  | _ => true
  end.

(** The keys of every object inside the value are pairwise distinct, as in
    every Python [dict]. *)
Fixpoint keys_ok (a : json) : bool :=
  match a with
  | JArr xs => forallb keys_ok xs
  | JObj d =>
      bool_decide (NoDup (map fst d)) && forallb (fun kv => keys_ok (snd kv)) d
  | _ => true
  end.

(** Truth value of a parsed value ([if x:]). *)
Definition truthy (a : json) : bool :=
  match a with
  | JNull => false
  | JBool b => b
  | JNum x => negb (Num.eqb x (Fin 0))
  | JStr s => negb (String.eqb s EmptyString)
  | JArr xs => negb (Nat.eqb (length xs) 0)
  | JObj d => negb (Nat.eqb (length d) 0)
  end.

End Py.

(** ** Decimal literals and [float(...)] *)

Module Float64.

(** Round a non-negative fraction [a / b] to the nearest integer, ties to
    even. *)
Definition round_half_even (a b : Z) : Z :=
  let fl := (a / b)%Z in
  let r := (a mod b)%Z in
  match (2 * r ?= b)%Z with
  | Lt => fl
  | Gt => (fl + 1)%Z
  | Eq => if Z.even fl then fl else (fl + 1)%Z
  end.

(** [2 ^ e] as a fraction, for any integer [e]. *)
Definition pow2 (e : Z) : Q :=
  if (0 <=? e)%Z then inject_Z (2 ^ e) else 1 / inject_Z (2 ^ (- e)).

(** The binary64 value nearest to a positive fraction [n / d]
    (round to nearest, ties to even; overflow gives infinity). *)
Definition round_pos (n d : Z) : num :=
  let e0 := (Z.log2 n - Z.log2 d)%Z in
  let e := if Qle_bool (pow2 e0) (n # Z.to_pos d) then e0 else (e0 - 1)%Z in
  let shift := Z.max (e - 52) (-1074) in
  let m :=
    if (0 <=? shift)%Z
    then round_half_even n (d * 2 ^ shift)
    else round_half_even (n * 2 ^ (- shift)) d in
  let v := Qred (inject_Z m * pow2 shift) in
  if Qle_bool (pow2 1024) v then PInf else Fin v.

(** The binary64 value nearest to a fraction. *)
Definition round (q : Q) : num :=
  match Qnum q with
  | Z0 => Fin 0
  | Zpos n => round_pos (Zpos n) (Zpos (Qden q))
  | Zneg n =>
      match round_pos (Zpos n) (Zpos (Qden q)) with
      | Fin v => Fin (- v)
      | _ => NInf
      end
  end.

End Float64.

(** ** A reader of JSON text

    [json.loads] and [float] on a string are functions of the Python
    library; the code below takes them as parameters.  [Json.loads] and
    [Json.float_of_str] are the instances used to run the code on concrete
    files: JSON as Python reads it (the literals [NaN], [Infinity] and
    [-Infinity] included), characters being single bytes, so that a
    [\u] escape above [00FF] is not covered. *)

Module Json.

Local Open Scope char_scope.

Definition is_ws (c : ascii) : bool :=
  match c with
  | " " | "009" | "010" | "013" => true
  | _ => false
  end.

Fixpoint skip_ws (s : list ascii) : list ascii :=
  match s with
  | c :: r => if is_ws c then skip_ws r else s
  | [] => []
  end.

Definition digit (c : ascii) : option Z :=
  let n := Z.of_nat (nat_of_ascii c) in
  if ((48 <=? n) && (n <=? 57))%Z then Some (n - 48)%Z else None.

Definition hex_digit (c : ascii) : option Z :=
  let n := Z.of_nat (nat_of_ascii c) in
  if ((48 <=? n) && (n <=? 57))%Z then Some (n - 48)%Z
  else if ((65 <=? n) && (n <=? 70))%Z then Some (n - 55)%Z
  else if ((97 <=? n) && (n <=? 102))%Z then Some (n - 87)%Z
  else None.

(** The longest run of digits at the head of [s]: its value continuing
    from [acc], how many digits it has, and the rest. *)
Fixpoint digits (acc : Z) (count : nat) (s : list ascii)
  : Z * nat * list ascii :=
  match s with
  | c :: r =>
      match digit c with
      | Some d => digits (10 * acc + d) (S count) r
      | None => (acc, count, s)
      end
  | [] => (acc, count, s)
  end.

(** [s] starts with [p]: the rest of [s] after it. *)
Fixpoint strip_prefix (p s : list ascii) : option (list ascii) :=
  match p, s with
  | [], _ => Some s
  | a :: p', b :: s' => if Ascii.eqb a b then strip_prefix p' s' else None
  | _ :: _, [] => None
  end.

(** The optional fraction [.ddd] and exponent [e+dd] after an integer
    part [ip]: the value, whether either was present, and the rest. *)
Definition frac_exp (ip : Z) (s : list ascii) : Q * bool * list ascii :=
  let '(mant, scale, has_frac, s1) :=
    match s with
    | "." :: r =>
        match digits ip 0 r with
        | (_, O, _) => (ip, 0%Z, false, s)
        | (m, k, r') => (m, Z.of_nat k, true, r')
        end
    | _ => (ip, 0%Z, false, s)
    end in
  let '(ex, has_exp, s2) :=
    match s1 with
    | c :: r =>
        if Ascii.eqb c "e" || Ascii.eqb c "E" then
          let '(neg, r1) :=
            match r with
            | "-" :: r1 => (true, r1)
            | "+" :: r1 => (false, r1)
            | _ => (false, r)
            end in
          match digits 0 0 r1 with
          | (_, O, _) => (0%Z, false, s1)
          | (e, _, r') => (if neg then (- e)%Z else e, true, r')
          end
        else (0%Z, false, s1)
    | [] => (0%Z, false, s1)
    end in
  let p := (ex - scale)%Z in
  let q :=
    if (0 <=? p)%Z then inject_Z (mant * 10 ^ p)
    else inject_Z mant / inject_Z (10 ^ (- p)) in
  (q, has_frac || has_exp, s2).

(** A JSON number after its optional sign: an [int] when it has neither
    fraction nor exponent, and the nearest [float] otherwise. *)
Definition number (neg : bool) (s : list ascii) : option (json * list ascii) :=
  let after_int :=
    match s with
    | "0" :: r => Some (0%Z, r)
    | c :: _ =>
        match digit c with
        | Some _ => let '(v, _, r) := digits 0 0 s in Some (v, r)
        | None => None
        end
    | [] => None
    end in
  match after_int with
  | None => None
  | Some (ip, r) =>
      let '(q, is_float, r') := frac_exp ip r in
      let q := if neg then - q else q in
      Some (JNum (if is_float then Float64.round q else Fin (Qred q)), r')
  end.

(** The characters of a string literal after its opening quote. *)
Fixpoint string_body (s : list ascii) (acc : list ascii)
  : option (string * list ascii) :=
  match s with
  | [] => None
  | "034" :: r => Some (string_of_list_ascii (rev acc), r)
  | "\" :: e :: r =>
      let simple (c : ascii) := string_body r (c :: acc) in
      match e with
      | "034" => simple "034"
      | "\" => simple "\"
      | "/" => simple "/"
      | "b" => simple "008"
      | "f" => simple "012"
      | "n" => simple "010"
      | "r" => simple "013"
      | "t" => simple "009"
      | "u" =>
          match r with
          | a :: b :: c :: d :: r' =>
              match hex_digit a, hex_digit b, hex_digit c, hex_digit d with
              | Some 0%Z, Some 0%Z, Some h, Some l =>
                  string_body r' (ascii_of_nat (Z.to_nat (16 * h + l)) :: acc)
              | _, _, _, _ => None
              end
          | _ => None
          end
      | _ => None
      end
  | c :: r =>
      if (nat_of_ascii c <? 32)%nat then None else string_body r (c :: acc)
  end.

(** The members of an object after its opening brace, [s] starting at the
    first key; [pv] reads one value.  A repeated key keeps its first
    position and its last value, as [dict] does. *)
Fixpoint members (pv : list ascii -> option (json * list ascii))
    (fuel : nat) (acc : list (string * json)) (s : list ascii)
  : option (json * list ascii) :=
  match fuel with
  | O => None
  | S fuel' =>
      match s with
      | "034" :: r =>
          match string_body r [] with
          | Some (k, r1) =>
              match skip_ws r1 with
              | ":" :: r2 =>
                  match pv r2 with
                  | Some (v, r3) =>
                      let acc' := Py.dict_set k v acc in
                      match skip_ws r3 with
                      | "," :: r4 => members pv fuel' acc' (skip_ws r4)
                      | "}" :: r4 => Some (JObj acc', r4)
                      | _ => None
                      end
                  | None => None
                  end
              | _ => None
              end
          | None => None
          end
      | _ => None
      end
  end.

(** The items of an array after its opening bracket. *)
Fixpoint items (pv : list ascii -> option (json * list ascii))
    (fuel : nat) (acc : list json) (s : list ascii)
  : option (json * list ascii) :=
  match fuel with
  | O => None
  | S fuel' =>
      match pv s with
      | Some (v, r) =>
          match skip_ws r with
          | "," :: r1 => items pv fuel' (v :: acc) r1
          | "]" :: r1 => Some (JArr (rev (v :: acc)), r1)
          | _ => None
          end
      | None => None
      end
  end.

Definition lit (text : string) (v : json) (s : list ascii)
  : option (json * list ascii) :=
  match strip_prefix (list_ascii_of_string text) s with
  | Some r => Some (v, r)
  | None => None
  end.

(** One JSON value at the head of [s], after optional white space. *)
Fixpoint value (fuel : nat) (s : list ascii) : option (json * list ascii) :=
  match fuel with
  | O => None
  | S n =>
      let s0 := skip_ws s in
      match s0 with
      | "{" :: r =>
          match skip_ws r with
          | "}" :: r' => Some (JObj [], r')
          | r' => members (value n) n [] r'
          end
      | "[" :: r =>
          match skip_ws r with
          | "]" :: r' => Some (JArr [], r')
          | r' => items (value n) n [] r'
          end
      | "034" :: r =>
          match string_body r [] with
          | Some (t, r') => Some (JStr t, r')
          | None => None
          end
      | "n" :: _ => lit "null" JNull s0
      | "t" :: _ => lit "true" (JBool true) s0
      | "f" :: _ => lit "false" (JBool false) s0
      | "N" :: _ => lit "NaN" (JNum NaN) s0
      | "I" :: _ => lit "Infinity" (JNum PInf) s0
      | "-" :: r =>
          match lit "Infinity" (JNum NInf) r with
          | Some res => Some res
          | None => number true r
          end
      | _ => number false s0
      end
  end.

(** [json.loads(text)]; [None] is [JSONDecodeError]. *)
Definition loads (text : string) : option json :=
  let s := list_ascii_of_string text in
  match value (S (length s)) s with
  | Some (v, r) => match skip_ws r with [] => Some v | _ => None end
  | None => None
  end.

End Json.

(** ** Python strings *)

Module Str.

(** [c.isspace()] for a one-byte character. *)
Definition isspace (c : ascii) : bool :=
  let n := nat_of_ascii c in
  ((9 <=? n) && (n <=? 13) || (28 <=? n) && (n <=? 32)
   || (n =? 133) || (n =? 160))%nat.

Fixpoint lstrip (s : list ascii) : list ascii :=
  match s with
  | c :: r => if isspace c then lstrip r else s
  | [] => []
  end.

(** [s.strip()]. *)
Definition strip_chars (s : list ascii) : list ascii :=
  rev (lstrip (rev (lstrip s))).

Definition strip (s : string) : string :=
  string_of_list_ascii (strip_chars (list_ascii_of_string s)).

(** [s.split('\n')], [cur] being the reversed piece read so far. *)
Fixpoint split_lines (s : list ascii) (cur : list ascii) : list string :=
  match s with
  | [] => [string_of_list_ascii (rev cur)]
  | c :: r =>
      if Ascii.eqb c "010"%char
      then string_of_list_ascii (rev cur) :: split_lines r []
      else split_lines r (c :: cur)
  end.

Definition split_nl (s : string) : list string :=
  split_lines (list_ascii_of_string s) [].

(** A text written with the apostrophe standing for the double quote. *)
Definition quoted (s : string) : string :=
  string_of_list_ascii
    (map (fun c => if Ascii.eqb c "'"%char then "034"%char else c)
       (list_ascii_of_string s)).

(** The newline, and lines joined by it. *)
Definition nl : string := String "010" EmptyString.

Fixpoint join_lines (lines : list string) : string :=
  match lines with
  | [] => EmptyString
  | [l] => l
  | l :: rest => (l ++ nl ++ join_lines rest)%string
  end.

Definition lower (c : ascii) : ascii :=
  let n := nat_of_ascii c in
  if ((65 <=? n) && (n <=? 90))%nat then ascii_of_nat (n + 32) else c.

(** Digit-group underscores, allowed only between two digits. *)
Fixpoint drop_underscores (prev_digit : bool) (s : list ascii)
  : option (list ascii) :=
  match s with
  | [] => Some []
  | "_"%char :: r =>
      match r with
      | d :: _ =>
          if prev_digit && bool_decide (is_Some (Json.digit d))
          then drop_underscores false r
          else None
      | [] => None
      end
  | c :: r =>
      match drop_underscores (bool_decide (is_Some (Json.digit c))) r with
      | Some r' => Some (c :: r')
      | None => None
      end
  end.

(** An unsigned decimal [ddd[.ddd][e[+-]dd]] filling the whole of [s]. *)
Definition decimal (s : list ascii) : option Q :=
  let '(ip, n1, r) := Json.digits 0 0 s in
  let '(mant, n2, r1) :=
    match r with
    | "."%char :: r' => Json.digits ip 0 r'
    | _ => (ip, O, r)
    end in
  if (n1 + n2 =? 0)%nat then None
  else
    let scaled (ex : Z) : Q :=
      let p := (ex - Z.of_nat n2)%Z in
      if (0 <=? p)%Z then inject_Z (mant * 10 ^ p)
      else inject_Z mant / inject_Z (10 ^ (- p)) in
    match r1 with
    | [] => Some (scaled 0%Z)
    | c :: r2 =>
        if Ascii.eqb (lower c) "e"%char then
          let '(neg, r3) :=
            match r2 with
            | "-"%char :: r3 => (true, r3)
            | "+"%char :: r3 => (false, r3)
            | _ => (false, r2)
            end in
          match Json.digits 0 0 r3 with
          | (_, O, _) => None
          | (e, _, []) => Some (scaled (if neg then (- e)%Z else e))
          | _ => None
          end
        else None
    end.

(** [float(s)] for a string; [None] is [ValueError]. *)
Definition float_of_str (text : string) : option num :=
  let s := strip_chars (list_ascii_of_string text) in
  let '(neg, body) :=
    match s with
    | "-"%char :: r => (true, r)
    | "+"%char :: r => (false, r)
    | _ => (false, s)
    end in
  let word := string_of_list_ascii (map lower body) in
  if String.eqb word "inf" || String.eqb word "infinity"
  then Some (if neg then NInf else PInf)
  else if String.eqb word "nan" then Some NaN
  else
    match drop_underscores false body with
    | Some digits =>
        match decimal digits with
        | Some q => Some (Float64.round (if neg then - q else q))
        | None => None
        end
    | None => None
    end.

End Str.

(** ** Exceptions *)

(** The exception classes the code can meet.  [PlayerError] stands for an
    [Exception] raised inside the audio player, and [SystemExit] for the
    classes that derive from [BaseException] but not from [Exception]. *)
Inductive exn : Type :=
| ValueError
| TypeError
| OverflowError
| JSONDecodeError
| AttributeError
| RuntimeError
| OSError
| FileNotFoundError
| PlayerError
| SystemExit.

Inductive res (A : Type) : Type :=
| Ok (a : A)
| Err (e : exn).
Arguments Ok {A} a.
Arguments Err {A} e.

Module Exn.

(** [isinstance(e, Exception)]. *)
Definition is_Exception (e : exn) : bool :=
  match e with SystemExit => false | _ => true end.

(** [isinstance(e, (ValueError, TypeError))]; [JSONDecodeError] derives
    from [ValueError]. *)
Definition is_Value_or_Type (e : exn) : bool :=
  match e with
  | ValueError | TypeError | JSONDecodeError => true
  | _ => false
  end.

(** [isinstance(e, (json.JSONDecodeError, FileNotFoundError))]. *)
Definition is_Decode_or_NotFound (e : exn) : bool :=
  match e with
  | JSONDecodeError | FileNotFoundError => true
  | _ => false
  end.

(** Go on with the value, or pass the exception up. *)
Definition and_then {A B} (r : res A) (k : A -> res B) : res B :=
  match r with Ok a => k a | Err e => Err e end.

End Exn.

(** ** Lookups in parsed documents *)

Module Dict.

(** [d.get(key, dflt)]; a value that is not a dict has no [get]. *)
Definition get (d : json) (key : string) (dflt : json) : res json :=
  match d with
  | JObj pairs => Ok (default dflt (Py.dict_get key pairs))
  | _ => Err AttributeError
  end.

(** [d.get(group, {}).get(key, dflt)]. *)
Definition get2 (d : json) (group key : string) (dflt : json) : res json :=
  Exn.and_then (get d group (JObj [])) (fun g => get g key dflt).

End Dict.

(** ** The single-flight dispatcher ([play_audio_threaded]) *)

(** What [audio_task] writes on the console. *)
Inductive log_line : Type :=
| LogSkipped
| LogPlaybackFailed
| LogAudioError.

(** The module-level [audio_lock] (held or not) and [audio_playing], with
    the console. *)
Record audio_state : Type := {
  audio_lock : bool;
  audio_playing : bool;
  printed : list log_line
}.

(** What a call [func] on its arguments of the audio player does: it returns a truth
    value or raises. *)
Inductive outcome : Type :=
| Returns (success : bool)
| Raises (e : exn).

(** What [play_audio_threaded] is asked to run. *)
Inductive action : Type :=
| play_health_alert (cue : string)
| play_motion_alert
| play_system_status (status : string).

Module Task.

(** Code that reads and writes the audio state and may raise. *)
Definition M (A : Type) : Type := audio_state -> res A * audio_state.

Definition ret {A} (a : A) : M A := fun s => (Ok a, s).

Definition raise {A} (e : exn) : M A := fun s => (Err e, s).

Definition bind {A B} (c : M A) (k : A -> M B) : M B :=
  fun s =>
    match c s with
    | (Ok a, s') => k a s'
    | (Err e, s') => (Err e, s')
    end.

Notation "x <- c ;; k" := (bind c (fun x => k))
  (at level 100, c at next level, right associativity).
Notation "c ;;; k" := (bind c (fun _ => k))
  (at level 100, right associativity).

(** [try: body  except Exception: handler]. *)
Definition try_except (body handler : M unit) : M unit :=
  fun s =>
    match body s with
    | (Err e, s') =>
        if Exn.is_Exception e then handler s' else (Err e, s')
    | done => done
    end.

(** [try: body  finally: final]: [final] runs on every exit of [body];
    the exit of [body] stands unless [final] itself raises. *)
Definition try_finally {A} (body : M A) (final : M unit) : M A :=
  fun s =>
    match body s with
    | (r, s') =>
        match final s' with
        | (Ok _, s'') => (r, s'')
        | (Err e, s'') => (Err e, s'')
        end
    end.

(** [audio_lock.acquire(blocking=False)]. *)
Definition acquire_nonblocking : M bool :=
  fun s =>
    if audio_lock s then (Ok false, s)
    else (Ok true, {| audio_lock := true;
                      audio_playing := audio_playing s;
                      printed := printed s |}).

(** [audio_lock.release()]; releasing a lock that is not held raises
    [RuntimeError]. *)
Definition release : M unit :=
  fun s =>
    if audio_lock s
    then (Ok tt, {| audio_lock := false;
                    audio_playing := audio_playing s;
                    printed := printed s |})
    else (Err RuntimeError, s).

Definition set_playing (b : bool) : M unit :=
  fun s => (Ok tt, {| audio_lock := audio_lock s;
                      audio_playing := b;
                      printed := printed s |}).

Definition print (l : log_line) : M unit :=
  fun s => (Ok tt, {| audio_lock := audio_lock s;
                      audio_playing := audio_playing s;
                      printed := printed s ++ [l] |}).

(** [func] on its arguments. *)
Definition call (o : outcome) : M bool :=
  match o with
  | Returns success => ret success
  | Raises e => raise e
  end.

(** The [try ... except ... finally] of [audio_task], entered with the
    lock held. *)
Definition guarded (o : outcome) : M unit :=
  try_finally
    (try_except
       (set_playing true ;;;
        success <- call o ;;
        if negb success then print LogPlaybackFailed else ret tt)
       (print LogAudioError))
    (set_playing false ;;; release).

(** The early return of [audio_task] when the lock is busy. *)
Definition skipped : M unit := print LogSkipped.

(** [audio_task], the body of the worker thread. *)
Definition audio_task (o : outcome) : M unit :=
  acquired <- acquire_nonblocking ;;
  if negb acquired then skipped else guarded o.

End Task.

(** ** Worker threads

    [play_audio_threaded] starts one thread per call.  A thread takes two
    atomic steps: the attempt on the lock, and, when it got the lock, the
    guarded call up to and including the release. *)

Inductive worker : Type :=
| Ready (a : action)
| Holding (a : action)
| Dropped
| Finished (r : res unit).

Record pool : Type := {
  audio : audio_state;
  workers : list worker
}.

Module Pool.

Definition holding (w : worker) : bool :=
  match w with Holding _ => true | _ => false end.
Definition dropped (w : worker) : bool :=
  match w with Dropped => true | _ => false end.
Definition ready (w : worker) : bool :=
  match w with Ready _ => true | _ => false end.
Definition finished (w : worker) : bool :=
  match w with Finished _ => true | _ => false end.

(** How many workers are in a given state. *)
Fixpoint count (p : worker -> bool) (ws : list worker) : nat :=
  match ws with
  | [] => 0%nat
  | w :: rest => ((if p w then 1 else 0) + count p rest)%nat
  end.

(** [threading.Thread(target=audio_task, daemon=True).start()]. *)
Definition spawn (a : action) (p : pool) : pool :=
  {| audio := audio p; workers := workers p ++ [Ready a] |}.

(** Thread [i] takes its next step; [o] is what the player does if the
    step is the guarded call.  A thread that has ended takes no step. *)
Definition fire (i : nat) (o : outcome) (p : pool) : option pool :=
  match workers p !! i with
  | Some (Ready a) =>
      match Task.acquire_nonblocking (audio p) with
      | (Ok true, s) =>
          Some {| audio := s; workers := <[i := Holding a]> (workers p) |}
      | (_, s) =>
          Some {| audio := snd (Task.skipped s);
                  workers := <[i := Dropped]> (workers p) |}
      end
  | Some (Holding a) =>
      let '(r, s) := Task.guarded o (audio p) in
      Some {| audio := s; workers := <[i := Finished r]> (workers p) |}
  | _ => None
  end.

(** An interleaving: which thread moves next, and with which outcome. *)
Fixpoint run (sched : list (nat * outcome)) (p : pool) : option pool :=
  match sched with
  | [] => Some p
  | (i, o) :: rest =>
      match fire i o p with
      | Some p' => run rest p'
      | None => None
      end
  end.

Definition idle : audio_state :=
  {| audio_lock := false; audio_playing := false; printed := [] |}.

(** Dispatch calls issued on an idle dispatcher, none having made its
    attempt yet. *)
Definition issued (acts : list action) : pool :=
  {| audio := idle; workers := map Ready acts |}.

(** The two facts that every interleaving keeps: the lock is held exactly
    when one worker is between its two steps; and while no action has
    completed, a free lock means no attempt was dropped. *)
Definition consistent (p : pool) : Prop :=
  count holding (workers p) = (if audio_lock (audio p) then 1 else 0)%nat
  /\ (audio_lock (audio p) = false ->
      count finished (workers p) = 0%nat ->
      count dropped (workers p) = 0%nat /\ count holding (workers p) = 0%nat).

End Pool.

(** ** Thresholds and alert evaluation ([check_and_play_audio_alerts]) *)

(** [AUDIO_THRESHOLDS]; [0.1] is its binary64 value. *)
Module Thresholds.
Definition temp_high : num := Fin (75 # 2).
Definition temp_low : num := Fin 35.
Definition bpm_high : num := Fin 100.
Definition bpm_low : num := Fin 60.
Definition alcohol_detected : num :=
  Fin (3602879701896397 # 36028797018963968).
Definition motion_threshold : num := Fin 5.
End Thresholds.

(** The state of the server module. *)
Record server : Type := {
  last_audio_alerts : gmap string Q;
  dispatcher : pool;
  sensor_data : gmap string json
}.

Section Evaluation.

(** The value of [time.time()] during the call. *)
Variable now : Q.

(** [cond and should_play_audio_alert(alert_type)]: the gate is consulted,
    and stamps, only when [cond] holds. *)
Definition gate (cond : bool) (alert_type : string) (alerts : gmap string Q)
  : bool * gmap string Q :=
  if cond then should_play_audio_alert now alert_type alerts
  else (false, alerts).

(** The [if]/[elif] chain for one sensor type: the alert that passed its
    threshold test and its cooldown gate, with the action handed to
    [play_audio_threaded]. *)
Definition check_alerts (sensor_type : string) (value : option num)
    (alerts : gmap string Q)
  : gmap string Q * option (string * action) :=
  match value with
  | None => (alerts, None)
  | Some v =>
      if String.eqb sensor_type "temp" then
        let '(hit, alerts) :=
          gate (Num.geb v Thresholds.temp_high) "high_temp" alerts in
        if hit then (alerts, Some ("high_temp"%string, play_health_alert "high_temp"))
        else
          let '(hit, alerts) :=
            gate (Num.leb v Thresholds.temp_low) "low_temp" alerts in
          if hit then (alerts, Some ("low_temp"%string, play_health_alert "temp_measure"))
          else (alerts, None)
      else if String.eqb sensor_type "bpm" then
        let '(hit, alerts) :=
          gate (Num.geb v Thresholds.bpm_high) "high_bpm" alerts in
        if hit then (alerts, Some ("high_bpm"%string, play_health_alert "high_bpm"))
        else
          let '(hit, alerts) :=
            gate (Num.gtb v (Fin 0) && Num.leb v Thresholds.bpm_low)
              "low_bpm" alerts in
          if hit then (alerts, Some ("low_bpm"%string, play_health_alert "normal_bpm"))
          else
            let '(hit, alerts) :=
              gate (Num.gtb v (Fin 0)
                    && (Num.leb (Fin 60) v && Num.ltb v (Fin 100)))
                "normal_bpm" alerts in
            if hit then (alerts, Some ("normal_bpm"%string, play_health_alert "normal_bpm"))
            else (alerts, None)
      else if String.eqb sensor_type "alcohol" then
        let '(hit, alerts) :=
          gate (Num.geb v Thresholds.alcohol_detected) "alcohol" alerts in
        if hit then (alerts, Some ("alcohol"%string, play_health_alert "alcohol_detected"))
        else (alerts, None)
      else if String.eqb sensor_type "motion" then
        let '(hit, alerts) :=
          gate (Num.geb (Num.abs v) Thresholds.motion_threshold)
            "motion" alerts in
        if hit then (alerts, Some ("motion"%string, play_motion_alert))
        else (alerts, None)
      else (alerts, None)
  end.

(** [play_audio_threaded(func, ...)]: the caller only starts the thread. *)
Definition play_audio_threaded (a : action) (sv : server) : server :=
  {| last_audio_alerts := last_audio_alerts sv;
     dispatcher := Pool.spawn a (dispatcher sv);
     sensor_data := sensor_data sv |}.

(** [check_and_play_audio_alerts(sensor_type, value)]. *)
Definition check_and_play_audio_alerts
    (sensor_type : string) (value : option num) (sv : server) : server :=
  let '(alerts, fired) :=
    check_alerts sensor_type value (last_audio_alerts sv) in
  let sv' := {| last_audio_alerts := alerts;
                dispatcher := dispatcher sv;
                sensor_data := sensor_data sv |} in
  match fired with
  | Some (_, a) => play_audio_threaded a sv'
  | None => sv'
  end.

End Evaluation.

(** ** The bus subscriber: the temperature topic of [on_message] *)

Section Subscriber.

(** [json.loads] and [float] on a string. *)
Variable loads : string -> option json.
Variable float_of_str : string -> option num.

(** [float(x)] for a parsed value.  An [int] too large for a float raises
    [OverflowError]. *)
Definition py_float (x : json) : res num :=
  match x with
  | JNum (Fin q) =>
      match Float64.round q with
      | Fin r => Ok (Fin r)
      | _ => Err OverflowError
      end
  | JNum x => Ok x
  | JBool b => Ok (Py.of_bool b)
  | JStr s =>
      match float_of_str s with
      | Some x => Ok x
      | None => Err ValueError
      end
  | JNull | JArr _ | JObj _ => Err TypeError
  end.


(** The [for key, value in temp_data.items()] loop: the first value that
    [float] accepts; [ValueError] and [TypeError] move on to the next
    item, any other exception leaves the loop. *)
Fixpoint first_numeric (items : list (string * json)) : res (option num) :=
  match items with
  | [] => Ok None
  | (_, v) :: rest =>
      match py_float v with
      | Ok x => Ok (Some x)
      | Err e =>
          if Exn.is_Value_or_Type e then first_numeric rest else Err e
      end
  end.

(** [sensor_data['temp'] = {'value': temp_value, 'timestamp': timestamp}]
    followed by [check_and_play_audio_alerts('temp', temp_value)]. *)
Definition accept_temp (now : Q) (timestamp : string) (temp_value : num)
    (sv : server) : server :=
  check_and_play_audio_alerts now "temp" (Some temp_value)
    {| last_audio_alerts := last_audio_alerts sv;
       dispatcher := dispatcher sv;
       sensor_data :=
         <["temp"%string :=
             JObj [("value"%string, JNum temp_value);
                   ("timestamp"%string, JStr timestamp)]]>
           (sensor_data sv) |}.

(** The branch of [on_message] for the temperature topic.  The second
    component is the exception that the outer [except Exception] printed,
    if any. *)
Definition on_message_temp (now : Q) (timestamp : string) (payload : string)
    (sv : server) : server * option exn :=
  let stored (r : res num) : server * option exn :=
    match r with
    | Ok v => (accept_temp now timestamp v sv, None)
    | Err e => (sv, Some e)
    end in
  match loads payload with
  | Some (JObj temp_data) =>
      if Py.dict_in "temp" temp_data then
        stored (py_float (default JNull (Py.dict_get "temp" temp_data)))
      else if Py.dict_in "temperature" temp_data then
        stored (py_float (default JNull (Py.dict_get "temperature" temp_data)))
      else
        match first_numeric temp_data with
        | Ok (Some v) => (accept_temp now timestamp v sv, None)
        | Ok None => (sv, None)
        | Err e => (sv, Some e)
        end
  | Some temp_data => stored (py_float temp_data)
  | None =>
      stored (match float_of_str payload with
              | Some v => Ok v
              | None => Err ValueError
              end)
  end.

End Subscriber.

(** ** The polling readers *)

(** What one attempt to read the polled file meets: [os.path.exists] is
    false, or the file is read to the end, or [open] or [read] raises. *)
Inductive file_read : Type :=
| FileMissing
| FileText (text : string)
| FileError (e : exn).

(** What [get_sensor_data] returns: a newly built value, or the very object
    held in [self.last_data]. *)
Inductive fetched : Type :=
| Fresh (d : json)
| SameObject.

(** [DataReader]: the last accepted document and the documents handed to
    the callbacks, in order. *)
Record data_reader : Type := {
  last_data : json;
  fanned_out : list json
}.

Section FileReader.

Variable loads : string -> option json.

(** The structure returned when the file does not exist. *)
Definition default_data : json :=
  JObj [("weight", JObj [("value", JNull); ("status", JNull)]);
        ("sensors", JObj [("gyro", JNull); ("accel", JNull);
                          ("temp", JNull); ("distance", JNull)]);
        ("health", JObj [("bpm", JNull)]);
        ("tempgun", JObj [("temp_object", JNull)])]%string.

(** [DataReader.get_sensor_data]. *)
Definition get_sensor_data (f : file_read) : res fetched :=
  match f with
  | FileMissing => Ok (Fresh default_data)
  | FileText text =>
      match loads text with
      | Some d => Ok (Fresh d)
      | None => Ok SameObject
      end
  | FileError e =>
      if Exn.is_Decode_or_NotFound e then Ok SameObject else Err e
  end.

(** [x.copy()]: only a dict or a list has it. *)
Definition py_copy (x : json) : res json :=
  match x with
  | JObj _ | JArr _ => Ok x
  | _ => Err AttributeError
  end.

(** [DataReader.__init__]. *)
Definition data_reader_init : data_reader :=
  {| last_data := JObj []; fanned_out := [] |}.

(** [current_data != self.last_data]: an object compared with itself is
    equal, whatever it holds. *)
Definition data_changed (cur : fetched) (last : json) : bool :=
  match cur with
  | Fresh d => Py.neb d last
  | SameObject => false
  end.

(** One turn of the [while self.running] loop of
    [DataReader._monitor_loop]; [Err e] is an exception that leaves the
    loop, which only a class outside [Exception] does. *)
Definition monitor_cycle (f : file_read) (r : data_reader) : res data_reader :=
  let caught (e : exn) : res data_reader :=
    if Exn.is_Exception e then Ok r else Err e in
  match get_sensor_data f with
  | Err e => caught e
  | Ok cur =>
      if data_changed cur (last_data r) then
        let current_data :=
          match cur with Fresh d => d | SameObject => last_data r end in
        match py_copy current_data with
        | Ok c => Ok {| last_data := c;
                        fanned_out := fanned_out r ++ [current_data] |}
        | Err e => caught e
        end
      else Ok r
  end.

(** The read of this turn fails: the text does not parse, or reading
    raises an [Exception]. *)
Definition read_fails (f : file_read) : bool :=
  match f with
  | FileMissing => false
  | FileText text => match loads text with None => true | Some _ => false end
  | FileError e => Exn.is_Exception e
  end.

(** The loop over successive reads of the file, one per turn. *)
Fixpoint monitor_loop (reads : list file_read) (r : data_reader)
  : res data_reader :=
  match reads with
  | [] => Ok r
  | f :: rest =>
      match monitor_cycle f r with
      | Ok r' => monitor_loop rest r'
      | Err e => Err e
      end
  end.

(** ** The brace-counting scan of [MainScreen] *)

(** The three variables of the scan: [json_lines], [current_json] and
    [brace_count]. *)
Record scan : Type := {
  json_lines : list string;
  current_json : string;
  brace_count : Z
}.

(** The [for char in line] loop. *)
Fixpoint count_braces (line : list ascii) (n : Z) : Z :=
  match line with
  | [] => n
  | c :: r =>
      if Ascii.eqb c "{"%char then count_braces r (n + 1)%Z
      else if Ascii.eqb c "}"%char then count_braces r (n - 1)%Z
      else count_braces r n
  end.

(** The body of [for line in file_content.split('\n')]. *)
Definition scan_line (st : scan) (raw : string) : scan :=
  let line := Str.strip raw in
  if String.eqb line EmptyString then st
  else
    let cur := (current_json st ++ line)%string in
    let n := count_braces (list_ascii_of_string line) (brace_count st) in
    if (n =? 0)%Z && negb (String.eqb cur EmptyString) then
      match loads cur with
      | Some _ =>
          {| json_lines := json_lines st ++ [cur];
             current_json := EmptyString;
             brace_count := n |}
      | None =>
          {| json_lines := json_lines st; current_json := EmptyString; brace_count := 0 |}
      end
    else {| json_lines := json_lines st; current_json := cur; brace_count := n |}.

Definition scan_start : scan :=
  {| json_lines := []; current_json := EmptyString; brace_count := 0 |}.

Definition scan_lines (lines : list string) : scan :=
  fold_left scan_line lines scan_start.

(** [json.loads(json_lines[-1])] when [json_lines] is not empty. *)
Definition latest_of (st : scan) : option json :=
  match last (json_lines st) with
  | Some latest_json => loads latest_json
  | None => None
  end.

(** [MainScreen._get_latest_mqtt_data]. *)
Definition _get_latest_mqtt_data (f : file_read) : option json :=
  match f with
  | FileMissing => None
  | FileError _ => None
  | FileText text =>
      let file_content := Str.strip text in
      if String.eqb file_content EmptyString then None
      else latest_of (scan_lines (Str.split_nl file_content))
  end.

(** [MainScreen]: [last_mqtt_data] ([JNull] being Python's [None]) and
    the documents passed to [update_sensor_data]. *)
Record main_screen : Type := {
  last_mqtt_data : json;
  updates : list json
}.

(** [MainScreen.__init__]. *)
Definition main_screen_init : main_screen :=
  {| last_mqtt_data := JNull; updates := [] |}.

(** The three values that [refresh_mqtt_data] prints before it compares:
    [current_mqtt_data.get(group, {}).get(key, 'N/A')] raises when the
    document, or the group in it, is not a dict. *)
Definition printable (current_mqtt_data : json) : bool :=
  match Dict.get2 current_mqtt_data "tempgun" "temp_object" (JStr "N/A"),
        Dict.get2 current_mqtt_data "health" "bpm" (JStr "N/A"),
        Dict.get2 current_mqtt_data "alcohol" "level" (JStr "N/A") with
  | Ok _, Ok _, Ok _ => true
  | _, _, _ => false
  end.

(** [MainScreen.refresh_mqtt_data]; an exception of the prints is caught by
    the outer [except Exception], which leaves the screen as it was. *)
Definition refresh_mqtt_data (f : file_read) (m : main_screen) : main_screen :=
  match f with
  | FileMissing => m
  | FileError _ => m
  | FileText text =>
      let file_content := Str.strip text in
      if String.eqb file_content EmptyString then m
      else
        match latest_of (scan_lines (Str.split_nl file_content)) with
        | Some current_mqtt_data =>
            if negb (printable current_mqtt_data) then m
            else if Py.neb current_mqtt_data (last_mqtt_data m) then
              {| last_mqtt_data := current_mqtt_data;
                 updates := updates m ++ [current_mqtt_data] |}
            else m
        | None => m
        end
  end.

End FileReader.

(** ** The store reader ([MongoDBReader]) *)

(** What one query of the collection meets: no collection, the latest
    record (or none), or an exception. *)
Inductive store_read : Type :=
| NoCollection
| Latest (record : option json)
| StoreError (e : exn).

(** [MongoDBReader]: [last_data] ([JNull] being [None]) and the documents
    handed to the callbacks. *)
Record mongo_reader : Type := {
  mongo_last_data : json;
  mongo_fanned_out : list json
}.

Module Mongo.

(** A parsed value where a number is expected: [int], [float] or [bool]
    compare with a float, anything else raises [TypeError]. *)
Definition compare_with (op : num -> num -> bool) (x : json) (c : num)
  : res bool :=
  match x with
  | JNum v => Ok (op v c)
  | JBool b => Ok (op (Py.of_bool b) c)
  | _ => Err TypeError
  end.

Definition lt := compare_with Num.ltb.
Definition gt := compare_with Num.gtb.

(** [0.08] and [0.05] as binary64 values. *)
Definition c_0_08 : num := Fin (5764607523034235 # 72057594037927936).
Definition c_0_05 : num := Fin (3602879701896397 # 72057594037927936).

Definition _get_temp_status (temp : json) : res string :=
  Exn.and_then (lt temp (Fin 36)) (fun low =>
  if low then Ok "Low"%string
  else Exn.and_then (gt temp (Fin (75 # 2))) (fun high =>
  if high then Ok "High"%string else Ok "Normal"%string)).

Definition _get_temp_color (temp : json) : res string :=
  Exn.and_then (lt temp (Fin 36)) (fun low =>
  if low then Ok "#F9A826"%string
  else Exn.and_then (gt temp (Fin (75 # 2))) (fun high =>
  if high then Ok "#F9A826"%string else Ok "#2E7D32"%string)).

Definition _get_heart_rate_status (hr : json) : res string :=
  Exn.and_then (lt hr (Fin 60)) (fun low =>
  if low then Ok "Low"%string
  else Exn.and_then (gt hr (Fin 100)) (fun high =>
  if high then Ok "High"%string else Ok "Normal"%string)).

Definition _get_heart_rate_color (hr : json) : res string :=
  Exn.and_then (lt hr (Fin 60)) (fun low =>
  if low then Ok "#F9A826"%string
  else Exn.and_then (gt hr (Fin 100)) (fun high =>
  if high then Ok "#F9A826"%string else Ok "#2E7D32"%string)).

Definition _get_alcohol_status (alcohol : json) : res string :=
  Exn.and_then (gt alcohol c_0_08) (fun a =>
  if a then Ok "High"%string
  else Exn.and_then (gt alcohol c_0_05) (fun b =>
  if b then Ok "Moderate"%string
  else Exn.and_then (gt alcohol (Fin 0)) (fun c =>
  if c then Ok "Low"%string else Ok "None"%string))).

Definition _get_alcohol_color (alcohol : json) : res string :=
  Exn.and_then (gt alcohol c_0_08) (fun a =>
  if a then Ok "#C62828"%string
  else Exn.and_then (gt alcohol c_0_05) (fun b =>
  if b then Ok "#F9A826"%string
  else Exn.and_then (gt alcohol (Fin 0)) (fun c =>
  if c then Ok "#3E5C76"%string else Ok "#2E7D32"%string))).

(** [latest.get(key, 0)]. *)
Definition get_or_zero (key : string) (latest : list (string * json)) : json :=
  default (JNum (Fin 0)) (Py.dict_get key latest).

(** One entry of [formatted_data]. *)
Definition entry (v : json) (unit : string)
    (status color : json -> res string) : res json :=
  Exn.and_then (status v) (fun s =>
  Exn.and_then (color v) (fun c =>
  Ok (JObj [("value", v); ("unit", JStr unit);
            ("status", JStr s); ("color", JStr c)]%string))).

(** The dict built from the latest record. *)
Definition formatted_data (latest : list (string * json)) : res json :=
  Exn.and_then (entry (get_or_zero "temperature" latest) "°C"
              _get_temp_status _get_temp_color) (fun t =>
  Exn.and_then (entry (get_or_zero "pulse_rate" latest) "bpm"
              _get_heart_rate_status _get_heart_rate_color) (fun h =>
  Exn.and_then (entry (get_or_zero "alcohol_percentage" latest) "%"
              _get_alcohol_status _get_alcohol_color) (fun a =>
  Ok (JObj [("temperature", t); ("heart_rate", h); ("alcohol", a)]%string)))).

(** [MongoDBReader.get_latest_data]; [JNull] is the [None] result, and
    [Err e] an exception that [except Exception] does not catch. *)
Definition get_latest_data (q : store_read) : res json :=
  let caught (e : exn) : res json :=
    if Exn.is_Exception e then Ok JNull else Err e in
  match q with
  | NoCollection => Ok JNull
  | StoreError e => caught e
  | Latest None => Ok JNull
  | Latest (Some latest) =>
      if Py.truthy latest then
        match latest with
        | JObj d =>
            match formatted_data d with
            | Ok doc => Ok doc
            | Err e => caught e
            end
        | _ => caught AttributeError
        end
      else Ok JNull
  end.

(** [MongoDBReader.__init__]. *)
Definition init : mongo_reader :=
  {| mongo_last_data := JNull; mongo_fanned_out := [] |}.

(** One turn of the loop of [MongoDBReader._monitor_loop]. *)
Definition monitor_cycle (q : store_read) (r : mongo_reader) : res mongo_reader :=
  match get_latest_data q with
  | Err e => if Exn.is_Exception e then Ok r else Err e
  | Ok current_data =>
      if Py.truthy current_data && Py.neb current_data (mongo_last_data r)
      then Ok {| mongo_last_data := current_data;
                 mongo_fanned_out := mongo_fanned_out r ++ [current_data] |}
      else Ok r
  end.

End Mongo.

(** ** The display path ([MainScreen._format_mqtt_data]) *)

(** The colour classes of [self.colors]. *)
Inductive color : Type :=
| accent_success
| accent_warning
| accent_danger
| text_muted.

(** The text shown for a value: ["--"], [str(int(x))], [f"{x:.1f}"] or
    [str(x)]. *)
Inductive shown : Type :=
| Dashes
| AsInt (z : Z)
| Fixed1 (x : num)
| AsText (x : json).

Record card : Type := {
  value : shown;
  status : string;
  tint : color
}.

Record display : Type := {
  heart_rate : card;
  temperature : card;
  alcohol : card;
  system_status : string
}.

Module Display.

(** [36.1] as a binary64 value. *)
Definition c_36_1 : num := Fin (5080623329627341 # 140737488355328).

(** [isinstance(x, (int, float))], with the number; a [bool] is an
    [int]. *)
Definition as_number (x : json) : option num :=
  match x with
  | JNum v => Some v
  | JBool b => Some (Py.of_bool b)
  | _ => None
  end.

(** [int(x)] for a number: the fraction is dropped. *)
Definition py_int (x : num) : res Z :=
  match x with
  | Fin q => Ok (Z.quot (Qnum q) (Zpos (Qden q)))
  | NaN => Err ValueError
  | PInf | NInf => Err OverflowError
  end.

(** The status and colour of a numeric heart rate. *)
Definition hr_class (bpm : num) : string * color :=
  if Num.leb (Fin 60) bpm && Num.leb bpm (Fin 100)
  then ("Normal"%string, accent_success)
  else if Num.ltb bpm (Fin 60) then ("Low"%string, accent_warning)
  else ("High"%string, accent_danger).

(** The status and colour of a numeric temperature. *)
Definition temp_class (temp_celsius : num) : string * color :=
  if Num.leb c_36_1 temp_celsius && Num.leb temp_celsius (Fin (75 # 2))
  then ("Normal"%string, accent_success)
  else if Num.ltb temp_celsius c_36_1 then ("Low"%string, accent_warning)
  else ("Fever"%string, accent_danger).

(** The status and colour of a numeric alcohol level. *)
Definition alcohol_class (alcohol_level : num) : string * color :=
  if Num.eqb alcohol_level (Fin 0) then ("Clean"%string, accent_success)
  else if Num.leb alcohol_level Mongo.c_0_08
  then ("Low"%string, accent_warning)
  else ("High"%string, accent_danger).

Definition no_data : card :=
  {| value := Dashes; status := "No Data"; tint := text_muted |}.

Definition heart_rate_card (bpm : json) : res card :=
  match bpm with
  | JNull => Ok no_data
  | _ =>
      match as_number bpm with
      | Some v =>
          Exn.and_then (py_int v) (fun z =>
          let '(s, c) := hr_class v in
          Ok {| value := AsInt z; status := s; tint := c |})
      | None =>
          Ok {| value := AsText bpm; status := "Unknown"; tint := text_muted |}
      end
  end.

Definition temperature_card (temp_celsius : json) : card :=
  match as_number temp_celsius with
  | Some v =>
      let '(s, c) := temp_class v in
      {| value := Fixed1 v; status := s; tint := c |}
  | None => no_data
  end.

Definition alcohol_card (alcohol_level : json) : card :=
  match as_number alcohol_level with
  | Some v =>
      let '(s, c) := alcohol_class v in
      {| value := Fixed1 v; status := s; tint := c |}
  | None => no_data
  end.

Definition is_none (x : json) : bool :=
  match x with JNull => true | _ => false end.

(** The three places where the alcohol level is looked for. *)
Definition alcohol_level_of (mqtt_data : json) : res json :=
  Exn.and_then (Dict.get2 mqtt_data "alcohol" "level" JNull) (fun a =>
  if is_none a then
    Exn.and_then (Dict.get2 mqtt_data "sensors" "alcohol" JNull) (fun b =>
    if is_none b then Dict.get mqtt_data "alcohol_level" JNull else Ok b)
  else Ok a).

Definition system_status_of (available : nat) : string :=
  match available with
  | 3%nat => "All Sensors Online"
  | 2%nat => "2/3 Sensors Active"
  | 1%nat => "1/3 Sensors Active"
  | _ => "Waiting for data"
  end.

(** [MainScreen._format_mqtt_data]. *)
Definition _format_mqtt_data (mqtt_data : json) : res display :=
  Exn.and_then (Dict.get2 mqtt_data "health" "bpm" JNull) (fun bpm =>
  Exn.and_then (heart_rate_card bpm) (fun hr =>
  Exn.and_then (Dict.get2 mqtt_data "tempgun" "temp_object" JNull) (fun temp_celsius =>
  Exn.and_then (alcohol_level_of mqtt_data) (fun alcohol_level =>
  let available :=
    length (filter (fun x => is_none x = false)
              [bpm; temp_celsius; alcohol_level]) in
  Ok {| heart_rate := hr;
        temperature := temperature_card temp_celsius;
        alcohol := alcohol_card alcohol_level;
        system_status := system_status_of available |})))).

End Display.

(** * The rest of the code

    The other topics of the bus subscriber and [on_connect]; the observers
    of the readers; the screen's header and capture; the verdicts of the
    printed report ([app/print_data_processor.py]); and the configuration
    store ([app/config.py]), whose dicts are objects of a heap since the
    code shares them and changes them in place. *)

(** ** More on Python strings *)

Module Text.

(** [p] is a prefix of [s]. *)
Fixpoint starts_with (p s : list ascii) : bool :=
  match p, s with
  | [], _ => true
  | a :: p', b :: s' => Ascii.eqb a b && starts_with p' s'
  | _ :: _, [] => false
  end.

Fixpoint contains_chars (needle hay : list ascii) : bool :=
  starts_with needle hay
  || match hay with
     | [] => false
     | _ :: rest => contains_chars needle rest
     end.

(** [needle in hay] for two strings. *)
Definition contains (needle hay : string) : bool :=
  contains_chars (list_ascii_of_string needle) (list_ascii_of_string hay).

(** [s.split(sep)] for a one-character separator, [cur] being the reversed
    piece read so far. *)
Fixpoint split_chars (sep : ascii) (s : list ascii) (cur : list ascii)
  : list string :=
  match s with
  | [] => [string_of_list_ascii (rev cur)]
  | c :: r =>
      if Ascii.eqb c sep
      then string_of_list_ascii (rev cur) :: split_chars sep r []
      else split_chars sep r (c :: cur)
  end.

Definition split (sep : ascii) (s : string) : list string :=
  split_chars sep (list_ascii_of_string s) [].

End Text.

(** ** The bus subscriber: the other topics of [on_message], [on_connect] *)

Section SubscriberTopics.

Variable loads : string -> option json.
Variable float_of_str : string -> option num.








End SubscriberTopics.

(** [on_connect], without the subscriptions it asks of the client: the new
    value of [mqtt_connected] and the server state. *)
Definition on_connect (now : Q) (rc : Z) (sv : server) : bool * server :=
  if (rc =? 0)%Z then
    let '(hit, alerts) :=
      should_play_audio_alert now "mqtt_connected" (last_audio_alerts sv) in
    let sv' := {| last_audio_alerts := alerts;
                  dispatcher := dispatcher sv;
                  sensor_data := sensor_data sv |} in
    (true, if hit then play_audio_threaded (play_system_status "online") sv'
           else sv')
  else (false, play_audio_threaded (play_system_status "error") sv).

(** A run of evaluations: each with the time of its call, the sensor type
    and the value. *)
Fixpoint evaluate_all (calls : list (Q * string * option num)) (sv : server)
  : server :=
  match calls with
  | [] => sv
  | (now, sensor_type, value) :: rest =>
      evaluate_all rest (check_and_play_audio_alerts now sensor_type value sv)
  end.

#[global] Instance log_line_eq_dec : EqDecision log_line.
Proof. solve_decision. Defined.

(** How many times a line was written on the console. *)
Definition printed_times (l : log_line) (s : audio_state) : nat :=
  length (filter (fun x => x = l) (printed s)).

(** ** Observers *)

Module Observers.

(** [callbacks.append(callback)]; a callback is known by a number. *)
Definition add_callback (callback : nat) (callbacks : list nat) : list nat :=
  callbacks ++ [callback].

(** [list.remove(x)]: the first occurrence goes. *)
Fixpoint remove_first (callback : nat) (callbacks : list nat) : list nat :=
  match callbacks with
  | [] => []
  | c :: rest =>
      if Nat.eqb c callback then rest else c :: remove_first callback rest
  end.

(** [if callback in self.callbacks: self.callbacks.remove(callback)]. *)
Definition remove_callback (callback : nat) (callbacks : list nat) : list nat :=
  if existsb (Nat.eqb callback) callbacks
  then remove_first callback callbacks
  else callbacks.

(** The loop [for callback in callbacks: try: callback(data) except
    Exception: print(...)], shared by [DataReader._monitor_loop],
    [MongoDBReader._monitor_loop] and [BaseComponent.trigger_callback].
    [react] tells what a callback raises on the data, if anything; the
    result lists the calls made, in order, with the exception that left
    the loop, if any. *)
Fixpoint fan_out {A : Type} (react : nat -> A -> option exn)
    (callbacks : list nat) (data : A) : list (nat * A) * option exn :=
  match callbacks with
  | [] => ([], None)
  | c :: rest =>
      match react c data with
      | Some e =>
          if Exn.is_Exception e
          then let '(calls, out) := fan_out react rest data in
               ((c, data) :: calls, out)
          else ([(c, data)], Some e)
      | None =>
          let '(calls, out) := fan_out react rest data in
          ((c, data) :: calls, out)
      end
  end.

End Observers.

Module Formatted.

(** [x <= c] and [x > c] for a parsed value and a number. *)
Definition le := Mongo.compare_with Num.leb.
Definition gt := Mongo.compare_with Num.gtb.

(** The choice [a if bpm and bpm <= 100 else b if bpm and bpm > 100 else c]
    that [get_formatted_data] makes for the status and for the colour of
    the heart rate. *)
Definition hr_choice {A : Type} (a b c : A) (bpm : json) : res A :=
  Exn.and_then
    (if Py.truthy bpm then le bpm (Fin 100) else Ok false)
    (fun normal =>
       if normal then Ok a
       else
         Exn.and_then
           (if Py.truthy bpm then gt bpm (Fin 100) else Ok false)
           (fun high => if high then Ok b else Ok c)).

(** The entry [heart_rate] of [DataReader.get_formatted_data], from the
    value of [get_heart_rate]. *)
Definition heart_rate_entry (bpm : json) : res json :=
  let value := match bpm with JNull => JStr "--" | _ => bpm end in
  Exn.and_then (hr_choice "Normal"%string "High"%string "Unknown"%string bpm)
    (fun status =>
  Exn.and_then (hr_choice "#2E7D32"%string "#C62828"%string "#626973"%string bpm)
    (fun color =>
  Ok (JObj [("value", value); ("status", JStr status);
            ("color", JStr color)]%string))).

End Formatted.

(** ** The readers over time *)

(** Each document differs from the one before it, [prev] coming first. *)
Fixpoint each_differs (prev : json) (docs : list json) : bool :=
  match docs with
  | [] => true
  | d :: rest => Py.neb d prev && each_differs d rest
  end.

(** The loop of [MongoDBReader._monitor_loop] over successive queries. *)
Fixpoint mongo_monitor_loop (queries : list store_read) (r : mongo_reader)
  : res mongo_reader :=
  match queries with
  | [] => Ok r
  | q :: rest =>
      match Mongo.monitor_cycle q r with
      | Ok r' => mongo_monitor_loop rest r'
      | Err e => Err e
      end
  end.

(** [start_auto_refresh] calling [refresh_mqtt_data] again and again, over
    successive states of the file. *)
Definition refresh_loop (loads : string -> option json)
    (reads : list file_read) (m : main_screen) : main_screen :=
  fold_left (fun m f => refresh_mqtt_data loads f m) reads m.

(** ** The screen: [update_sensor_data] and [capture_sensor_data] *)

(** [MainScreen.update_sensor_data] with the three cards and the header in
    place: the cards' contents, the header's status text and its
    [is_online] flag. *)
Definition update_sensor_data (mqtt_data : json) : res (display * bool) :=
  Exn.and_then (Display._format_mqtt_data mqtt_data)
    (fun formatted_data =>
       Ok (formatted_data,
           Text.contains "Online" (system_status formatted_data))).

(** The call of [show_capture_feedback] that ends a capture. *)
Inductive feedback : Type :=
| Captured (sensor_type : string) (value : json) (unit : string)
| NotCaptured (sensor_type : string).

Section Capture.

Variable loads : string -> option json.

(** [self.current_user.get('email', 'Unknown') if self.current_user else
    'Unknown']. *)
Definition capture_user (current_user : json) : res json :=
  if Py.truthy current_user
  then Dict.get current_user "email" (JStr "Unknown")
  else Ok (JStr "Unknown").

(** The value and the unit that [capture_sensor_data] looks up for a sensor
    type; a type it does not know leaves the value at [None]. *)
Definition captured_value (mqtt_data current_user : json) (sensor_type : string)
  : res (json * string) :=
  if String.eqb sensor_type "heart_rate" then
    Exn.and_then (Dict.get2 mqtt_data "health" "bpm" JNull) (fun v =>
    Exn.and_then (capture_user current_user) (fun _ => Ok (v, "bpm"%string)))
  else if String.eqb sensor_type "temperature" then
    Exn.and_then (Dict.get2 mqtt_data "tempgun" "temp_object" JNull) (fun v =>
    Exn.and_then (capture_user current_user) (fun _ => Ok (v, "°C"%string)))
  else if String.eqb sensor_type "alcohol" then
    Exn.and_then (Dict.get2 mqtt_data "alcohol" "level" JNull) (fun v1 =>
    Exn.and_then
      (if Display.is_none v1
       then Dict.get2 mqtt_data "sensors" "alcohol" JNull else Ok v1) (fun v2 =>
    Exn.and_then
      (if Display.is_none v2
       then Dict.get mqtt_data "alcohol_level" JNull else Ok v2) (fun v3 =>
    Exn.and_then (capture_user current_user) (fun _ => Ok (v3, "%"%string)))))
  else Ok (JNull, EmptyString).

(** [MainScreen.capture_sensor_data], by the feedback it shows. *)
Definition capture_sensor_data (f : file_read) (current_user : json)
    (sensor_type : string) : feedback :=
  match _get_latest_mqtt_data loads f with
  | None => NotCaptured sensor_type
  | Some mqtt_data =>
      if Py.truthy mqtt_data then
        match captured_value mqtt_data current_user sensor_type with
        | Ok (JNull, _) => NotCaptured sensor_type
        | Ok (v, unit) => Captured sensor_type v unit
        | Err _ => NotCaptured sensor_type
        end
      else NotCaptured sensor_type
  end.

End Capture.

(** ** The printed report ([SensorDataProcessor]) *)

Module Printer.

(** [SensorDataProcessor._get_heart_rate_status]. *)
Definition _get_heart_rate_status (bpm : num) : string :=
  if Num.leb (Fin 60) bpm && Num.leb bpm (Fin 100) then "NORMAL"
  else if Num.ltb bpm (Fin 60) then "LOW (Bradycardia)"
  else "HIGH (Tachycardia)".


End Printer.

(** ** The scan, line by line *)


(** ** The configuration store ([app/config.py]) *)

Module Config.

(** A value held by the configuration.  A dict is an object of the heap,
    known by its address, since [set] and [_deep_merge] change dicts in
    place and [DEFAULT_CONFIG.copy()] is a shallow copy; every other value
    is never changed in place. *)
Inductive val : Type :=
| VNone
| VBool (b : bool)
| VNum (x : num)
| VStr (s : string)
| VList (items : list json)
| Ref (address : nat).

Abbreviation dict := (list (string * val)).

(** [d[key]] when [key in d]. *)
Fixpoint lookup_key (key : string) (d : dict) : option val :=
  match d with
  | [] => None
  | (k, v) :: rest => if String.eqb k key then Some v else lookup_key key rest
  end.

(** [d[key] = v]: an existing key keeps its position. *)
Fixpoint store_key (key : string) (v : val) (d : dict) : dict :=
  match d with
  | [] => [(key, v)]
  | (k, w) :: rest =>
      if String.eqb k key then (k, v) :: rest
      else (k, w) :: store_key key v rest
  end.

(** The dicts of the program, by address; a new dict takes the next
    address.  [DEFAULT_CONFIG] is the class attribute and [config] the
    attribute [self.config] of the instance. *)
Record state : Type := {
  heap : list dict;
  DEFAULT_CONFIG : nat;
  config : nat
}.

(** [bool(v)]. *)
Definition truthy (h : list dict) (v : val) : bool :=
  match v with
  | VNone => false
  | VBool b => b
  | VNum x => negb (Num.eqb x (Fin 0))
  | VStr s => negb (String.eqb s EmptyString)
  | VList items => negb (Nat.eqb (length items) 0)
  | Ref l =>
      match h !! l with
      | Some d => negb (Nat.eqb (length d) 0)
      | None => false
      end
  end.

(** [value] is not a dict. *)
Definition scalar (value : val) : bool :=
  match value with Ref _ => false | _ => true end.

(** The fields of a parsed object, stored one by one in the new dict [d];
    [import_value] builds the objects of a field's value. *)
Definition import_items
    (import_value : json -> list dict -> val * list dict) (d : nat)
  : list (string * json) -> list dict -> list dict :=
  fix items (ps : list (string * json)) (h : list dict) : list dict :=
    match ps with
    | [] => h
    | (key, value) :: rest =>
        let '(v, h1) := import_value value h in
        items rest (alter (store_key key v) d h1)
    end.

(** The objects that [json.load] builds for a parsed document: one new
    dict for every object of the document. *)
Fixpoint import (j : json) (h : list dict) : val * list dict :=
  match j with
  | JNull => (VNone, h)
  | JBool b => (VBool b, h)
  | JNum x => (VNum x, h)
  | JStr s => (VStr s, h)
  | JArr items => (VList items, h)
  | JObj pairs =>
      (Ref (length h), import_items import (length h) pairs (h ++ [[]]))
  end.

(** The loop [for key in keys: value = value[key]] of [get]; [None] when
    an indexing raises [KeyError] (no such key) or [TypeError] (the value
    is not a dict). *)
Fixpoint walk (h : list dict) (keys : list string) (value : val) : option val :=
  match keys with
  | [] => Some value
  | key :: rest =>
      match value with
      | Ref l =>
          match h !! l with
          | Some d =>
              match lookup_key key d with
              | Some v => walk h rest v
              | None => None
              end
          | None => None
          end
      | _ => None
      end
  end.

(** [BotiBotConfig.get]. *)
Definition get (key_path : string) (dflt : val) (st : state) : val :=
  let keys := Text.split "." key_path in
  match walk (heap st) keys (Ref (config st)) with
  | Some value => value
  | None => dflt
  end.

(** The loop of [set] over [keys[:-1]] followed by the final assignment
    [config_dict[keys[-1]] = value].  A value that is not a dict supports
    neither the test [key not in config_dict] followed by an indexing with
    a string nor the assignment: [TypeError].  An address outside the heap
    denotes no object. *)
Fixpoint set_walk (h : list dict) (config_dict : nat) (keys : list string)
    (last_key : string) (value : val) : res (list dict) :=
  match h !! config_dict with
  | None => Err RuntimeError
  | Some d =>
      match keys with
      | [] => Ok (<[config_dict := store_key last_key value d]> h)
      | key :: rest =>
          match lookup_key key d with
          | None =>
              let fresh := length h in
              set_walk (<[config_dict := store_key key (Ref fresh) d]> h ++ [[]])
                fresh rest last_key value
          | Some (Ref next) => set_walk h next rest last_key value
          | Some _ => Err TypeError
          end
      end
  end.

(** [BotiBotConfig.set]. *)
Definition set (key_path : string) (value : val) (st : state) : res state :=
  let keys := Text.split "." key_path in
  match set_walk (heap st) (config st) (removelast keys)
          (List.last keys EmptyString) value with
  | Ok h => Ok {| heap := h;
                  DEFAULT_CONFIG := DEFAULT_CONFIG st;
                  config := config st |}
  | Err e => Err e
  end.

(** [BotiBotConfig.is_kiosk_mode]. *)
Definition is_kiosk_mode (st : state) : val :=
  get "window.kiosk_mode" (VBool false) st.

(** [BotiBotConfig.toggle_kiosk_mode], with the value it returns;
    [save_config] writes the file and leaves the dicts as they are. *)
Definition toggle_kiosk_mode (st : state) : res (bool * state) :=
  let current := get "window.kiosk_mode" (VBool false) st in
  let flipped := negb (truthy (heap st) current) in
  match set "window.kiosk_mode" (VBool flipped) st with
  | Ok st' => Ok (flipped, st')
  | Err e => Err e
  end.

(** [BotiBotConfig.reset_to_defaults]: [self.config] becomes a new dict
    with the entries of [DEFAULT_CONFIG], the dicts inside being the same
    objects. *)
Definition reset_to_defaults (st : state) : state :=
  match heap st !! DEFAULT_CONFIG st with
  | Some d => {| heap := heap st ++ [d];
                 DEFAULT_CONFIG := DEFAULT_CONFIG st;
                 config := length (heap st) |}
  | None => st
  end.

(** [base_dict[key] = value] for a value of the parsed document. *)
Definition assign (base_dict : nat) (key : string) (value : json)
    (h : list dict) : list dict :=
  let '(v, h1) := import value h in
  alter (store_key key v) base_dict h1.

(** The loop of [_deep_merge] over the items of [update_dict];
    [merge_value] is the recursive call. *)
Definition merge_items
    (merge_value : json -> nat -> list dict -> list dict) (base_dict : nat)
  : list (string * json) -> list dict -> list dict :=
  fix items (ps : list (string * json)) (h : list dict) : list dict :=
    match ps with
    | [] => h
    | (key, value) :: rest =>
        items rest
          match h !! base_dict with
          | Some d =>
              match lookup_key key d, value with
              | Some (Ref l), JObj _ => merge_value value l h
              | _, _ => assign base_dict key value h
              end
          | None => h
          end
    end.

(** The body of [_deep_merge] for an [update_dict] that is a dict. *)
Fixpoint merge_into (update_dict : json) (base_dict : nat) (h : list dict)
  : list dict :=
  match update_dict with
  | JObj pairs => merge_items merge_into base_dict pairs h
  | _ => h
  end.

(** [BotiBotConfig._deep_merge]: [update_dict.items()] raises on a value
    that is not a dict. *)
Definition _deep_merge (base_dict : nat) (update_dict : json) (h : list dict)
  : res (list dict) :=
  match update_dict with
  | JObj _ => Ok (merge_into update_dict base_dict h)
  | _ => Err AttributeError
  end.

(** The literal of [DEFAULT_CONFIG]. *)
Definition DEFAULT_CONFIG_literal : json :=
  JObj [
    ("window", JObj [
       ("kiosk_mode", JBool false);
       ("width", JNum (Fin 800));
       ("height", JNum (Fin 480));
       ("resizable", JBool true);
       ("always_on_top", JBool false);
       ("fullscreen", JBool false);
       ("center_on_start", JBool true);
       ("remember_position", JBool true);
       ("title", JStr "BOTIBOT - Smart Medication Assistant")]);
    ("interface", JObj [
       ("show_title_bar", JBool true);
       ("enable_close_button", JBool true);
       ("enable_minimize", JBool true);
       ("theme", JStr "default");
       ("font_size", JStr "normal");
       ("touch_mode", JBool true)]);
    ("data", JObj [
       ("sensor_data_path", JStr "/home/bsit/botibot.py/botibot/mqtt_data.json");
       ("update_interval", JNum (Fin 1));
       ("auto_start_monitoring", JBool true);
       ("fallback_to_test_data", JBool false)]);
    ("sensors", JObj [
       ("heart_rate_threshold", JNum (Fin 100));
       ("temp_normal_min", JNum (Float64.round (361 # 10)));
       ("temp_normal_max", JNum (Fin (75 # 2)));
       ("motion_sensitivity", JNum (Float64.round (3 # 10)));
       ("weight_change_threshold", JNum (Float64.round (1 # 10)))]);
    ("alerts", JObj [
       ("enable_sound", JBool true);
       ("enable_visual", JBool true);
       ("flash_on_emergency", JBool true);
       ("auto_alert_caregivers", JBool false)]);
    ("keyboard_shortcuts", JObj [
       ("toggle_fullscreen", JStr "F11");
       ("hide_window", JStr "Ctrl+H");
       ("show_window", JStr "Ctrl+Shift+H");
       ("emergency", JStr "Ctrl+E");
       ("quit", JStr "Ctrl+Q")])]%string.

(** [BotiBotConfig.load_config] for the three outcomes of reading the
    file; an exception outside [Exception] is not caught. *)
Definition load_config (loads : string -> option json) (f : file_read)
    (st : state) : res state :=
  match f with
  | FileMissing => Ok st
  | FileText text =>
      match loads text with
      | Some saved_config =>
          match _deep_merge (config st) saved_config (heap st) with
          | Ok h => Ok {| heap := h;
                          DEFAULT_CONFIG := DEFAULT_CONFIG st;
                          config := config st |}
          | Err _ => Ok st
          end
      | None => Ok st
      end
  | FileError e => if Exn.is_Exception e then Ok st else Err e
  end.

(** The class body followed by [BotiBotConfig.__init__], as for the global
    instance that the module creates. *)
Definition new_config (loads : string -> option json) (f : file_read)
  : res state :=
  match import DEFAULT_CONFIG_literal [] with
  | (Ref class_dict, h) =>
      match h !! class_dict with
      | Some d =>
          load_config loads f
            {| heap := h ++ [d]; DEFAULT_CONFIG := class_dict; config := length h |}
      | None => Err RuntimeError
      end
  | _ => Err RuntimeError
  end.

(** The calls that the application makes on its configuration. *)
Inductive call : Type :=
| CallSet (key_path : string) (value : val)
| CallToggle
| CallReset.

(** One call; a call that raises leaves the dicts as they were. *)
Definition step (st : state) (c : call) : state :=
  match c with
  | CallSet key_path value =>
      match set key_path value st with Ok st' => st' | Err _ => st end
  | CallToggle =>
      match toggle_kiosk_mode st with Ok (_, st') => st' | Err _ => st end
  | CallReset => reset_to_defaults st
  end.

Definition run (calls : list call) (st : state) : state :=
  fold_left step calls st.

(** The shape of the heap: every address held by a dict is in the heap;
    the dicts of [roots] ([DEFAULT_CONFIG] and its copies) are held by no
    dict; and a dict outside [roots] only holds dicts created after it.
    So no dict holds itself, directly or through other dicts. *)
Definition shaped (roots : list nat) (h : list dict) : Prop :=
  forall l d key next,
    h !! l = Some d ->
    lookup_key key d = Some (Ref next) ->
    (next < length h)%nat /\ (next ∉ roots) /\ (l ∈ roots \/ (l < next)%nat).

Definition well_formed (st : state) : Prop :=
  exists roots : list nat,
    shaped roots (heap st)
    /\ (forall r, r ∈ roots -> (r < length (heap st))%nat)
    /\ (config st ∈ roots)
    /\ (DEFAULT_CONFIG st ∈ roots)
    /\ config st <> DEFAULT_CONFIG st.

(** No dict holds itself: the rank of a dict is above the rank of every
    dict that it holds. *)
Definition ranked (rank : nat -> nat) (h : list dict) : Prop :=
  forall l d key next,
    h !! l = Some d -> lookup_key key d = Some (Ref next) ->
    (rank next < rank l)%nat.

(** The values that the application stores are not dicts. *)
Definition stores_scalars (c : call) : bool :=
  match c with
  | CallSet _ value => scalar value
  | _ => true
  end.

(** The configuration of a first start, when there is no saved file. *)
Definition first_start : state :=
  Eval vm_compute in
    match new_config Json.loads FileMissing with
    | Ok st => st
    | Err _ => {| heap := []; DEFAULT_CONFIG := 0; config := 0 |}
    end.

End Config.

(** * Properties *)

(** ** Numbers *)

Lemma leb_le (a b : Q) : Qle_bool a b = true <-> a <= b.
Proof. apply Qle_bool_iff. Qed.

Lemma leb_gt (a b : Q) : Qle_bool a b = false <-> b < a.
Proof.
  split; intros H.
  - apply Qnot_le_lt. intros Hle. apply leb_le in Hle. congruence.
  - destruct (Qle_bool a b) eqn:E; [|reflexivity].
    apply leb_le in E. exfalso. apply (Qlt_not_le _ _ H E).
Qed.

(** The thresholds written as decimal literals are the binary64 values the
    module uses. *)
Example thresholds_are_floats :
  Float64.round (1 # 10) = Thresholds.alcohol_detected
  /\ Float64.round (361 # 10) = Display.c_36_1
  /\ Float64.round (8 # 100) = Mongo.c_0_08
  /\ Float64.round (5 # 100) = Mongo.c_0_05
  /\ Float64.round (375 # 10) = Thresholds.temp_high.
Proof. vm_compute. repeat split; reflexivity. Qed.

(** ** The cooldown gate *)

Section CooldownFacts.

Variable w : Q.
Variables (k : string) (alerts : gmap string Q).

Lemma should_play_allowed (t : Q) :
  w <= t - last_fired alerts k ->
  should_play_with w t k alerts = (true, <[k := t]> alerts).
Proof.
  intros H. unfold should_play_with.
  apply leb_le in H. rewrite H. reflexivity.
Qed.

Lemma should_play_suppressed (t : Q) :
  t - last_fired alerts k < w ->
  should_play_with w t k alerts = (false, alerts).
Proof.
  intros H. unfold should_play_with.
  apply leb_gt in H. rewrite H. reflexivity.
Qed.

Lemma last_fired_stamped (t : Q) : last_fired (<[k := t]> alerts) k = t.
Proof. unfold last_fired. rewrite lookup_insert_eq. reflexivity. Qed.

Lemma last_fired_other (t : Q) (k' : string) :
  k <> k' -> last_fired (<[k := t]> alerts) k' = last_fired alerts k'.
Proof. intros H. unfold last_fired. rewrite lookup_insert_ne; done. Qed.

End CooldownFacts.

(** C1.  [should_play_audio_alert] answers true exactly when the time since
    the last stamp of the alert (0 for an alert never stamped) is at least
    the window; it then stamps the current time, and otherwise leaves the
    state as it is.  Hence, after a call that fired at [t1], a call at [t2]
    with [t2 - t1] below the window answers false, and a call with
    [t2 - t1] at least the window answers true. *)
Theorem cooldown_try_fire (w t1 t2 : Q) (k : string) (alerts : gmap string Q) :
  (fst (should_play_with w t1 k alerts) = true
     <-> w <= t1 - last_fired alerts k)
  /\ (w <= t1 - last_fired alerts k ->
      snd (should_play_with w t1 k alerts) = <[k := t1]> alerts)
  /\ (~ w <= t1 - last_fired alerts k ->
      should_play_with w t1 k alerts = (false, alerts))
  /\ (alerts !! k = None -> last_fired alerts k = 0)
  /\ (w <= t1 - last_fired alerts k -> t2 - t1 < w ->
      let '(first, a1) := should_play_with w t1 k alerts in
      let '(second, a2) := should_play_with w t2 k a1 in
      first = true /\ second = false /\ a2 = a1)
  /\ (w <= t1 - last_fired alerts k -> w <= t2 - t1 ->
      let '(first, a1) := should_play_with w t1 k alerts in
      let '(second, a2) := should_play_with w t2 k a1 in
      first = true /\ second = true /\ last_fired a2 k = t2).
Proof.
  repeat split.
  - unfold should_play_with.
    destruct (Qle_bool _ _) eqn:E; simpl; [intros _; by apply leb_le | done].
  - intros H. by rewrite should_play_allowed.
  - intros H. by rewrite should_play_allowed.
  - intros H. apply should_play_suppressed. by apply Qnot_le_lt.
  - intros H. unfold last_fired. by rewrite H.
  - intros H1 H2. rewrite (should_play_allowed _ _ _ _ H1).
    rewrite should_play_suppressed; [done|].
    by rewrite last_fired_stamped.
  - intros H1 H2. rewrite (should_play_allowed _ _ _ _ H1).
    rewrite should_play_allowed; [|by rewrite last_fired_stamped].
    by rewrite last_fired_stamped.
Qed.

Lemma cooldown_try_fire_witness :
  should_play_audio_alert 1000 "high_temp" last_audio_alerts_init
    = (true, <["high_temp"%string := 1000]> last_audio_alerts_init)
  /\ fst (should_play_audio_alert 1010 "high_temp"
            (<["high_temp"%string := 1000]> last_audio_alerts_init)) = false
  /\ fst (should_play_audio_alert 1030 "high_temp"
            (<["high_temp"%string := 1000]> last_audio_alerts_init)) = true.
Proof.
  pose proof (cooldown_try_fire AUDIO_COOLDOWN 1000 1010 "high_temp"
                last_audio_alerts_init) as (_ & _ & _ & _ & Hin & _).
  pose proof (cooldown_try_fire AUDIO_COOLDOWN 1000 1030 "high_temp"
                last_audio_alerts_init) as (_ & _ & _ & _ & _ & Hout).
  assert (H30 : AUDIO_COOLDOWN <= 1000 - last_fired last_audio_alerts_init "high_temp")
    by (vm_compute; discriminate).
  specialize (Hin H30 ltac:(vm_compute; reflexivity)).
  specialize (Hout H30 ltac:(vm_compute; discriminate)).
  unfold should_play_audio_alert.
  destruct (should_play_with AUDIO_COOLDOWN 1000 "high_temp" last_audio_alerts_init)
    as [first a1] eqn:E1.
  assert (Ha1 : a1 = <["high_temp"%string := 1000]> last_audio_alerts_init).
  { rewrite (should_play_allowed _ _ _ _ H30) in E1. congruence. }
  subst a1.
  destruct (should_play_with AUDIO_COOLDOWN 1010 _ _) as [s2 a2].
  destruct (should_play_with AUDIO_COOLDOWN 1030 _ _) as [s3 a3].
  simpl. destruct Hin as (-> & -> & _). destruct Hout as (_ & -> & _).
  done.
Defined.

(** ** The dispatcher, one task *)

Section TaskFacts.

Import Task.

(** What the guarded call leaves behind, entered with the lock held. *)
Lemma guarded_spec (o : outcome) (s : audio_state) :
  audio_lock s = true ->
  exists r s',
    guarded o s = (r, s')
    /\ audio_lock s' = false
    /\ audio_playing s' = false
    /\ r = match o with
           | Returns _ => Ok tt
           | Raises e => if Exn.is_Exception e then Ok tt else Err e
           end
    /\ printed s' = printed s ++
         match o with
         | Returns true => []
         | Returns false => [LogPlaybackFailed]
         | Raises e => if Exn.is_Exception e then [LogAudioError] else []
         end.
Proof.
  intros Hl. destruct s as [l pl pr]. simpl in Hl. subst l.
  destruct o as [[|]|e]; [| |destruct (Exn.is_Exception e) eqn:He];
    eexists _, _;
    unfold guarded, try_finally, try_except, bind, set_playing, call, ret,
      raise, print, release; simpl; rewrite ?He; simpl;
    (split; [reflexivity|]); rewrite ?app_nil_r; done.
Qed.

(** A task that finds the lock held leaves it alone and writes one line. *)
Lemma audio_task_busy (o : outcome) (s : audio_state) :
  audio_lock s = true ->
  audio_task o s
  = (Ok tt, {| audio_lock := true;
               audio_playing := audio_playing s;
               printed := printed s ++ [LogSkipped] |}).
Proof.
  intros Hl. destruct s as [l pl pr]. simpl in Hl. subst l. reflexivity.
Qed.

(** A task that finds the lock free takes it and runs the guarded call. *)
Lemma audio_task_free (o : outcome) (s : audio_state) :
  audio_lock s = false ->
  audio_task o s
  = guarded o {| audio_lock := true;
                 audio_playing := audio_playing s;
                 printed := printed s |}.
Proof.
  intros Hl. destruct s as [l pl pr]. simpl in Hl. subst l. reflexivity.
Qed.

End TaskFacts.

(** ** The dispatcher, many tasks *)

Section PoolFacts.

Import Pool.

Lemma count_app (f : worker -> bool) (xs ys : list worker) :
  count f (xs ++ ys) = (count f xs + count f ys)%nat.
Proof. induction xs as [|x xs IH]; simpl; [done|]. rewrite IH. lia. Qed.

Lemma count_insert (f : worker -> bool) (ws : list worker) (i : nat)
    (old new : worker) :
  ws !! i = Some old ->
  (count f (<[i := new]> ws) + (if f old then 1 else 0)
   = count f ws + (if f new then 1 else 0))%nat.
Proof.
  revert i. induction ws as [|x ws IH]; intros [|i] H; simpl in *;
    try discriminate.
  - injection H as ->. lia.
  - specialize (IH _ H). lia.
Qed.

Lemma count_total (ws : list worker) :
  (count ready ws + count holding ws + count dropped ws + count finished ws
   = length ws)%nat.
Proof.
  induction ws as [|[]]; simpl in *; lia.
Qed.

Lemma count_map_Ready (f : worker -> bool) (b : bool) (acts : list action) :
  (forall a, f (Ready a) = b) ->
  count f (map Ready acts) = if b then length acts else 0%nat.
Proof.
  intros H. induction acts as [|a acts IH]; simpl.
  - by destruct b.
  - rewrite IH, H. by destruct b.
Qed.

(** What one step does, by the state of the worker that moves. *)
Lemma fire_cases (i : nat) (o : outcome) (p p' : pool) :
  fire i o p = Some p' ->
  (exists a, workers p !! i = Some (Ready a)
             /\ audio_lock (audio p) = false
             /\ audio_lock (audio p') = true
             /\ workers p' = <[i := Holding a]> (workers p))
  \/ (exists a, workers p !! i = Some (Ready a)
                /\ audio_lock (audio p) = true
                /\ audio_lock (audio p') = true
                /\ printed (audio p') = printed (audio p) ++ [LogSkipped]
                /\ workers p' = <[i := Dropped]> (workers p))
  \/ (exists a r, workers p !! i = Some (Holding a)
                  /\ fst (Task.guarded o (audio p)) = r
                  /\ audio p' = snd (Task.guarded o (audio p))
                  /\ workers p' = <[i := Finished r]> (workers p)).
Proof.
  unfold fire. destruct p as [s ws]. simpl.
  destruct (ws !! i) as [[a|a| |r]|] eqn:E; try discriminate.
  - destruct s as [[|] pl pr]; simpl; intros [= <-]; simpl.
    + right; left. eauto 10.
    + left. eauto 10.
  - destruct (Task.guarded o s) as [r s'] eqn:G. intros [= <-]. simpl.
    right; right. eauto 10.
Qed.

Lemma fire_consistent (i : nat) (o : outcome) (p p' : pool) :
  fire i o p = Some p' -> consistent p -> consistent p'.
Proof.
  intros Hf [Hh Hd].
  destruct (fire_cases _ _ _ _ Hf)
    as [(a & Hi & Hl & Hl' & Hw)|[(a & Hi & Hl & Hl' & _ & Hw)|(a & r & Hi & _ & Hs & Hw)]].
  - rewrite Hl in Hh. unfold consistent. rewrite Hw, Hl'. split; [|done].
    pose proof (count_insert holding _ _ _ (Holding a) Hi) as Hc.
    simpl in Hc. lia.
  - rewrite Hl in Hh. unfold consistent. rewrite Hw, Hl'. split; [|done].
    pose proof (count_insert holding _ _ _ Dropped Hi) as Hc.
    simpl in Hc. lia.
  - assert (Hl : audio_lock (audio p) = true).
    { destruct (audio_lock (audio p)) eqn:E; [done|].
      pose proof (count_insert holding _ _ _ Dropped Hi) as Hc.
      simpl in Hc. lia. }
    destruct (guarded_spec o _ Hl) as (r' & s' & Hg & Hl' & _).
    rewrite Hg in Hs. simpl in Hs. unfold consistent. rewrite Hw, Hs, Hl'.
    rewrite Hl in Hh.
    pose proof (count_insert holding _ _ _ (Finished r) Hi) as Hc.
    pose proof (count_insert finished _ _ _ (Finished r) Hi) as Hc'.
    simpl in Hc, Hc'. split; [lia|]. intros _ Hz. lia.
Qed.

Lemma run_consistent (sched : list (nat * outcome)) (p p' : pool) :
  run sched p = Some p' -> consistent p -> consistent p'.
Proof.
  revert p. induction sched as [|[i o] sched IH]; simpl; intros p H Hc.
  - by injection H as <-.
  - destruct (fire i o p) as [q|] eqn:Hf; [|done].
    eapply IH; [done|]. by eapply fire_consistent.
Qed.

Lemma fire_length (i : nat) (o : outcome) (p p' : pool) :
  fire i o p = Some p' -> length (workers p') = length (workers p).
Proof.
  intros Hf.
  destruct (fire_cases _ _ _ _ Hf)
    as [(a & _ & _ & _ & ->)|[(a & _ & _ & _ & _ & ->)|(a & r & _ & _ & _ & ->)]];
    apply length_insert.
Qed.

Lemma run_length (sched : list (nat * outcome)) (p p' : pool) :
  run sched p = Some p' -> length (workers p') = length (workers p).
Proof.
  revert p. induction sched as [|[i o] sched IH]; simpl; intros p H.
  - by injection H as <-.
  - destruct (fire i o p) as [q|] eqn:Hf; [|done].
    rewrite (IH _ H). by eapply fire_length.
Qed.

Lemma issued_consistent (acts : list action) : consistent (issued acts).
Proof.
  unfold consistent, issued. simpl.
  rewrite (count_map_Ready holding false), (count_map_Ready dropped false);
    done.
Qed.



End PoolFacts.

(** C2.  Whatever the action does (returns success, returns failure, raises
    an [Exception], raises outside [Exception]), the task that took the lock
    ends with the lock released and [audio_playing] false.  An [Exception]
    of the action is caught in the task, which prints the error and ends
    normally; the outcome of the action is left with its own worker, the
    other workers and the caller being untouched.  This holds for a task
    run alone on a free lock, and for the worker that holds the lock in any
    interleaving of any number of dispatch calls. *)
Theorem guard_released_on_every_exit
    (o : outcome) (acts : list action) (sched : list (nat * outcome))
    (p : pool) (i : nat) (held : action) :
  Pool.run sched (Pool.issued acts) = Some p ->
  workers p !! i = Some (Holding held) ->
  (exists p',
     Pool.fire i o p = Some p'
     /\ audio_lock (audio p') = false
     /\ audio_playing (audio p') = false
     /\ Pool.count Pool.holding (workers p') = 0%nat
     /\ workers p'
        = <[i := Finished match o with
                          | Returns _ => Ok tt
                          | Raises e =>
                              if Exn.is_Exception e then Ok tt else Err e
                          end]> (workers p))
  /\ (forall s, audio_lock s = false ->
        exists r s',
          Task.audio_task o s = (r, s')
          /\ audio_lock s' = false
          /\ audio_playing s' = false
          /\ r = match o with
                 | Returns _ => Ok tt
                 | Raises e => if Exn.is_Exception e then Ok tt else Err e
                 end
          /\ printed s' = printed s ++
               match o with
               | Returns true => []
               | Returns false => [LogPlaybackFailed]
               | Raises e => if Exn.is_Exception e then [LogAudioError] else []
               end).
Proof.
  intros Hrun Hi. split.
  - pose proof (run_consistent _ _ _ Hrun (issued_consistent acts)) as [Hh _].
    assert (Hl : audio_lock (audio p) = true).
    { destruct (audio_lock (audio p)); [done|].
      pose proof (count_insert Pool.holding _ _ _ Dropped Hi) as Hc.
      simpl in Hc. lia. }
    rewrite Hl in Hh.
    destruct (guarded_spec o _ Hl) as (r & s' & Hg & Hl' & Hp & Hr & _).
    exists {| audio := s'; workers := <[i := Finished r]> (workers p) |}.
    unfold Pool.fire. rewrite Hi, Hg. simpl. repeat split; try done.
    + pose proof (count_insert Pool.holding _ _ _ (Finished r) Hi) as Hc.
      simpl in Hc. lia.
    + by rewrite Hr.
  - intros s Hs. rewrite audio_task_free by done.
    destruct (guarded_spec o
                {| audio_lock := true; audio_playing := audio_playing s;
                   printed := printed s |} eq_refl)
      as (r & s' & Hg & Hl' & Hp & Hr & Hpr).
    exists r, s'. done.
Qed.

Lemma guard_released_on_every_exit_witness :
  let p := {| audio := {| audio_lock := true; audio_playing := false;
                          printed := [LogSkipped] |};
              workers := [Dropped; Holding play_motion_alert] |} in
  Pool.run [(1%nat, Returns true); (0%nat, Returns true)]
    (Pool.issued [play_health_alert "high_temp"; play_motion_alert]) = Some p
  /\ Pool.fire 1 (Raises PlayerError) p
     = Some {| audio := {| audio_lock := false; audio_playing := false;
                           printed := [LogSkipped; LogAudioError] |};
               workers := [Dropped; Finished (Ok tt)] |}
  /\ exists p', Pool.fire 1 (Raises PlayerError) p = Some p'
                /\ audio_lock (audio p') = false.
Proof.
  intros p. split; [reflexivity|]. split; [reflexivity|].
  destruct (guard_released_on_every_exit (Raises PlayerError)
              [play_health_alert "high_temp"; play_motion_alert]
              [(1%nat, Returns true); (0%nat, Returns true)]
              p 1%nat play_motion_alert eq_refl eq_refl)
    as [(p' & Hf & Hl & _) _].
  exists p'. split; assumption.
Defined.



(** ** Evaluation and the gate *)

Section EvaluationFacts.

Variable now : Q.

Lemma gate_spec (cond : bool) (k : string) (alerts : gmap string Q) :
  gate now cond k alerts
  = if cond && Qle_bool AUDIO_COOLDOWN (now - last_fired alerts k)
    then (true, <[k := now]> alerts) else (false, alerts).
Proof.
  unfold gate, should_play_audio_alert, should_play_with.
  destruct cond; simpl; [|done]. by destruct (Qle_bool _ _).
Qed.

(** An evaluation consults the gates in order and stops at the first that
    opens; that gate, and no other, is stamped. *)
Lemma check_alerts_stamp (sensor_type : string) (value : option num)
    (alerts : gmap string Q) :
  match check_alerts now sensor_type value alerts with
  | (alerts', Some (k, _)) =>
      alerts' = <[k := now]> alerts
      /\ AUDIO_COOLDOWN <= now - last_fired alerts k
  | (alerts', None) => alerts' = alerts
  end.
Proof.
  unfold check_alerts. destruct value as [v|]; [|done].
  repeat (rewrite !gate_spec
          || match goal with
             | |- context [if ?b then _ else _] => destruct b eqn:?
             end);
    try done;
    match goal with
    | H : _ && Qle_bool _ _ = true |- _ =>
        apply andb_prop in H as [_ H]; apply leb_le in H; done
    end.
Qed.

End EvaluationFacts.

(** Turn every recorded comparison of rationals into an inequality. *)
Ltac q_props :=
  repeat match goal with
         | H : Qle_bool _ _ = true |- _ => apply leb_le in H
         | H : Qle_bool _ _ = false |- _ => apply leb_gt in H
         | H : Qeq_bool _ _ = true |- _ => apply Qeq_bool_iff in H
         | H : Qeq_bool _ _ = false |- _ => apply Qeq_bool_neq in H
         end.

(** Decide a goal about float comparisons against constants: split on the
    kind of float and on each comparison, then leave the arithmetic to
    [lra]. *)
Ltac num_decide v :=
  destruct v as [?q| | |];
  cbn [Num.geb Num.gtb Num.leb Num.ltb Num.eqb Num.abs negb andb orb];
  repeat match goal with
         | |- context [Qle_bool ?a ?b] => destruct (Qle_bool a b) eqn:?
         | |- context [Qeq_bool ?a ?b] => destruct (Qeq_bool a b) eqn:?
         end;
  cbn [negb andb orb];
  q_props;
  try (exfalso; lra);
  try (intuition (try discriminate; try congruence; try lra)).


(** At time 1000 every gate of the freshly loaded module is open. *)
Lemma init_gates_open (k : string) :
  AUDIO_COOLDOWN <= 1000 - last_fired last_audio_alerts_init k.
Proof.
  unfold last_fired, last_audio_alerts_init. simpl.
  repeat (rewrite lookup_insert; case_decide; [by vm_compute|]).
  rewrite lookup_empty. by vm_compute.
Qed.


(** C10.  The gate is consulted, and stamps, inside the evaluation, before
    the thread is started and so before the lock is tried.  Whenever an
    evaluation passes the gate of alert [k], the state after
    [check_and_play_audio_alerts] has [k] stamped with the current time and
    one new worker; when the lock is busy that worker is dropped, the stamp
    stays, the worker is never run again, and every attempt on [k] within
    the window after the stamp is suppressed. *)
Theorem dropped_alert_still_stamps
    (now : Q) (sensor_type : string) (value : option num) (sv : server)
    (alerts' : gmap string Q) (k : string) (a : action) :
  check_alerts now sensor_type value (last_audio_alerts sv)
    = (alerts', Some (k, a)) ->
  audio_lock (audio (dispatcher sv)) = true ->
  let sv' := check_and_play_audio_alerts now sensor_type value sv in
  let slot := length (workers (dispatcher sv)) in
  last_audio_alerts sv' = <[k := now]> (last_audio_alerts sv)
  /\ workers (dispatcher sv') = workers (dispatcher sv) ++ [Ready a]
  /\ audio (dispatcher sv') = audio (dispatcher sv)
  /\ (forall o, exists p',
        Pool.fire slot o (dispatcher sv') = Some p'
        /\ workers p' = workers (dispatcher sv) ++ [Dropped]
        /\ audio_lock (audio p') = true
        /\ (forall o', Pool.fire slot o' p' = None))
  /\ (forall later, later - now < AUDIO_COOLDOWN ->
        should_play_audio_alert later k (last_audio_alerts sv')
        = (false, last_audio_alerts sv')).
Proof.
  intros Hc Hl sv' slot.
  pose proof (check_alerts_stamp now sensor_type value (last_audio_alerts sv)) as Hs.
  rewrite Hc in Hs. destruct Hs as [-> Hopen].
  assert (Hsv : sv' = {| last_audio_alerts := <[k := now]> (last_audio_alerts sv);
                         dispatcher := Pool.spawn a (dispatcher sv);
                         sensor_data := sensor_data sv |}).
  { subst sv'. unfold check_and_play_audio_alerts. rewrite Hc. reflexivity. }
  rewrite Hsv. simpl. repeat split.
  - intros o. unfold Pool.fire. simpl.
    assert (Hi : (workers (dispatcher sv) ++ [Ready a]) !! slot = Some (Ready a)).
    { subst slot. rewrite lookup_app_r by lia. by rewrite Nat.sub_diag. }
    rewrite Hi. unfold Task.acquire_nonblocking. rewrite Hl.
    eexists. split; [reflexivity|]. simpl.
    assert (Hw : <[slot := Dropped]> (workers (dispatcher sv) ++ [Ready a])
                 = workers (dispatcher sv) ++ [Dropped]).
    { subst slot. rewrite insert_app_r_alt by lia. by rewrite Nat.sub_diag. }
    rewrite Hw. repeat split; [done|].
    intros o'. simpl.
    assert (Hj : (workers (dispatcher sv) ++ [Dropped]) !! slot = Some Dropped).
    { subst slot. rewrite lookup_app_r by lia. by rewrite Nat.sub_diag. }
    by rewrite Hj.
  - intros later Hlater. apply should_play_suppressed.
    by rewrite last_fired_stamped.
Qed.

Lemma dropped_alert_still_stamps_witness :
  let busy := {| audio := {| audio_lock := true; audio_playing := true;
                             printed := [] |};
                 workers := [Holding play_motion_alert] |} in
  let sv := {| last_audio_alerts := last_audio_alerts_init;
               dispatcher := busy;
               sensor_data := ∅ |} in
  let sv' := check_and_play_audio_alerts 1000 "temp" (Some (Fin 38)) sv in
  last_audio_alerts sv' = <["high_temp"%string := 1000]> last_audio_alerts_init
  /\ workers (dispatcher sv')
     = [Holding play_motion_alert; Ready (play_health_alert "high_temp")]
  /\ should_play_audio_alert 1029 "high_temp" (last_audio_alerts sv')
     = (false, last_audio_alerts sv').
Proof.
  intros busy sv sv'.
  pose proof (dropped_alert_still_stamps 1000 "temp" (Some (Fin 38)) sv
                (<["high_temp"%string := 1000]> last_audio_alerts_init)
                "high_temp" (play_health_alert "high_temp")
                eq_refl eq_refl) as (H1 & H2 & _ & _ & H5).
  exact (conj H1 (conj H2 (H5 1029 ltac:(by vm_compute)))).
Defined.

(** ** Equality of parsed values *)

Section JsonInduction.

Variable P : json -> Prop.
Hypothesis HNull : P JNull.
Hypothesis HBool : forall b, P (JBool b).
Hypothesis HNum : forall x, P (JNum x).
Hypothesis HStr : forall s, P (JStr s).
Hypothesis HArr : forall xs, Forall P xs -> P (JArr xs).
Hypothesis HObj : forall d, Forall (fun kv => P (snd kv)) d -> P (JObj d).

(** Induction on a parsed value, with the property available for every
    item of a list and every value of a dict. *)
Lemma json_nested_ind : forall j, P j.
Proof.
  fix IH 1. intros [ |b|x|s|xs|d].
  - exact HNull.
  - apply HBool.
  - apply HNum.
  - apply HStr.
  - apply HArr. induction xs as [|x xs IHxs]; constructor; [apply IH|exact IHxs].
  - apply HObj. induction d as [|[k v] d IHd]; constructor; [apply IH|exact IHd].
Qed.

End JsonInduction.

Lemma dict_get_first (k : string) (v : json) (d : list (string * json)) :
  NoDup (map fst d) -> (k, v) ∈ d -> Py.dict_get k d = Some v.
Proof.
  induction d as [|[k' v'] d IH]; simpl; intros Hnd Hin.
  - by apply elem_of_nil in Hin.
  - apply NoDup_cons in Hnd as [Hk Hnd].
    apply elem_of_cons in Hin as [[= -> ->]|Hin].
    + by rewrite String.eqb_refl.
    + destruct (String.eqb_spec k k') as [->|_]; [|by apply IH].
      exfalso. apply Hk. apply list_elem_of_fmap. by exists (k', v).
Qed.

Lemma num_eqb_refl (x : num) : Num.is_nan x = false -> Num.eqb x x = true.
Proof.
  destruct x as [q| | |]; simpl; try done. intros _. by apply Qeq_bool_iff.
Qed.

(** A value with no NaN, whose dicts have distinct keys, equals itself. *)
Lemma eqb_refl (a : json) :
  Py.keys_ok a = true -> Py.nan_free a = true -> Py.eqb a a = true.
Proof.
  induction a as [ |b|x|s|xs IH|d IH] using json_nested_ind; simpl; try done.
  - intros _. by destruct b.
  - intros _ Hn. apply num_eqb_refl. by apply negb_true_iff.
  - intros _ _. apply String.eqb_refl.
  - intros Hk Hn. induction xs as [|x xs IHxs]; [done|].
    simpl in Hk, Hn. apply andb_prop in Hk as [Hk1 Hk2].
    apply andb_prop in Hn as [Hn1 Hn2].
    apply Forall_cons in IH as [IHx IH].
    rewrite (IHx Hk1 Hn1). simpl. by apply IHxs.
  - intros Hk Hn. apply andb_prop in Hk as [Hnd Hk].
    apply bool_decide_eq_true in Hnd. rewrite Nat.eqb_refl. simpl.
    assert (Hall : forall k v, (k, v) ∈ d ->
                     Py.dict_get k d = Some v /\ Py.eqb v v = true).
    { intros k v Hin. split; [by apply dict_get_first|].
      rewrite Forall_forall in IH. apply (IH (k, v) Hin); simpl.
      - rewrite forallb_forall in Hk. apply (Hk (k, v)).
        by apply list_elem_of_In.
      - rewrite forallb_forall in Hn. apply (Hn (k, v)).
        by apply list_elem_of_In. }
    clear IH Hk Hn Hnd. revert Hall.
    generalize d at 1 4 as e. intros e.
    induction e as [|[k v] e IHe]; intros Hall; [done|].
    destruct (Hall k v) as [-> ->]; [by left|]. simpl.
    apply IHe. intros k' v' Hin. apply Hall. by right.
Qed.

Lemma neb_refl (a : json) :
  Py.keys_ok a = true -> Py.nan_free a = true -> Py.neb a a = false.
Proof. intros Hk Hn. unfold Py.neb. by rewrite eqb_refl. Qed.

(** A dict differs from [None], and from the empty dict unless it is
    empty. *)
Lemma dict_neb_none (d : list (string * json)) : Py.neb (JObj d) JNull = true.
Proof. reflexivity. Qed.

Lemma dict_neb_empty (d : list (string * json)) :
  Py.neb (JObj d) (JObj []) = negb (Nat.eqb (length d) 0).
Proof.
  unfold Py.neb. destruct d as [|[k v] d]; [reflexivity|]. reflexivity.
Qed.

(** ** The store reader's document *)

(** What [get_latest_data] returns is [None] or a dict with three
    entries. *)
Lemma get_latest_data_shape (q : store_read) (doc : json) :
  Mongo.get_latest_data q = Ok doc ->
  doc = JNull
  \/ exists t h a,
       doc = JObj [("temperature", t); ("heart_rate", h); ("alcohol", a)]%string.
Proof.
  unfold Mongo.get_latest_data.
  destruct q as [|[latest|]|e]; try (intros [= <-]; by left).
  - destruct (Py.truthy latest); [|intros [= <-]; by left].
    destruct latest as [ | | | | |d];
      try (simpl; intros [= <-]; by left).
    unfold Mongo.formatted_data, Exn.and_then.
    repeat match goal with
           | |- context [Mongo.entry ?v ?u ?s ?c] =>
               destruct (Mongo.entry v u s c) as [?|?e]
           | |- context [Exn.is_Exception ?e] =>
               destruct (Exn.is_Exception e)
           end;
      intros [= <-]; eauto 10.
  - destruct (Exn.is_Exception e); [intros [= <-]; by left|done].
Qed.

(** The document depends on the record only through the three fields it
    reads: an [_id] or a time field of the record plays no part. *)
Lemma formatted_data_reads_three_fields (d1 d2 : list (string * json)) :
  Py.dict_get "temperature" d1 = Py.dict_get "temperature" d2 ->
  Py.dict_get "pulse_rate" d1 = Py.dict_get "pulse_rate" d2 ->
  Py.dict_get "alcohol_percentage" d1 = Py.dict_get "alcohol_percentage" d2 ->
  Mongo.formatted_data d1 = Mongo.formatted_data d2.
Proof.
  intros Ht Hp Ha. unfold Mongo.formatted_data, Mongo.get_or_zero.
  by rewrite Ht, Hp, Ha.
Qed.

(** ** The snapshot differ *)

Lemma monitor_loop_cons (loads : string -> option json) (f : file_read)
    (rest : list file_read) (r : data_reader) :
  monitor_loop loads (f :: rest) r
  = match monitor_cycle loads f r with
    | Ok r' => monitor_loop loads rest r'
    | Err e => Err e
    end.
Proof. reflexivity. Qed.

(** C5, as stated, fails: [DataReader] starts from the empty dict, not from
    [None], so a first observation of the empty document is not reported
    as changed and reaches no callback. *)
Lemma first_observation_not_always_changed :
  ~ (forall text d,
       Json.loads text = Some (JObj d) ->
       exists r',
         monitor_cycle Json.loads (FileText text) data_reader_init = Ok r'
         /\ fanned_out r' = [JObj d]).
Proof.
  intros H. destruct (H "{}"%string [] eq_refl) as (r' & Hc & Hf).
  vm_compute in Hc. injection Hc as <-. discriminate Hf.
Qed.

(** The file readers compare whole documents: a document that differs from
    the last one only in the text of a time field is reported as
    changed. *)
Example file_documents_compared_whole :
  let first := (Str.quoted "{'health': {'bpm': 72}, 'timestamp': '10:00:00'}") in
  let second := (Str.quoted "{'health': {'bpm': 72}, 'timestamp': '10:00:01'}") in
  exists r1 r2 d1 d2,
    monitor_loop Json.loads [FileText first] data_reader_init = Ok r1
    /\ monitor_loop Json.loads [FileText first; FileText second] data_reader_init = Ok r2
    /\ fanned_out r1 = [d1] /\ fanned_out r2 = [d1; d2].
Proof. vm_compute. eauto 10. Qed.

(** C5, amended.  A document without NaN, compared with itself, is
    unchanged: each of the three readers that holds it as its last
    document and obtains it again keeps its state and notifies nobody.
    The store reader and the screen start from [None], so the first
    document they obtain is always reported (by the screen, provided the
    values it prints first can be looked up); [DataReader] starts from the
    empty dict, so its first document is reported exactly when it is not
    empty.  [DataReader] accepts and fans out a document exactly when it
    differs, as a whole, from the last one; the store reader's document is
    built from three fields of the record only. *)
Theorem snapshot_diff
    (loads : string -> option json) (D : json) (text : string)
    (r : data_reader) (m : main_screen) (q : store_read) (mr : mongo_reader)
    (first : list (string * json)) :
  Py.keys_ok D = true ->
  Py.nan_free D = true ->
  Py.neb D D = false
  /\ (loads text = Some D -> last_data r = D ->
      monitor_cycle loads (FileText text) r = Ok r)
  /\ (_get_latest_mqtt_data loads (FileText text) = Some D ->
      last_mqtt_data m = D ->
      refresh_mqtt_data loads (FileText text) m = m)
  /\ (Mongo.get_latest_data q = Ok D -> mongo_last_data mr = D ->
      Mongo.monitor_cycle q mr = Ok mr)
  /\ (Mongo.get_latest_data q = Ok (JObj first) ->
      Mongo.monitor_cycle q Mongo.init
      = Ok {| mongo_last_data := JObj first;
              mongo_fanned_out := [JObj first] |})
  /\ (_get_latest_mqtt_data loads (FileText text) = Some (JObj first) ->
      refresh_mqtt_data loads (FileText text) main_screen_init
      = if printable (JObj first)
        then {| last_mqtt_data := JObj first; updates := [JObj first] |}
        else main_screen_init)
  /\ (loads text = Some (JObj first) ->
      monitor_cycle loads (FileText text) data_reader_init
      = Ok (if Nat.eqb (length first) 0 then data_reader_init
            else {| last_data := JObj first; fanned_out := [JObj first] |}))
  /\ (loads text = Some (JObj first) ->
      monitor_cycle loads (FileText text) r
      = Ok (if Py.neb (JObj first) (last_data r)
            then {| last_data := JObj first;
                    fanned_out := fanned_out r ++ [JObj first] |}
            else r))
  /\ (forall d1 d2,
        d1 <> [] -> d2 <> [] ->
        Py.dict_get "temperature" d1 = Py.dict_get "temperature" d2 ->
        Py.dict_get "pulse_rate" d1 = Py.dict_get "pulse_rate" d2 ->
        Py.dict_get "alcohol_percentage" d1
        = Py.dict_get "alcohol_percentage" d2 ->
        Mongo.get_latest_data (Latest (Some (JObj d1)))
        = Mongo.get_latest_data (Latest (Some (JObj d2)))).
Proof.
  intros Hk Hn. pose proof (neb_refl D Hk Hn) as Hrefl.
  split; [done|].
  split; [|split; [|split; [|split; [|split; [|split; [|split]]]]]].
  - intros Hl Hd. unfold monitor_cycle, get_sensor_data. rewrite Hl. simpl.
    by rewrite Hd, Hrefl.
  - unfold _get_latest_mqtt_data, refresh_mqtt_data.
    destruct (String.eqb _ _); [done|].
    intros -> ->. rewrite Hrefl. by destruct (printable D).
  - intros Hq Hd. unfold Mongo.monitor_cycle. rewrite Hq, Hd, Hrefl.
    by rewrite andb_false_r.
  - intros Hq. unfold Mongo.monitor_cycle. rewrite Hq.
    destruct (get_latest_data_shape _ _ Hq) as [?|(t & h & a & Hd)]; [done|].
    by rewrite Hd.
  - unfold _get_latest_mqtt_data, refresh_mqtt_data.
    destruct (String.eqb _ _); [done|]. intros ->.
    by destruct (printable (JObj first)).
  - intros Hl. unfold monitor_cycle, get_sensor_data. rewrite Hl.
    unfold data_changed, data_reader_init. simpl last_data.
    rewrite dict_neb_empty. by destruct (Nat.eqb (length first) 0).
  - intros Hl. unfold monitor_cycle, get_sensor_data. rewrite Hl.
    unfold data_changed. by destruct (Py.neb (JObj first) (last_data r)).
  - intros d1 d2 H1 H2 Ht Hp Ha. unfold Mongo.get_latest_data.
    rewrite (formatted_data_reads_three_fields d1 d2 Ht Hp Ha).
    by destruct d1, d2.
Qed.

Lemma snapshot_diff_witness :
  let text := (Str.quoted "{'health': {'bpm': 72}, 'tempgun': {'temp_object': 36.5}}") in
  exists D,
    Json.loads text = Some D
    /\ monitor_loop Json.loads [FileText text; FileText text] data_reader_init
       = Ok {| last_data := D; fanned_out := [D] |}.
Proof.
  intros text.
  pose (D := JObj [("health", JObj [("bpm", JNum (Fin 72))]);
                   ("tempgun", JObj [("temp_object", JNum (Fin (73 # 2)))])]%string).
  assert (HD : Json.loads text = Some D) by (vm_compute; reflexivity).
  exists D. split; [exact HD|].
  pose proof (snapshot_diff Json.loads D text
                {| last_data := D; fanned_out := [D] |}
                main_screen_init NoCollection Mongo.init
                [("health", JObj [("bpm", JNum (Fin 72))]);
                 ("tempgun", JObj [("temp_object", JNum (Fin (73 # 2)))])]%string
                eq_refl eq_refl) as (_ & Hsame & _ & _ & _ & _ & Hfirst & _).
  specialize (Hfirst HD). specialize (Hsame HD eq_refl).
  rewrite monitor_loop_cons, Hfirst. cbn [length Nat.eqb]. fold D.
  rewrite monitor_loop_cons, Hsame. reflexivity.
Defined.

(** ** The brace-counting scan *)

Section ScanFacts.

Variable loads : string -> option json.

(** A non-blank line that leaves the count away from zero only grows the
    pending text. *)
Lemma scan_line_pending (st : scan) (raw : string) :
  count_braces (list_ascii_of_string (Str.strip raw)) (brace_count st) <> 0%Z ->
  json_lines (scan_line loads st raw) = json_lines st.
Proof.
  intros H. unfold scan_line.
  destruct (String.eqb (Str.strip raw) EmptyString); [done|].
  destruct (Z.eqb_spec
              (count_braces (list_ascii_of_string (Str.strip raw)) (brace_count st))
              0) as [E|_]; [done|].
  reflexivity.
Qed.

(** A non-blank line that brings the count to zero closes a record: it
    is kept when it parses and thrown away when it does not; either way
    the scan starts afresh. *)
Lemma scan_line_closes (st : scan) (raw : string) :
  Str.strip raw <> EmptyString ->
  count_braces (list_ascii_of_string (Str.strip raw)) (brace_count st) = 0%Z ->
  scan_line loads st raw
  = let cur := (current_json st ++ Str.strip raw)%string in
    {| json_lines := match loads cur with
                     | Some _ => json_lines st ++ [cur]
                     | None => json_lines st
                     end;
       current_json := EmptyString;
       brace_count := 0 |}.
Proof.
  intros Hne Hz. unfold scan_line.
  destruct (String.eqb_spec (Str.strip raw) EmptyString) as [E|_]; [done|].
  rewrite Hz. simpl.
  assert (Hcur : String.eqb (current_json st ++ Str.strip raw) EmptyString = false).
  { destruct (current_json st); simpl; [|done].
    by apply String.eqb_neq. }
  rewrite Hcur. simpl. by destruct (loads _).
Qed.

(** The scenario of the design document: a first record on one line,
    complete and well formed, followed by a line whose braces do not
    balance.  The reader returns the first record. *)
Lemma latest_survives_trailing_fragment (l1 l2 : string) (d : json) :
  Str.strip l1 <> EmptyString ->
  count_braces (list_ascii_of_string (Str.strip l1)) 0 = 0%Z ->
  loads (Str.strip l1) = Some d ->
  count_braces (list_ascii_of_string (Str.strip l2)) 0 <> 0%Z ->
  latest_of loads (scan_lines loads [l1; l2]) = Some d.
Proof.
  intros Hne Hz Hl Hfrag. unfold scan_lines. simpl fold_left.
  assert (Hfirst : scan_line loads scan_start l1
                   = {| json_lines := [Str.strip l1];
                        current_json := EmptyString;
                        brace_count := 0 |}).
  { rewrite (scan_line_closes scan_start l1 Hne Hz). cbv zeta.
    change (current_json scan_start ++ Str.strip l1)%string with (Str.strip l1).
    by rewrite Hl. }
  rewrite Hfirst. unfold latest_of.
  rewrite scan_line_pending by done. simpl. exact Hl.
Qed.

End ScanFacts.

(** C6 at the failing input: three records, one per line, the second with
    an unclosed brace.  The third record is complete and well formed, yet
    the reader returns the first: after the unclosed brace the count never
    comes back to zero, and every later record is lost.  The same holds
    for the copy of the scan in [refresh_mqtt_data]. *)
Theorem stale_record_after_unbalanced_fragment :
  let text := Str.join_lines [(Str.quoted "{'a': 1}"); (Str.quoted "{'b': 2"); (Str.quoted "{'c': 3}")]%string in
  Json.loads (Str.quoted "{'c': 3}") = Some (JObj [("c"%string, JNum (Fin 3))])
  /\ _get_latest_mqtt_data Json.loads (FileText text)
     = Some (JObj [("a"%string, JNum (Fin 1))])
  /\ refresh_mqtt_data Json.loads (FileText text) main_screen_init
     = {| last_mqtt_data := JObj [("a"%string, JNum (Fin 1))];
          updates := [JObj [("a"%string, JNum (Fin 1))]] |}.
Proof. vm_compute. repeat split; reflexivity. Qed.

(** A brace inside a string is counted too: a file holding one complete,
    well-formed record is then answered with no record at all. *)
Example brace_inside_string_hides_record :
  Json.loads (Str.quoted "{'note': '}'}") = Some (JObj [("note"%string, JStr "}")])
  /\ _get_latest_mqtt_data Json.loads (FileText (Str.quoted "{'note': '}'}")) = None.
Proof. vm_compute. split; reflexivity. Qed.

(** The scenario that does hold, run on a concrete file. *)
Example two_records_second_unbalanced :
  _get_latest_mqtt_data Json.loads
    (FileText (Str.join_lines [(Str.quoted "{'a': 1}"); (Str.quoted "{'b': {'c': 2}")]%string))
  = Some (JObj [("a"%string, JNum (Fin 1))]).
Proof. vm_compute. reflexivity. Qed.

(** ** The display path against the alerting path *)

Section OpenGates.

Variables (now : Q) (alerts : gmap string Q).



End OpenGates.





(** ** Absent data *)


Section AbsentData.

Variable loads : string -> option json.
Variable float_of_str : string -> option num.


End AbsentData.



(** A field that [float] accepts is found whatever its key, and a numeric
    zero is stored as a reading like any other number. *)
Example numeric_field_is_found :
  let sv := {| last_audio_alerts := last_audio_alerts_init;
               dispatcher := Pool.issued [];
               sensor_data := ∅ |} in
  sensor_data (fst (on_message_temp Json.loads Str.float_of_str 1000 "10:00:00"
                      (Str.quoted "{'unit': 'C', 'reading': '36.5'}") sv)) !! "temp"%string
  = Some (JObj [("value", JNum (Fin (73 # 2))); ("timestamp", JStr "10:00:00")]%string).
Proof. vm_compute. reflexivity. Qed.

(** ** Read failures *)

(** C9, as stated, fails: when the file is not there, [get_sensor_data]
    answers with its default structure, which replaces the last accepted
    document and is handed to the callbacks. *)
Lemma missing_file_replaces_last_document :
  let r := {| last_data := JObj [("health"%string, JObj [("bpm"%string, JNum (Fin 72))])];
              fanned_out := [] |} in
  monitor_cycle Json.loads FileMissing r
  = Ok {| last_data := default_data; fanned_out := [default_data] |}.
Proof. vm_compute. reflexivity. Qed.

(** C9, amended.  In a turn whose read fails, because the text does not
    parse or because opening or reading the file raises an [Exception],
    [DataReader] keeps its last accepted document, calls no callback, and
    the loop goes on to the next read.  No turn ends the loop unless what
    is raised lies outside [Exception].  When the file does not exist, the
    turn yields the default structure, which is accepted and fanned out
    like any document that differs from the last one. *)
Theorem read_failure_retains_document
    (loads : string -> option json) (f : file_read) (rest : list file_read)
    (r : data_reader) :
  read_fails loads f = true ->
  monitor_cycle loads f r = Ok r
  /\ monitor_loop loads (f :: rest) r = monitor_loop loads rest r
  /\ (forall g,
        (forall e, g = FileError e -> Exn.is_Exception e = true) ->
        exists r', monitor_cycle loads g r = Ok r')
  /\ monitor_cycle loads FileMissing r
     = Ok (if Py.neb default_data (last_data r)
           then {| last_data := default_data;
                   fanned_out := fanned_out r ++ [default_data] |}
           else r).
Proof.
  intros Hf.
  assert (Hc : monitor_cycle loads f r = Ok r).
  { unfold monitor_cycle, get_sensor_data. destruct f as [|text|e]; simpl in Hf.
    - done.
    - by destruct (loads text).
    - destruct (Exn.is_Decode_or_NotFound e); simpl; [done|]. by rewrite Hf. }
  split; [exact Hc|]. split; [by rewrite monitor_loop_cons, Hc|]. split.
  - intros g Hg. unfold monitor_cycle.
    destruct (get_sensor_data loads g) as [cur|e] eqn:Hget.
    + destruct (data_changed cur (last_data r)); [|eauto].
      destruct (py_copy _) as [c|e] eqn:Hcopy; [eauto|].
      assert (e = AttributeError) as ->.
      { unfold py_copy in Hcopy. by destruct cur as [[]|]; simplify_eq;
          try (destruct (last_data r); simplify_eq). }
      simpl. eauto.
    + destruct g as [|text|e']; simpl in Hget; [done| |].
      * by destruct (loads text).
      * destruct (Exn.is_Decode_or_NotFound e'); [done|].
        injection Hget as ->. rewrite (Hg e eq_refl). eauto.
  - unfold monitor_cycle. simpl. by destruct (Py.neb _ _).
Qed.

Lemma read_failure_retains_document_witness :
  let r := {| last_data := JObj [("health"%string, JObj [("bpm"%string, JNum (Fin 72))])];
              fanned_out := [] |} in
  monitor_cycle Json.loads (FileText (Str.quoted "{'health': {'bpm': 7")) r = Ok r
  /\ monitor_loop Json.loads
       [FileText (Str.quoted "{'health': {'bpm': 7"); FileError OSError;
        FileText (Str.quoted "{'health': {'bpm': 75}}")] r
     = Ok {| last_data := JObj [("health"%string, JObj [("bpm"%string, JNum (Fin 75))])];
             fanned_out := [JObj [("health"%string, JObj [("bpm"%string, JNum (Fin 75))])]] |}.
Proof.
  intros r.
  pose proof (read_failure_retains_document Json.loads
                (FileText (Str.quoted "{'health': {'bpm': 7"))
                [FileError OSError; FileText (Str.quoted "{'health': {'bpm': 75}}")] r
                eq_refl) as (H1 & H2 & _).
  pose proof (read_failure_retains_document Json.loads
                (FileError OSError)
                [FileText (Str.quoted "{'health': {'bpm': 75}}")] r
                eq_refl) as (_ & H3 & _).
  split; [exact H1|]. rewrite H2, H3. vm_compute. reflexivity.
Defined.

(** * Further properties *)

(** ** Evaluation: slots, frame and order of stamps *)


(** What an evaluation leaves alone: the readings, the lock and the console,
    the workers already there, and every slot but the one it stamps. *)
Lemma check_and_play_frame (now : Q) (sensor_type : string)
    (value : option num) (sv : server) :
  let sv' := check_and_play_audio_alerts now sensor_type value sv in
  sensor_data sv' = sensor_data sv
  /\ audio (dispatcher sv') = audio (dispatcher sv)
  /\ match check_alerts now sensor_type value (last_audio_alerts sv) with
     | (_, Some (k, a)) =>
         last_audio_alerts sv' = <[k := now]> (last_audio_alerts sv)
         /\ AUDIO_COOLDOWN <= now - last_fired (last_audio_alerts sv) k
         /\ workers (dispatcher sv') = workers (dispatcher sv) ++ [Ready a]
     | (_, None) =>
         last_audio_alerts sv' = last_audio_alerts sv
         /\ workers (dispatcher sv') = workers (dispatcher sv)
     end.
Proof.
  intros sv'. subst sv'. unfold check_and_play_audio_alerts.
  pose proof (check_alerts_stamp now sensor_type value (last_audio_alerts sv)) as H.
  destruct (check_alerts now sensor_type value (last_audio_alerts sv))
    as [alerts' [[k a]|]]; simpl.
  - destruct H as [-> Hopen]. done.
  - by subst alerts'.
Qed.

(** X1.  Stamps only move forward.  One evaluation either leaves a slot as
    it was or stamps it with the time of the call, which is then at least
    one window after the previous stamp; so over any run of evaluations,
    whatever the times of the calls, no slot ever goes back. *)
Theorem stamps_never_go_back
    (calls : list (Q * string * option num)) (sv : server) (k : string) :
  last_fired (last_audio_alerts sv) k
  <= last_fired (last_audio_alerts (evaluate_all calls sv)) k
  /\ (forall now sensor_type value,
        let after := last_audio_alerts
                       (check_and_play_audio_alerts now sensor_type value sv) in
        last_fired after k = last_fired (last_audio_alerts sv) k
        \/ (last_fired after k = now
            /\ last_fired (last_audio_alerts sv) k + AUDIO_COOLDOWN <= now)).
Proof.
  assert (Hstep : forall now sensor_type value sv0,
            let after := last_audio_alerts
                           (check_and_play_audio_alerts now sensor_type value sv0) in
            last_fired after k = last_fired (last_audio_alerts sv0) k
            \/ (last_fired after k = now
                /\ last_fired (last_audio_alerts sv0) k + AUDIO_COOLDOWN <= now)).
  { intros now sensor_type value sv0 after. subst after.
    pose proof (check_and_play_frame now sensor_type value sv0) as (_ & _ & H).
    cbv zeta in H.
    destruct (check_alerts now sensor_type value (last_audio_alerts sv0))
      as [alerts' [[k' a]|]].
    - destruct H as (-> & Hopen & _).
      destruct (decide (k' = k)) as [->|Hne].
      + right. rewrite last_fired_stamped. split; [done|]. lra.
      + left. by apply last_fired_other.
    - destruct H as [-> _]. by left. }
  split; [|intros now sensor_type value; apply Hstep].
  revert sv. induction calls as [|[[now sensor_type] value] calls IH]; intros sv.
  - simpl. lra.
  - simpl. eapply Qle_trans; [|apply IH].
    destruct (Hstep now sensor_type value sv) as [->|[-> H]].
    + lra.
    + unfold AUDIO_COOLDOWN in H. lra.
Qed.

(** X2.  With their gates open, the other sensors are evaluated as follows.
    Temperature: the high alert exactly when [v >= 37.5], the low alert
    exactly when [v <= 35.0], nothing in between.  Alcohol: the alert
    exactly when [v >= 0.1].  Motion: the alert exactly when
    [abs(v) >= 5.0], that is when [v >= 5] or [v <= -5].  A NaN fires
    nothing, and so does every sensor type other than the four that
    [check_and_play_audio_alerts] knows. *)
Theorem sensor_thresholds (now : Q) (alerts : gmap string Q) (v : num) :
  AUDIO_COOLDOWN <= now - last_fired alerts "high_temp" ->
  AUDIO_COOLDOWN <= now - last_fired alerts "low_temp" ->
  AUDIO_COOLDOWN <= now - last_fired alerts "alcohol" ->
  AUDIO_COOLDOWN <= now - last_fired alerts "motion" ->
  let fired sensor_type := snd (check_alerts now sensor_type (Some v) alerts) in
  (fired "temp"%string = Some ("high_temp"%string, play_health_alert "high_temp")
     <-> Num.geb v (Fin (75 # 2)) = true)
  /\ (fired "temp"%string = Some ("low_temp"%string, play_health_alert "temp_measure")
      <-> Num.leb v (Fin 35) = true)
  /\ (fired "temp"%string = None
      <-> Num.geb v (Fin (75 # 2)) = false /\ Num.leb v (Fin 35) = false)
  /\ (fired "alcohol"%string
        = Some ("alcohol"%string, play_health_alert "alcohol_detected")
      <-> Num.geb v Thresholds.alcohol_detected = true)
  /\ (fired "motion"%string = Some ("motion"%string, play_motion_alert)
      <-> Num.geb v (Fin 5) = true \/ Num.leb v (Fin (-5)) = true)
  /\ (Num.is_nan v = true ->
      fired "temp"%string = None /\ fired "alcohol"%string = None
      /\ fired "motion"%string = None /\ fired "bpm"%string = None)
  /\ (forall other,
        other <> "temp"%string -> other <> "bpm"%string ->
        other <> "alcohol"%string -> other <> "motion"%string ->
        check_alerts now other (Some v) alerts = (alerts, None)).
Proof.
  intros Hht Hlt Ha Hm fired. subst fired. cbv beta.
  apply leb_le in Hht, Hlt, Ha, Hm.
  split; [|split; [|split; [|split; [|split; [|split]]]]].
  1-3: unfold check_alerts; cbn [String.eqb Ascii.eqb Bool.eqb];
    unfold Thresholds.temp_high, Thresholds.temp_low;
    rewrite gate_spec, Hht;
    destruct (Num.geb v (Fin (75 # 2))) eqn:Eh; cbn [andb snd];
    [|rewrite gate_spec, Hlt;
      destruct (Num.leb v (Fin 35)) eqn:El; cbn [andb snd]];
    try (revert Eh; try revert El; num_decide v).
  - unfold check_alerts. cbn [String.eqb Ascii.eqb Bool.eqb].
    rewrite gate_spec, Ha.
    destruct (Num.geb v Thresholds.alcohol_detected); cbn [andb snd]; intuition congruence.
  - unfold check_alerts. cbn [String.eqb Ascii.eqb Bool.eqb].
    unfold Thresholds.motion_threshold. rewrite gate_spec, Hm.
    destruct (Num.geb (Num.abs v) (Fin 5)) eqn:E; cbn [andb snd];
      revert E; destruct v as [q| | |];
      cbn [Num.geb Num.leb Num.abs]; intros E; try (intuition congruence).
    + apply leb_le in E. split; [intros _|done].
      destruct (Qle_bool 5 q) eqn:E5; [by left|]. right.
      apply leb_gt in E5. apply leb_le.
      revert E. apply Qabs_case; intros; lra.
    + apply leb_gt in E. split; [done|]. intros [H|H]; apply leb_le in H.
      * exfalso. revert E. apply Qabs_case; intros; lra.
      * exfalso. revert E. apply Qabs_case; intros; lra.
  - intros Hn. destruct v; try discriminate Hn. done.
  - intros other H1 H2 H3 H4. unfold check_alerts.
    repeat match goal with
           | |- context [String.eqb other ?s] =>
               destruct (String.eqb_spec other s) as [->|_]; [done|]
           end.
    reflexivity.
Qed.

Lemma sensor_thresholds_witness :
  let fired sensor_type v :=
    fst <$> snd (check_alerts 1000 sensor_type (Some v) last_audio_alerts_init) in
  fired "temp"%string (Fin (75 # 2)) = Some "high_temp"%string
  /\ fired "temp"%string (Fin 35) = Some "low_temp"%string
  /\ fired "temp"%string (Fin 36) = None
  /\ fired "motion"%string (Fin (-6)) = Some "motion"%string.
Proof.
  intros fired.
  pose proof (fun v => sensor_thresholds 1000 last_audio_alerts_init v
                (init_gates_open _) (init_gates_open _)
                (init_gates_open _) (init_gates_open _)) as T.
  cbv zeta in T. subst fired. cbv beta.
  pose proof (T (Fin (75 # 2))) as (H1 & _).
  pose proof (T (Fin 35)) as (_ & H2 & _).
  pose proof (T (Fin 36)) as (_ & _ & H3 & _).
  pose proof (T (Fin (-6))) as (_ & _ & _ & _ & H4 & _).
  rewrite (proj2 H1 eq_refl), (proj2 H2 eq_refl), (proj2 H3 (conj eq_refl eq_refl)),
    (proj2 H4 (or_intror eq_refl)).
  done.
Defined.

(** ** Messages *)

Section MessageFacts.

Variable loads : string -> option json.
Variable float_of_str : string -> option num.

(** The loop over the fields, by the place of the first field it stops
    at. *)
Lemma first_numeric_app (pre post : list (string * json)) :
  forallb (fun kv => match py_float float_of_str (snd kv) with
                     | Err e => Exn.is_Value_or_Type e
                     | Ok _ => false
                     end) pre = true ->
  first_numeric float_of_str (pre ++ post) = first_numeric float_of_str post.
Proof.
  induction pre as [|[k v] pre IH]; simpl; [done|].
  intros H. apply andb_prop in H as [Hv H].
  destruct (py_float float_of_str v) as [x|e]; [done|].
  rewrite Hv. by apply IH.
Qed.



End MessageFacts.

(** X3.  Which field of an object payload becomes the temperature.  The
    key [temp] wins over everything else, and the key [temperature] over
    every other field; when the value under the winning key is not
    accepted by [float] the message is given up, with no fall back to
    another field.  With neither key, the fields are tried in order: those
    on which [float] raises [ValueError] or [TypeError] are skipped and the
    first accepted one is stored; an integer too large for a float stops
    the search, and nothing is stored even if a later field is fine. *)
Theorem temp_field_resolution
    (loads : string -> option json) (float_of_str : string -> option num)
    (now : Q) (timestamp payload : string) (sv : server)
    (temp_data : list (string * json)) :
  loads payload = Some (JObj temp_data) ->
  let result := on_message_temp loads float_of_str now timestamp payload sv in
  let stored (r : res num) :=
    match r with
    | Ok v => (accept_temp now timestamp v sv, None)
    | Err e => (sv, Some e)
    end in
  (forall v, Py.dict_get "temp" temp_data = Some v ->
             result = stored (py_float float_of_str v))
  /\ (forall v, Py.dict_get "temp" temp_data = None ->
                Py.dict_get "temperature" temp_data = Some v ->
                result = stored (py_float float_of_str v))
  /\ (forall pre k v post,
        Py.dict_get "temp" temp_data = None ->
        Py.dict_get "temperature" temp_data = None ->
        temp_data = pre ++ (k, v) :: post ->
        forallb (fun kv => match py_float float_of_str (snd kv) with
                           | Err e => Exn.is_Value_or_Type e
                           | Ok _ => false
                           end) pre = true ->
        match py_float float_of_str v with
        | Ok x => result = (accept_temp now timestamp x sv, None)
        | Err OverflowError => result = (sv, Some OverflowError)
        | Err _ => True
        end).
Proof.
  intros Hl result stored. subst result stored. cbv beta.
  unfold on_message_temp. rewrite Hl. unfold Py.dict_in.
  split; [|split].
  - intros v ->. reflexivity.
  - intros v -> ->. reflexivity.
  - intros pre k v post -> -> -> Hpre.
    rewrite (first_numeric_app float_of_str pre _ Hpre). simpl.
    destruct (py_float float_of_str v) as [x|[]]; done.
Qed.

Lemma temp_field_resolution_witness :
  let sv := {| last_audio_alerts := last_audio_alerts_init;
               dispatcher := Pool.issued [];
               sensor_data := ∅ |} in
  fst (on_message_temp Json.loads Str.float_of_str 1000 "10:00:00"
         (Str.quoted "{'temperature': 40, 'temp': 'n/a', 'reading': 36.5}") sv)
  = sv
  /\ sensor_data
       (fst (on_message_temp Json.loads Str.float_of_str 1000 "10:00:00"
               (Str.quoted "{'unit': 'C', 'probe': null, 'reading': '36.5', 'other': 40}")
               sv)) !! "temp"%string
     = Some (JObj [("value"%string, JNum (Fin (73 # 2)));
                   ("timestamp"%string, JStr "10:00:00")]).
Proof.
  intros sv. split.
  - pose proof (temp_field_resolution Json.loads Str.float_of_str 1000 "10:00:00"
                  (Str.quoted "{'temperature': 40, 'temp': 'n/a', 'reading': 36.5}") sv
                  _ eq_refl) as (H & _).
    cbv zeta in H. rewrite (H (JStr "n/a") eq_refl). reflexivity.
  - pose proof (temp_field_resolution Json.loads Str.float_of_str 1000 "10:00:00"
                  (Str.quoted "{'unit': 'C', 'probe': null, 'reading': '36.5', 'other': 40}") sv
                  _ eq_refl) as (_ & _ & H).
    cbv zeta in H.
    specialize (H [("unit"%string, JStr "C"); ("probe"%string, JNull)]
                  "reading"%string (JStr "36.5")
                  [("other"%string, JNum (Fin 40))]
                  eq_refl eq_refl eq_refl eq_refl).
    change (py_float Str.float_of_str (JStr "36.5")) with (@Ok num (Fin (73 # 2))) in H.
    rewrite H. reflexivity.
Defined.




(** X6.  The cues of [on_connect].  A refused connection always starts the
    error cue, whatever the cooldown state, which it leaves untouched.  An
    accepted connection starts the online cue only through the gate
    [mqtt_connected]: a second accepted connection less than a window
    after one that played starts nothing. *)
Theorem connect_cues (now later : Q) (rc : Z) (sv : server) :
  (rc <> 0%Z ->
   on_connect now rc sv
   = (false, {| last_audio_alerts := last_audio_alerts sv;
                dispatcher := Pool.spawn (play_system_status "error") (dispatcher sv);
                sensor_data := sensor_data sv |}))
  /\ (AUDIO_COOLDOWN <= now - last_fired (last_audio_alerts sv) "mqtt_connected" ->
      let '(up, sv1) := on_connect now 0 sv in
      up = true
      /\ workers (dispatcher sv1)
         = workers (dispatcher sv) ++ [Ready (play_system_status "online")]
      /\ (later - now < AUDIO_COOLDOWN ->
          on_connect later 0 sv1 = (true, sv1)))
  /\ (now - last_fired (last_audio_alerts sv) "mqtt_connected" < AUDIO_COOLDOWN ->
      on_connect now 0 sv = (true, sv)).
Proof.
  split; [|split].
  - intros Hrc. unfold on_connect.
    destruct (Z.eqb_spec rc 0) as [?|_]; [done|]. reflexivity.
  - intros Hopen. unfold on_connect. simpl.
    unfold should_play_audio_alert.
    rewrite (should_play_allowed _ _ _ _ Hopen). simpl.
    split; [done|]. split; [done|].
    intros Hlater.
    rewrite should_play_suppressed by (by rewrite last_fired_stamped).
    reflexivity.
  - intros Hclosed. unfold on_connect. simpl.
    unfold should_play_audio_alert.
    rewrite (should_play_suppressed _ _ _ _ Hclosed). by destruct sv.
Qed.

Lemma connect_cues_witness :
  let sv := {| last_audio_alerts := last_audio_alerts_init;
               dispatcher := Pool.issued [];
               sensor_data := ∅ |} in
  workers (dispatcher (snd (on_connect 1000 5 sv)))
  = [Ready (play_system_status "error")]
  /\ workers (dispatcher (snd (on_connect 1010 0 (snd (on_connect 1000 0 sv)))))
     = [Ready (play_system_status "online")].
Proof.
  intros sv.
  pose proof (connect_cues 1000 1010 5 sv) as (Hbad & _).
  pose proof (connect_cues 1000 1010 0 sv) as (_ & Hok & _).
  rewrite (Hbad ltac:(done)).
  specialize (Hok (init_gates_open _)).
  destruct (on_connect 1000 0 sv) as [up sv1].
  destruct Hok as (_ & Hw & Hagain).
  simpl. rewrite (Hagain ltac:(by vm_compute)). simpl. split; [reflexivity|exact Hw].
Defined.

(** ** The dispatcher over time *)

Section PoolMore.

Import Pool.

Lemma count_pos_lookup (f : worker -> bool) (ws : list worker) :
  (0 < count f ws)%nat -> exists i w, ws !! i = Some w /\ f w = true.
Proof.
  induction ws as [|x ws IH]; simpl; [lia|].
  destruct (f x) eqn:E.
  - intros _. by exists 0%nat, x.
  - intros H. destruct IH as (i & w & Hi & Hw); [lia|]. by exists (S i), w.
Qed.

Lemma lookup_count_pos (f : worker -> bool) (ws : list worker) (i : nat)
    (w : worker) :
  ws !! i = Some w -> f w = true -> (0 < count f ws)%nat.
Proof.
  revert i. induction ws as [|x ws IH]; intros [|i] H Hw; simpl in *;
    try discriminate.
  - injection H as ->. rewrite Hw. lia.
  - specialize (IH _ H Hw). lia.
Qed.

Lemma printed_times_app (l : log_line) (s : audio_state) (more : list log_line)
    (s' : audio_state) :
  printed s' = printed s ++ more ->
  printed_times l s' = (printed_times l s + length (filter (fun x => x = l) more))%nat.
Proof.
  intros H. unfold printed_times. by rewrite H, filter_app, length_app.
Qed.

(** The skip lines on the console count the dropped workers, step by
    step. *)
Lemma fire_skips (i : nat) (o : outcome) (p p' : pool) :
  fire i o p = Some p' -> consistent p ->
  (printed_times LogSkipped (audio p') + count dropped (workers p)
   = printed_times LogSkipped (audio p) + count dropped (workers p'))%nat.
Proof.
  intros Hf [Hh _].
  destruct (fire_cases _ _ _ _ Hf)
    as [(a & Hi & Hl & Hl' & Hw)|[(a & Hi & Hl & Hl' & Hp & Hw)|(a & r & Hi & _ & Hs & Hw)]].
  - pose proof (count_insert dropped _ _ _ (Holding a) Hi) as Hc.
    rewrite <- Hw in Hc. simpl in Hc.
    assert (Hpr : printed (audio p') = printed (audio p)).
    { unfold fire in Hf. rewrite Hi in Hf. unfold Task.acquire_nonblocking in Hf.
      rewrite Hl in Hf. by injection Hf as <-. }
    unfold printed_times. rewrite Hpr. lia.
  - pose proof (count_insert dropped _ _ _ Dropped Hi) as Hc.
    rewrite <- Hw in Hc. simpl in Hc.
    rewrite (printed_times_app _ _ _ _ Hp). simpl. lia.
  - assert (Hl : audio_lock (audio p) = true).
    { destruct (audio_lock (audio p)) eqn:E; [done|].
      pose proof (lookup_count_pos holding _ _ _ Hi eq_refl). lia. }
    destruct (guarded_spec o _ Hl) as (r' & s' & Hg & _ & _ & _ & Hpr).
    rewrite Hg in Hs. simpl in Hs. subst s'.
    pose proof (count_insert dropped _ _ _ (Finished r) Hi) as Hc.
    rewrite <- Hw in Hc. simpl in Hc.
    rewrite (printed_times_app _ _ _ _ Hpr).
    assert (Hz : length (filter (fun x => x = LogSkipped)
                   match o with
                   | Returns true => []
                   | Returns false => [LogPlaybackFailed]
                   | Raises e => if Exn.is_Exception e then [LogAudioError] else []
                   end) = 0%nat).
    { destruct o as [[|]|e]; [done|done|]. by destruct (Exn.is_Exception e). }
    rewrite Hz. lia.
Qed.

Lemma run_skips (sched : list (nat * outcome)) (p p' : pool) :
  run sched p = Some p' -> consistent p ->
  (printed_times LogSkipped (audio p') + count dropped (workers p)
   = printed_times LogSkipped (audio p) + count dropped (workers p'))%nat.
Proof.
  revert p. induction sched as [|[i o] sched IH]; simpl; intros p H Hc.
  - by injection H as <-.
  - destruct (fire i o p) as [q|] eqn:Hf; [|done].
    pose proof (fire_skips _ _ _ _ Hf Hc) as H1.
    pose proof (IH _ H (fire_consistent _ _ _ _ Hf Hc)) as H2. lia.
Qed.

Lemma run_app (s1 s2 : list (nat * outcome)) (p : pool) :
  run (s1 ++ s2) p = match run s1 p with Some q => run s2 q | None => None end.
Proof.
  revert p. induction s1 as [|[i o] s1 IH]; intros p; simpl; [done|].
  destruct (fire i o p); [apply IH|done].
Qed.

(** From any state that can arise, the workers that have not ended can be
    run to their end. *)
Lemma drain (n : nat) (p : pool) :
  consistent p ->
  (2 * count ready (workers p) + count holding (workers p) <= n)%nat ->
  exists sched p',
    run sched p = Some p'
    /\ count ready (workers p') = 0%nat
    /\ count holding (workers p') = 0%nat.
Proof.
  revert p. induction n as [|n IH]; intros p Hc Hn.
  - exists [], p. simpl. split; [done|]. lia.
  - destruct (Nat.eq_dec (count holding (workers p)) 0%nat) as [Hh0|Hh].
    + destruct (Nat.eq_dec (count ready (workers p)) 0%nat) as [Hr0|Hr].
      * exists [], p. done.
      * destruct (count_pos_lookup ready (workers p)) as (i & w & Hi & Hw); [lia|].
        destruct w as [a| | |]; try discriminate Hw.
        destruct (fire i (Returns true) p) as [q|] eqn:Hf.
        2:{ unfold fire in Hf. rewrite Hi in Hf.
            by destruct (Task.acquire_nonblocking (audio p)) as [[[|]|] ?]. }
        assert (Hm : (2 * count ready (workers q) + count holding (workers q) <= n)%nat).
        { destruct (fire_cases _ _ _ _ Hf)
            as [(a' & Hi' & _ & _ & Hw')|[(a' & Hi' & _ & _ & _ & Hw')|(a' & r & Hi' & _)]];
            [| |congruence].
          - pose proof (count_insert ready _ _ _ (Holding a') Hi') as C1.
            pose proof (count_insert holding _ _ _ (Holding a') Hi') as C2.
            rewrite <- Hw' in C1, C2. simpl in C1, C2. lia.
          - pose proof (count_insert ready _ _ _ Dropped Hi') as C1.
            pose proof (count_insert holding _ _ _ Dropped Hi') as C2.
            rewrite <- Hw' in C1, C2. simpl in C1, C2. lia. }
        destruct (IH q (fire_consistent _ _ _ _ Hf Hc) Hm) as (sched & p' & Hrun & Hz).
        exists ((i, Returns true) :: sched), p'. simpl. by rewrite Hf.
    + destruct (count_pos_lookup holding (workers p)) as (i & w & Hi & Hw); [lia|].
      destruct w as [|a| |]; try discriminate Hw.
      destruct (fire i (Returns true) p) as [q|] eqn:Hf.
      2:{ unfold fire in Hf. rewrite Hi in Hf.
          by destruct (Task.guarded (Returns true) (audio p)). }
      assert (Hm : (2 * count ready (workers q) + count holding (workers q) <= n)%nat).
      { destruct (fire_cases _ _ _ _ Hf)
          as [(a' & Hi' & _)|[(a' & Hi' & _)|(a' & r & Hi' & _ & _ & Hw')]];
          [congruence|congruence|].
        pose proof (count_insert ready _ _ _ (Finished r) Hi') as C1.
        pose proof (count_insert holding _ _ _ (Finished r) Hi') as C2.
        rewrite <- Hw' in C1, C2. simpl in C1, C2. lia. }
      destruct (IH q (fire_consistent _ _ _ _ Hf Hc) Hm) as (sched & p' & Hrun & Hz).
      exists ((i, Returns true) :: sched), p'. simpl. by rewrite Hf.
Qed.

End PoolMore.

(** X7.  In every state that an interleaving of dispatch calls can reach,
    the lock is held exactly when some worker is inside its action, so a
    lock held by nobody never occurs; once every worker has ended the lock
    is free; and the console carries exactly one skip line per dropped
    worker. *)
Theorem lock_always_has_an_owner
    (acts : list action) (sched : list (nat * outcome)) (p : pool) :
  Pool.run sched (Pool.issued acts) = Some p ->
  (audio_lock (audio p) = true
   <-> exists i a, workers p !! i = Some (Holding a))
  /\ (Pool.count Pool.ready (workers p) = 0%nat ->
      Pool.count Pool.holding (workers p) = 0%nat ->
      audio_lock (audio p) = false)
  /\ printed_times LogSkipped (audio p) = Pool.count Pool.dropped (workers p)
  /\ length (workers p) = length acts.
Proof.
  intros Hrun.
  pose proof (run_consistent _ _ _ Hrun (issued_consistent acts)) as Hc.
  pose proof Hc as [Hh _].
  split; [|split; [|split]].
  - split.
    + intros Hl. rewrite Hl in Hh.
      destruct (count_pos_lookup Pool.holding (workers p)) as (i & w & Hi & Hw);
        [lia|].
      destruct w as [|a| |]; try discriminate Hw. by exists i, a.
    + intros (i & a & Hi).
      pose proof (lookup_count_pos Pool.holding _ _ _ Hi eq_refl).
      destruct (audio_lock (audio p)); [done|lia].
  - intros _ H0. rewrite H0 in Hh. by destruct (audio_lock (audio p)).
  - pose proof (run_skips _ _ _ Hrun (issued_consistent acts)) as Hs.
    unfold Pool.issued in Hs. cbn [audio workers] in Hs.
    rewrite (count_map_Ready Pool.dropped false) in Hs by done.
    change (printed_times LogSkipped Pool.idle) with 0%nat in Hs. lia.
  - rewrite (run_length _ _ _ Hrun). unfold Pool.issued. simpl.
    apply length_map.
Qed.

Lemma lock_always_has_an_owner_witness :
  exists p,
    Pool.run [(1%nat, Returns true); (0%nat, Returns true);
              (1%nat, Raises PlayerError); (2%nat, Returns true)]
      (Pool.issued [play_health_alert "high_temp"; play_motion_alert;
                    play_health_alert "high_bpm"]) = Some p
    /\ workers p = [Dropped; Finished (Ok tt); Holding (play_health_alert "high_bpm")]
    /\ audio_lock (audio p) = true
    /\ printed_times LogSkipped (audio p) = 1%nat.
Proof.
  eexists. split; [reflexivity|]. split; [reflexivity|].
  pose proof (lock_always_has_an_owner
                [play_health_alert "high_temp"; play_motion_alert;
                 play_health_alert "high_bpm"]
                [(1%nat, Returns true); (0%nat, Returns true);
                 (1%nat, Raises PlayerError); (2%nat, Returns true)]
                _ eq_refl) as (Hown & _ & Hskip & _).
  split; [|exact Hskip].
  apply Hown. by exists 2%nat, (play_health_alert "high_bpm").
Defined.

(** X8.  The dispatcher cannot wedge.  From every state that an
    interleaving of dispatch calls can reach, the threads can be scheduled
    on so that every worker ends, dropped or finished, and the lock is
    free; a call dispatched after that takes the lock. *)
Theorem dispatcher_never_wedges
    (acts : list action) (sched : list (nat * outcome)) (p : pool)
    (next : action) :
  Pool.run sched (Pool.issued acts) = Some p ->
  exists more p',
    Pool.run (sched ++ more) (Pool.issued acts) = Some p'
    /\ Pool.count Pool.ready (workers p') = 0%nat
    /\ Pool.count Pool.holding (workers p') = 0%nat
    /\ (Pool.count Pool.dropped (workers p')
        + Pool.count Pool.finished (workers p') = length acts)%nat
    /\ audio_lock (audio p') = false
    /\ forall o, exists q,
         Pool.fire (length acts) o (Pool.spawn next p') = Some q
         /\ workers q = workers p' ++ [Holding next]
         /\ audio_lock (audio q) = true.
Proof.
  intros Hrun.
  pose proof (run_consistent _ _ _ Hrun (issued_consistent acts)) as Hc.
  destruct (drain _ p Hc (Nat.le_refl _)) as (more & p' & Hmore & Hr & Hh).
  assert (Hrun' : Pool.run (sched ++ more) (Pool.issued acts) = Some p').
  { by rewrite run_app, Hrun. }
  pose proof (run_consistent _ _ _ Hrun' (issued_consistent acts)) as [Hh' _].
  pose proof (run_length _ _ _ Hrun') as Hlen.
  unfold Pool.issued in Hlen. simpl in Hlen. rewrite length_map in Hlen.
  pose proof (count_total (workers p')) as Htot.
  assert (Hfree : audio_lock (audio p') = false).
  { rewrite Hh in Hh'. by destruct (audio_lock (audio p')). }
  exists more, p'. repeat split; try done; try lia.
  intros o. unfold Pool.fire, Pool.spawn. simpl.
  rewrite lookup_app_r by lia. rewrite <- Hlen, Nat.sub_diag. simpl.
  unfold Task.acquire_nonblocking. rewrite Hfree.
  eexists. split; [reflexivity|]. simpl. split; [|done].
  rewrite insert_app_r_alt by lia. by rewrite Nat.sub_diag.
Qed.

Lemma dispatcher_never_wedges_witness :
  exists more p',
    Pool.run ([(0%nat, Returns true); (1%nat, Returns true)] ++ more)
      (Pool.issued [play_motion_alert; play_health_alert "high_bpm"]) = Some p'
    /\ audio_lock (audio p') = false
    /\ Pool.count Pool.holding (workers p') = 0%nat.
Proof.
  destruct (dispatcher_never_wedges
              [play_motion_alert; play_health_alert "high_bpm"]
              [(0%nat, Returns true); (1%nat, Returns true)]
              _ play_motion_alert eq_refl)
    as (more & p' & Hrun & _ & Hh & _ & Hl & _).
  exists more, p'. done.
Defined.

(** ** Observers *)

(** X9.  One observer's failure does not keep the others from being
    called.  As long as no callback raises outside [Exception], the loop
    calls every registered callback once per registration, in registration
    order and each with the same data, whichever of them raise; and it
    never lets an exception out.  A callback that raises outside
    [Exception] is the last one called. *)
Theorem fan_out_reaches_every_observer
    (A : Type) (react : nat -> A -> option exn) (callbacks : list nat) (data : A) :
  (Forall (fun c => match react c data with
                    | Some e => Exn.is_Exception e = true
                    | None => True
                    end) callbacks ->
   Observers.fan_out react callbacks data
   = (map (fun c => (c, data)) callbacks, None))
  /\ (forall before c after e,
        callbacks = before ++ c :: after ->
        Forall (fun c => match react c data with
                         | Some e => Exn.is_Exception e = true
                         | None => True
                         end) before ->
        react c data = Some e -> Exn.is_Exception e = false ->
        Observers.fan_out react callbacks data
        = (map (fun c => (c, data)) (before ++ [c]), Some e)).
Proof.
  split.
  - induction callbacks as [|c rest IH]; simpl; [done|].
    intros H. apply Forall_cons in H as [Hc H]. rewrite (IH H).
    destruct (react c data) as [e|]; [|done]. by rewrite Hc.
  - intros before c after e -> Hb Hc He.
    induction before as [|b before IH]; simpl.
    + by rewrite Hc, He.
    + apply Forall_cons in Hb as [Hb1 Hb]. rewrite (IH Hb).
      destruct (react b data) as [e'|]; [|done]. by rewrite Hb1.
Qed.

Lemma fan_out_reaches_every_observer_witness :
  Observers.fan_out
    (fun c (_ : json) => if Nat.eqb c 1 then Some ValueError else None)
    [0; 1; 2; 1]%nat JNull
  = ([(0, JNull); (1, JNull); (2, JNull); (1, JNull)]%nat, None).
Proof.
  apply (fan_out_reaches_every_observer json
           (fun c (_ : json) => if Nat.eqb c 1 then Some ValueError else None)
           [0; 1; 2; 1]%nat JNull).
  repeat constructor.
Defined.

(** X10.  Registering and removing observers.  Removing a callback that is
    not registered changes nothing.  Registering a callback and removing
    it again gives back the list as it was when the callback was not in
    it; when it was, the earlier registration is the one removed, so the
    callback stays registered, now in last place.  Removing takes away
    exactly one registration. *)
Theorem callbacks_add_remove (c : nat) (callbacks : list nat) :
  (c ∉ callbacks -> Observers.remove_callback c callbacks = callbacks)
  /\ (c ∉ callbacks ->
      Observers.remove_callback c (Observers.add_callback c callbacks) = callbacks)
  /\ (c ∈ callbacks ->
      Observers.remove_callback c (Observers.add_callback c callbacks)
      = Observers.add_callback c (Observers.remove_callback c callbacks))
  /\ (c ∈ callbacks ->
      S (length (Observers.remove_callback c callbacks)) = length callbacks)
  /\ (forall other, other <> c ->
        other ∈ Observers.remove_callback c callbacks <-> other ∈ callbacks).
Proof.
  assert (Hin : forall l, existsb (Nat.eqb c) l = true <-> c ∈ l).
  { intros l. rewrite existsb_exists. split.
    - intros (x & Hx & He). apply Nat.eqb_eq in He. subst.
      by apply list_elem_of_In.
    - intros H. exists c. split; [by apply list_elem_of_In|apply Nat.eqb_refl]. }
  assert (Hnot : forall l, c ∉ l -> Observers.remove_first c l = l).
  { induction l as [|x l IH]; simpl; [done|]. intros H.
    apply not_elem_of_cons in H as [Hx H].
    destruct (Nat.eqb_spec x c) as [->|_]; [done|]. by rewrite IH. }
  assert (Happ : forall l, c ∈ l ->
            Observers.remove_first c (l ++ [c]) = Observers.remove_first c l ++ [c]).
  { induction l as [|x l IH]; simpl; [by intros H%elem_of_nil|].
    intros H. destruct (Nat.eqb_spec x c) as [->|Hne]; [done|].
    apply elem_of_cons in H as [->|H]; [done|]. by rewrite IH. }
  assert (Hlast : forall l, c ∉ l -> Observers.remove_first c (l ++ [c]) = l).
  { induction l as [|x l IH]; simpl; [by rewrite Nat.eqb_refl|]. intros H.
    apply not_elem_of_cons in H as [Hx H].
    destruct (Nat.eqb_spec x c) as [->|_]; [done|]. by rewrite IH. }
  unfold Observers.remove_callback, Observers.add_callback.
  split; [|split; [|split; [|split]]].
  - intros H. destruct (existsb (Nat.eqb c) callbacks) eqn:E; [|done].
    by apply Hin in E.
  - intros H.
    assert (E : existsb (Nat.eqb c) (callbacks ++ [c]) = true).
    { apply Hin. apply elem_of_app. right. by apply list_elem_of_singleton. }
    rewrite E. by apply Hlast.
  - intros H.
    assert (E : existsb (Nat.eqb c) (callbacks ++ [c]) = true).
    { apply Hin. apply elem_of_app. right. by apply list_elem_of_singleton. }
    rewrite E, (proj2 (Hin callbacks) H). by apply Happ.
  - intros H. rewrite (proj2 (Hin callbacks) H).
    induction callbacks as [|x l IH]; simpl; [by apply elem_of_nil in H|].
    destruct (Nat.eqb_spec x c) as [->|Hne]; [done|]. simpl.
    apply elem_of_cons in H as [->|H]; [done|]. by rewrite IH.
  - intros other Hne.
    destruct (existsb (Nat.eqb c) callbacks); [|done].
    induction callbacks as [|x l IH]; simpl; [done|].
    destruct (Nat.eqb_spec x c) as [->|Hxc].
    + rewrite elem_of_cons. split; [by right|]. by intros [?|?].
    + rewrite !elem_of_cons, IH. done.
Qed.

Lemma callbacks_add_remove_witness :
  Observers.remove_callback 7 (Observers.add_callback 7 [3; 5]%nat) = [3; 5]%nat
  /\ Observers.remove_callback 3 (Observers.add_callback 3 [3; 5]%nat) = [5; 3]%nat.
Proof.
  pose proof (callbacks_add_remove 7 [3; 5]%nat) as (_ & H1 & _).
  pose proof (callbacks_add_remove 3 [3; 5]%nat) as (_ & _ & H2 & _).
  split.
  - apply H1. rewrite !not_elem_of_cons. repeat split; try done.
    apply not_elem_of_nil.
  - rewrite H2 by constructor. reflexivity.
Defined.

(** ** [DataReader]'s own view of the heart rate *)

(** X11.  [DataReader.get_formatted_data] never calls a heart rate low.
    For a numeric heart rate [v] its entry carries [v] itself, with status
    Normal exactly when [v] is not zero and [v <= 100], High exactly when
    [v > 100], and Unknown exactly when [v] is zero or NaN; the colour
    follows the status.  So every rate strictly between 0 and 60, which the
    screen's own formatter calls Low, is Normal here.  An absent rate is
    shown as ["--"] with status Unknown. *)
Theorem data_reader_heart_rate (v : num) :
  (exists s c,
     Formatted.heart_rate_entry (JNum v)
     = Ok (JObj [("value", JNum v); ("status", JStr s); ("color", JStr c)]%string)
     /\ (s = "Normal"%string
         <-> Num.eqb v (Fin 0) = false /\ Num.leb v (Fin 100) = true)
     /\ (s = "High"%string <-> Num.gtb v (Fin 100) = true)
     /\ (s = "Unknown"%string
         <-> Num.eqb v (Fin 0) = true \/ Num.is_nan v = true)
     /\ s <> "Low"%string
     /\ (c = "#2E7D32"%string <-> s = "Normal"%string)
     /\ (c = "#C62828"%string <-> s = "High"%string)
     /\ (Num.gtb v (Fin 0) && Num.ltb v (Fin 60) = true ->
         s = "Normal"%string /\ fst (Display.hr_class v) = "Low"%string))
  /\ Formatted.heart_rate_entry JNull
     = Ok (JObj [("value", JStr "--"); ("status", JStr "Unknown");
                 ("color", JStr "#626973")]%string).
Proof.
  split; [|reflexivity].
  unfold Formatted.heart_rate_entry, Formatted.hr_choice, Formatted.le,
    Formatted.gt, Mongo.compare_with, Exn.and_then, Py.truthy, Display.hr_class.
  destruct v as [q| | |];
    cbn [Num.geb Num.gtb Num.leb Num.ltb Num.eqb Num.is_nan negb andb orb];
    repeat match goal with
           | |- context [Qle_bool ?a ?b] => destruct (Qle_bool a b) eqn:?
           | |- context [Qeq_bool ?a ?b] => destruct (Qeq_bool a b) eqn:?
           end;
    cbn [negb andb orb fst snd]; q_props; try (exfalso; lra);
    eexists _, _; (split; [reflexivity|]);
    intuition (try discriminate; try congruence; try lra).
Qed.

(** ** Readers over time *)

Lemma each_differs_snoc (prev d : json) (docs : list json) :
  each_differs prev (docs ++ [d])
  = each_differs prev docs && Py.neb d (default prev (last docs)).
Proof.
  revert prev. induction docs as [|x docs IH]; intros prev; simpl.
  - by rewrite andb_true_r.
  - rewrite IH, andb_assoc. do 2 f_equal.
    destruct docs as [|y docs]; [done|]. rewrite last_cons_cons.
    destruct (last (y :: docs)) eqn:E; [done|].
    by apply last_None in E.
Qed.

Lemma last_snoc_default (prev d : json) (docs : list json) :
  default prev (last (docs ++ [d])) = d.
Proof. by rewrite last_snoc. Qed.

(** X12.  No reader reports the same document twice in a row.  Over any
    sequence of polls, each document that [DataReader], [MongoDBReader] or
    the screen's file poll hands on differs (by [!=]) from the one handed
    on before it, the first one differing from the reader's initial value;
    and the reader's last document is always the last one it handed on. *)
Theorem readers_never_repeat
    (loads : string -> option json) (reads : list file_read)
    (queries : list store_read) (r : data_reader) (mr : mongo_reader) :
  monitor_loop loads reads data_reader_init = Ok r ->
  mongo_monitor_loop queries Mongo.init = Ok mr ->
  (each_differs (JObj []) (fanned_out r) = true
   /\ last_data r = default (JObj []) (last (fanned_out r)))
  /\ (each_differs JNull (mongo_fanned_out mr) = true
      /\ mongo_last_data mr = default JNull (last (mongo_fanned_out mr)))
  /\ (let m := refresh_loop loads reads main_screen_init in
      each_differs JNull (updates m) = true
      /\ last_mqtt_data m = default JNull (last (updates m))).
Proof.
  intros Hr Hm. split; [|split].
  - revert Hr.
    assert (H0 : each_differs (JObj []) (fanned_out data_reader_init) = true
                 /\ last_data data_reader_init
                    = default (JObj []) (last (fanned_out data_reader_init)))
      by done.
    revert H0. generalize data_reader_init as r0. revert r.
    induction reads as [|f reads IH]; intros r r0 [H1 H2]; simpl.
    + by intros [= <-].
    + destruct (monitor_cycle loads f r0) as [r1|e] eqn:Hc; [|done].
      apply IH. clear IH. unfold monitor_cycle in Hc.
      destruct (get_sensor_data loads f) as [cur|e].
      * destruct (data_changed cur (last_data r0)) eqn:Hch.
        -- destruct cur as [d|]; [|done]. simpl in Hch.
           destruct (py_copy d) as [c|e] eqn:Hcp.
           ++ injection Hc as <-. simpl.
              assert (c = d) as ->
                by (unfold py_copy in Hcp; destruct d; by simplify_eq).
              rewrite each_differs_snoc, H1, <- H2, Hch, last_snoc. done.
           ++ destruct (Exn.is_Exception e); by simplify_eq.
        -- by injection Hc as <-.
      * destruct (Exn.is_Exception e); by simplify_eq.
  - revert Hm.
    assert (H0 : each_differs JNull (mongo_fanned_out Mongo.init) = true
                 /\ mongo_last_data Mongo.init
                    = default JNull (last (mongo_fanned_out Mongo.init)))
      by done.
    revert H0. generalize Mongo.init as r0. revert mr.
    induction queries as [|q queries IH]; intros mr r0 [H1 H2]; simpl.
    + by intros [= <-].
    + destruct (Mongo.monitor_cycle q r0) as [r1|e] eqn:Hc; [|done].
      apply IH. clear IH. unfold Mongo.monitor_cycle in Hc.
      destruct (Mongo.get_latest_data q) as [cur|e].
      * destruct (Py.truthy cur && Py.neb cur (mongo_last_data r0)) eqn:Hch.
        -- injection Hc as <-. simpl. apply andb_prop in Hch as [_ Hch].
           rewrite each_differs_snoc, H1, <- H2, Hch, last_snoc. done.
        -- by injection Hc as <-.
      * destruct (Exn.is_Exception e); by simplify_eq.
  - cbv zeta. unfold refresh_loop.
    assert (H0 : each_differs JNull (updates main_screen_init) = true
                 /\ last_mqtt_data main_screen_init
                    = default JNull (last (updates main_screen_init)))
      by done.
    revert H0. generalize main_screen_init as m0. clear Hr.
    induction reads as [|f reads IH]; intros m0 [H1 H2]; simpl; [done|].
    apply IH. clear IH. unfold refresh_mqtt_data.
    destruct f as [|text|e]; [done| |done].
    destruct (String.eqb _ _); [done|].
    destruct (latest_of _ _) as [cur|]; [|done].
    destruct (printable cur); simpl; [|done].
    destruct (Py.neb cur (last_mqtt_data m0)) eqn:Hch; [|done]. simpl.
    rewrite each_differs_snoc, H1, <- H2, Hch, last_snoc. done.
Qed.

Lemma readers_never_repeat_witness :
  let a := FileText (Str.quoted "{'health': {'bpm': 72}}") in
  let b := FileText (Str.quoted "{'health': {'bpm': 75}}") in
  exists r,
    monitor_loop Json.loads [a; a; FileError OSError; b; b; a] data_reader_init = Ok r
    /\ length (fanned_out r) = 3%nat
    /\ each_differs (JObj []) (fanned_out r) = true.
Proof.
  intros a b. eexists. split; [vm_compute; reflexivity|]. split; [reflexivity|].
  refine (proj1 (proj1 (readers_never_repeat Json.loads
                          [a; a; FileError OSError; b; b; a] []
                          _ Mongo.init _ eq_refl))).
  vm_compute. reflexivity.
Defined.

(** ** The store reader's classifications *)

(** Decide a goal about the store reader's classifiers on a number. *)
Ltac mongo_decide v :=
  unfold Mongo._get_temp_status, Mongo._get_temp_color,
    Mongo._get_heart_rate_status, Mongo._get_heart_rate_color,
    Mongo._get_alcohol_status, Mongo._get_alcohol_color,
    Display.alcohol_class, Mongo.c_0_08, Mongo.c_0_05,
    Thresholds.alcohol_detected,
    Exn.and_then, Mongo.lt, Mongo.gt, Mongo.compare_with, Py.of_bool;
  destruct v as [?q| | |];
  cbn [Num.geb Num.gtb Num.leb Num.ltb Num.eqb Num.is_nan negb andb orb fst snd];
  repeat match goal with
         | |- context [Qle_bool ?a ?b] => destruct (Qle_bool a b) eqn:?
         | |- context [Qeq_bool ?a ?b] => destruct (Qeq_bool a b) eqn:?
         end;
  cbn [negb andb orb fst snd];
  q_props;
  try (exfalso; lra);
  intuition (try discriminate; try congruence; try lra).

(** X13.  In the store reader, status and colour never disagree.  For any
    field value, the status function and the colour function raise
    together; when they answer, temperature and heart rate are in the
    warning colour exactly when the status is Low or High and in the
    success colour exactly when it is Normal, and the four alcohol
    statuses have one colour each. *)
Theorem store_status_matches_colour (x : json) :
  let agree (status color : json -> res string) (table : string -> string) :=
    match status x, color x with
    | Ok s, Ok c => c = table s
    | Err e, Err e' => e = e'
    | _, _ => False
    end in
  let vital (s : string) : string :=
    if String.eqb s "Normal" then "#2E7D32" else "#F9A826" in
  let alcohol (s : string) : string :=
    if String.eqb s "High" then "#C62828"
    else if String.eqb s "Moderate" then "#F9A826"
    else if String.eqb s "Low" then "#3E5C76"
    else "#2E7D32" in
  agree Mongo._get_temp_status Mongo._get_temp_color vital
  /\ agree Mongo._get_heart_rate_status Mongo._get_heart_rate_color vital
  /\ agree Mongo._get_alcohol_status Mongo._get_alcohol_color alcohol.
Proof.
  cbv zeta.
  unfold Mongo._get_temp_status, Mongo._get_temp_color,
    Mongo._get_heart_rate_status, Mongo._get_heart_rate_color,
    Mongo._get_alcohol_status, Mongo._get_alcohol_color,
    Mongo.c_0_08, Mongo.c_0_05,
    Exn.and_then, Mongo.lt, Mongo.gt, Mongo.compare_with.
  destruct x as [ |b|v|s|xs|d]; try (cbn; repeat split; reflexivity).
  - destruct b; vm_compute; repeat split; reflexivity.
  - destruct v as [q| | |]; try (vm_compute; repeat split; reflexivity).
    cbn [Num.gtb Num.ltb].
    repeat match goal with
           | |- context [Qle_bool ?a ?b] => destruct (Qle_bool a b)
           end; cbn; repeat split; reflexivity.
Qed.

(** X14.  Alcohol across the three paths.  For a number [v] the store
    reader says High exactly when [v > 0.08], Moderate exactly when
    [0.05 < v <= 0.08], Low exactly when [0 < v <= 0.05] and None
    otherwise; the screen says High for the same values (and for NaN),
    Clean only for [v = 0] and Low for everything else up to 0.08,
    negative values included.  Every value that fires the alcohol alert
    ([v >= 0.1]) is shown High by both. *)
Theorem alcohol_classification (v : num) :
  (Mongo._get_alcohol_status (JNum v) = Ok "High"%string
     <-> Num.gtb v Mongo.c_0_08 = true)
  /\ (Mongo._get_alcohol_status (JNum v) = Ok "Moderate"%string
      <-> Num.gtb v Mongo.c_0_05 = true /\ Num.leb v Mongo.c_0_08 = true)
  /\ (Mongo._get_alcohol_status (JNum v) = Ok "Low"%string
      <-> Num.gtb v (Fin 0) = true /\ Num.leb v Mongo.c_0_05 = true)
  /\ (Mongo._get_alcohol_status (JNum v) = Ok "None"%string
      <-> Num.gtb v (Fin 0) = false)
  /\ (Num.is_nan v = false ->
      (fst (Display.alcohol_class v) = "High"%string
         <-> Mongo._get_alcohol_status (JNum v) = Ok "High"%string)
      /\ (fst (Display.alcohol_class v) = "Clean"%string
          <-> Num.eqb v (Fin 0) = true)
      /\ (fst (Display.alcohol_class v) = "Low"%string
          <-> Num.eqb v (Fin 0) = false /\ Num.leb v Mongo.c_0_08 = true))
  /\ (Num.geb v Thresholds.alcohol_detected = true ->
      Mongo._get_alcohol_status (JNum v) = Ok "High"%string
      /\ fst (Display.alcohol_class v) = "High"%string).
Proof.
  repeat split;
    repeat match goal with H : _ = _ |- _ => revert H end;
    mongo_decide v.
Qed.

Lemma alcohol_classification_witness :
  Mongo._get_alcohol_status (JNum (Fin (1 # 8))) = Ok "High"%string
  /\ fst (Display.alcohol_class (Fin (1 # 8))) = "High"%string.
Proof.
  exact (proj2 (proj2 (proj2 (proj2 (proj2
           (alcohol_classification (Fin (1 # 8))))))) eq_refl).
Defined.

(** An entry of the store reader's document is built exactly for a
    number. *)
Lemma store_entries (v : json) :
  let built (unit : string) (status color : json -> res string) :=
    match Display.as_number v with
    | Some _ =>
        exists s c,
          Mongo.entry v unit status color
          = Ok (JObj [("value", v); ("unit", JStr unit);
                      ("status", JStr s); ("color", JStr c)]%string)
    | None => Mongo.entry v unit status color = Err TypeError
    end in
  built "°C"%string Mongo._get_temp_status Mongo._get_temp_color
  /\ built "bpm"%string Mongo._get_heart_rate_status Mongo._get_heart_rate_color
  /\ built "%"%string Mongo._get_alcohol_status Mongo._get_alcohol_color.
Proof.
  cbv zeta.
  unfold Mongo.entry, Mongo._get_temp_status, Mongo._get_temp_color,
    Mongo._get_heart_rate_status, Mongo._get_heart_rate_color,
    Mongo._get_alcohol_status, Mongo._get_alcohol_color,
    Mongo.c_0_08, Mongo.c_0_05,
    Exn.and_then, Mongo.lt, Mongo.gt, Mongo.compare_with.
  destruct v as [ |b|v|s|xs|d]; try (cbn; repeat split; reflexivity).
  - destruct b; vm_compute; (split; [|split]); do 2 eexists; reflexivity.
  - destruct v as [q| | |];
      try (vm_compute; (split; [|split]); do 2 eexists; reflexivity).
    cbn [Num.gtb Num.ltb Display.as_number].
    repeat match goal with
           | |- context [Qle_bool ?a ?b] => destruct (Qle_bool a b)
           end; cbn; (split; [|split]); do 2 eexists; reflexivity.
Qed.

(** X15.  One bad field hides the whole record.  For a record that is a
    non-empty dict, [get_latest_data] answers with a document exactly when
    each of [temperature], [pulse_rate] and [alcohol_percentage] is absent
    or a number; the document then carries the three values as they are (0
    for an absent one).  As soon as one of the three is present and is not
    a number (a string, a list, [null]), the answer is [None], and the
    other two readings are not shown either. *)
Theorem store_record_needs_three_numbers (record : list (string * json)) :
  record <> [] ->
  let field key := Mongo.get_or_zero key record in
  let numeric (x : json) :=
    match Display.as_number x with Some _ => true | None => false end in
  (numeric (field "temperature"%string)
   && numeric (field "pulse_rate"%string)
   && numeric (field "alcohol_percentage"%string) = true ->
   exists doc,
     Mongo.get_latest_data (Latest (Some (JObj record))) = Ok doc
     /\ Dict.get2 doc "temperature" "value" JNull = Ok (field "temperature"%string)
     /\ Dict.get2 doc "heart_rate" "value" JNull = Ok (field "pulse_rate"%string)
     /\ Dict.get2 doc "alcohol" "value" JNull
        = Ok (field "alcohol_percentage"%string))
  /\ (numeric (field "temperature"%string)
      && numeric (field "pulse_rate"%string)
      && numeric (field "alcohol_percentage"%string) = false ->
      Mongo.get_latest_data (Latest (Some (JObj record))) = Ok JNull).
Proof.
  intros Hne field numeric. subst field numeric. cbv beta.
  assert (Htruthy : Py.truthy (JObj record) = true) by by destruct record.
  unfold Mongo.get_latest_data. rewrite Htruthy. unfold Mongo.formatted_data.
  pose proof (store_entries (Mongo.get_or_zero "temperature" record)) as (Ht & _).
  pose proof (store_entries (Mongo.get_or_zero "pulse_rate" record)) as (_ & Hp & _).
  pose proof (store_entries (Mongo.get_or_zero "alcohol_percentage" record)) as (_ & _ & Ha).
  destruct (Display.as_number (Mongo.get_or_zero "temperature" record));
    [destruct Ht as (s1 & c1 & ->)|rewrite Ht];
    (destruct (Display.as_number (Mongo.get_or_zero "pulse_rate" record));
     [destruct Hp as (s2 & c2 & ->)|rewrite Hp]);
    (destruct (Display.as_number (Mongo.get_or_zero "alcohol_percentage" record));
     [destruct Ha as (s3 & c3 & ->)|rewrite Ha]);
    simpl; split; try done; intros _; eexists; split; reflexivity || done.
Qed.

Lemma store_record_needs_three_numbers_witness :
  Mongo.get_latest_data
    (Latest (Some (JObj [("temperature", JNum (Fin (73 # 2)));
                         ("pulse_rate", JStr "n/a");
                         ("alcohol_percentage", JNum (Fin 0))]%string)))
  = Ok JNull.
Proof.
  refine (proj2 (store_record_needs_three_numbers
                   [("temperature", JNum (Fin (73 # 2)));
                    ("pulse_rate", JStr "n/a");
                    ("alcohol_percentage", JNum (Fin 0))]%string _) eq_refl).
  discriminate.
Defined.

(** ** The screen *)




(** X17.  The header is online only with all three sensors.  When the
    formatter answers, the header's [is_online] flag (the test
    ["Online" in status]) is set exactly when the heart rate, the
    temperature and the alcohol level of the document are all present;
    with one or two of them the status text says Active and the flag is
    off, with none the text says Waiting for data.  A value counts as
    present whenever it is not [None], even when it is not a number and
    its card shows No Data. *)
Theorem header_online_iff_all_three (mqtt_data bpm temp alc : json)
    (shown : display) (online : bool) :
  update_sensor_data mqtt_data = Ok (shown, online) ->
  Dict.get2 mqtt_data "health" "bpm" JNull = Ok bpm ->
  Dict.get2 mqtt_data "tempgun" "temp_object" JNull = Ok temp ->
  Display.alcohol_level_of mqtt_data = Ok alc ->
  (online = true
   <-> Display.is_none bpm = false /\ Display.is_none temp = false
       /\ Display.is_none alc = false)
  /\ (online = true <-> system_status shown = "All Sensors Online"%string)
  /\ (system_status shown = "Waiting for data"%string
      <-> Display.is_none bpm = true /\ Display.is_none temp = true
          /\ Display.is_none alc = true)
  /\ (Display.as_number temp = None -> temperature shown = Display.no_data).
Proof.
  unfold update_sensor_data, Display._format_mqtt_data.
  intros H Hb Ht Ha. unfold Exn.and_then in H. rewrite Hb in H.
  destruct (Display.heart_rate_card bpm) as [hr|]; [|done].
  rewrite Ht, Ha in H. inversion H; subst; clear H. cbn [system_status temperature].
  split; [|split; [|split]].
  - destruct bpm, temp, alc; vm_compute; intuition discriminate.
  - destruct bpm, temp, alc; vm_compute; intuition discriminate.
  - destruct bpm, temp, alc; vm_compute; intuition discriminate.
  - intros Hn. unfold Display.temperature_card. by rewrite Hn.
Qed.

Lemma header_online_iff_all_three_witness :
  exists shown,
    update_sensor_data
      (JObj [("health", JObj [("bpm", JNum (Fin 72))]);
             ("tempgun", JObj [("temp_object", JNum (Fin 37))])]%string)
    = Ok (shown, false)
    /\ system_status shown = "2/3 Sensors Active"%string.
Proof.
  eexists. split; [vm_compute; reflexivity|].
  pose proof (header_online_iff_all_three
                (JObj [("health", JObj [("bpm", JNum (Fin 72))]);
                       ("tempgun", JObj [("temp_object", JNum (Fin 37))])]%string)
                (JNum (Fin 72)) (JNum (Fin 37)) JNull _ false
                eq_refl eq_refl eq_refl eq_refl) as (_ & _ & _ & _).
  reflexivity.
Defined.

(** X18.  What a capture shows.  A capture succeeds exactly on a value that
    is present: a heart rate, temperature or alcohol level of 0 is captured
    like any other number, while an absent value, an empty or missing
    document, a lookup that raises and a sensor type other than the three
    all end in the failure feedback.  What is captured is the value that
    the screen's formatter reads for that sensor, with the sensor's
    unit. *)
Theorem capture_shows_the_displayed_value
    (loads : string -> option json) (f : file_read) (current_user : json)
    (sensor_type : string) (mqtt_data : json) :
  _get_latest_mqtt_data loads f = Some mqtt_data ->
  (forall st v unit,
     capture_sensor_data loads f current_user st = Captured st v unit ->
     Py.truthy mqtt_data = true
     /\ Display.is_none v = false
     /\ ((st = "heart_rate"%string /\ unit = "bpm"%string
          /\ Dict.get2 mqtt_data "health" "bpm" JNull = Ok v)
         \/ (st = "temperature"%string /\ unit = "°C"%string
             /\ Dict.get2 mqtt_data "tempgun" "temp_object" JNull = Ok v)
         \/ (st = "alcohol"%string /\ unit = "%"%string
             /\ Display.alcohol_level_of mqtt_data = Ok v)))
  /\ (forall v,
        Py.truthy mqtt_data = true ->
        capture_user current_user <> Err AttributeError ->
        Display.is_none v = false ->
        (Dict.get2 mqtt_data "health" "bpm" JNull = Ok v ->
         capture_sensor_data loads f current_user "heart_rate"
         = Captured "heart_rate" v "bpm")
        /\ (Dict.get2 mqtt_data "tempgun" "temp_object" JNull = Ok v ->
            capture_sensor_data loads f current_user "temperature"
            = Captured "temperature" v "°C")
        /\ (Display.alcohol_level_of mqtt_data = Ok v ->
            capture_sensor_data loads f current_user "alcohol"
            = Captured "alcohol" v "%"))
  /\ (sensor_type <> "heart_rate"%string ->
      sensor_type <> "temperature"%string ->
      sensor_type <> "alcohol"%string ->
      capture_sensor_data loads f current_user sensor_type
      = NotCaptured sensor_type).
Proof.
  intros Hl.
  assert (Halc : forall x,
            captured_value mqtt_data current_user "alcohol" = Ok x ->
            Display.alcohol_level_of mqtt_data = Ok (fst x) /\ snd x = "%"%string).
  { intros x. unfold captured_value, Display.alcohol_level_of, Exn.and_then.
    cbn [String.eqb Ascii.eqb Bool.eqb].
    destruct (Dict.get2 mqtt_data "alcohol" "level" JNull) as [v1|]; [|done].
    destruct (Display.is_none v1) eqn:E1.
    - destruct (Dict.get2 mqtt_data "sensors" "alcohol" JNull) as [v2|]; [|done].
      destruct (Display.is_none v2) eqn:E2.
      + destruct (Dict.get mqtt_data "alcohol_level" JNull) as [v3|]; [|done].
        destruct (capture_user current_user); [|done]. by intros [= <-].
      + destruct (capture_user current_user); [|done]. by intros [= <-].
    - rewrite E1. destruct (capture_user current_user); [|done]. by intros [= <-]. }
  assert (Halc' : forall v u,
            capture_user current_user = Ok u ->
            Display.alcohol_level_of mqtt_data = Ok v ->
            captured_value mqtt_data current_user "alcohol" = Ok (v, "%"%string)).
  { intros v u Hu. unfold captured_value, Display.alcohol_level_of, Exn.and_then.
    cbn [String.eqb Ascii.eqb Bool.eqb]. rewrite Hu.
    destruct (Dict.get2 mqtt_data "alcohol" "level" JNull) as [v1|]; [|done].
    destruct (Display.is_none v1) eqn:E1.
    - destruct (Dict.get2 mqtt_data "sensors" "alcohol" JNull) as [v2|]; [|done].
      destruct (Display.is_none v2) eqn:E2.
      + destruct (Dict.get mqtt_data "alcohol_level" JNull) as [v3|]; [|done].
        by intros [= <-].
      + by intros [= <-].
    - rewrite E1. by intros [= <-]. }
  assert (Huser : capture_user current_user <> Err AttributeError ->
                  exists u, capture_user current_user = Ok u).
  { unfold capture_user, Dict.get. destruct (Py.truthy current_user); [|eauto].
    destruct current_user; eauto; done. }
  split; [|split].
  - intros st v unit. unfold capture_sensor_data. rewrite Hl.
    destruct (Py.truthy mqtt_data); [|done].
    destruct (captured_value mqtt_data current_user st) as [[w u]|] eqn:Hc; [|done].
    destruct (Display.is_none w) eqn:Hw; [by destruct w|].
    intros Hcap. assert (w = v /\ u = unit) as [-> ->] by (by destruct w; simplify_eq).
    split; [done|]. split; [done|].
    unfold captured_value in Hc.
    destruct (String.eqb_spec st "heart_rate") as [->|_].
    { left. unfold Exn.and_then in Hc.
      destruct (Dict.get2 mqtt_data "health" "bpm" JNull); [|done].
      destruct (capture_user current_user); by simplify_eq. }
    destruct (String.eqb_spec st "temperature") as [->|_].
    { right; left. unfold Exn.and_then in Hc.
      destruct (Dict.get2 mqtt_data "tempgun" "temp_object" JNull); [|done].
      destruct (capture_user current_user); by simplify_eq. }
    destruct (String.eqb_spec st "alcohol") as [->|_].
    { right; right. destruct (Halc (v, unit)) as [H1 H2]; [|by simpl in *].
      unfold captured_value. by cbn [String.eqb Ascii.eqb Bool.eqb]. }
    by simplify_eq.
  - intros v Htr Hu Hv. destruct (Huser Hu) as [u Eu].
    unfold capture_sensor_data. rewrite Hl, Htr. split; [|split].
    + intros Hg. unfold captured_value. cbn [String.eqb Ascii.eqb Bool.eqb].
      rewrite Hg. simpl. rewrite Eu. simpl. by destruct v.
    + intros Hg. unfold captured_value. cbn [String.eqb Ascii.eqb Bool.eqb].
      rewrite Hg. simpl. rewrite Eu. simpl. by destruct v.
    + intros Hg. rewrite (Halc' v u Eu Hg). by destruct v.
  - intros H1 H2 H3. unfold capture_sensor_data, captured_value. rewrite Hl.
    destruct (String.eqb_spec sensor_type "heart_rate"); [done|].
    destruct (String.eqb_spec sensor_type "temperature"); [done|].
    destruct (String.eqb_spec sensor_type "alcohol"); [done|].
    by destruct (Py.truthy mqtt_data).
Qed.

Lemma capture_shows_the_displayed_value_witness :
  capture_sensor_data Json.loads
    (FileText (Str.quoted "{'health': {'bpm': 0}}")) JNull "heart_rate"
  = Captured "heart_rate" (JNum (Fin 0)) "bpm".
Proof.
  refine (proj1 (proj1 (proj2 (capture_shows_the_displayed_value Json.loads
            (FileText (Str.quoted "{'health': {'bpm': 0}}")) JNull "heart_rate"
            _ eq_refl)) (JNum (Fin 0)) eq_refl _ eq_refl) eq_refl).
  discriminate.
Defined.

(** ** The scan on a file of one record per line *)

Section ScanLines.

Variable loads : string -> option json.



End ScanLines.


(** ** The printed report and the screen *)


(** ** The configuration store *)

Section ConfigFacts.

Import Config.

Lemma lookup_store_eq (key : string) (v : val) (d : dict) :
  lookup_key key (store_key key v d) = Some v.
Proof.
  induction d as [|[k w] d IH]; simpl.
  - by rewrite String.eqb_refl.
  - destruct (String.eqb k key) eqn:E; simpl; by rewrite E.
Qed.

Lemma lookup_store_ne (key other : string) (v : val) (d : dict) :
  key <> other ->
  lookup_key other (store_key key v d) = lookup_key other d.
Proof.
  intros Hne. induction d as [|[k w] d IH]; simpl.
  - destruct (String.eqb_spec key other); [done|done].
  - destruct (String.eqb_spec k key) as [->|Hk]; simpl.
    + destruct (String.eqb_spec key other); [done|done].
    + by destruct (String.eqb k other).
Qed.

(** What a dict holds after [d[key] = v]. *)
Lemma lookup_store_cases (key other : string) (v w : val) (d : dict) :
  lookup_key other (store_key key v d) = Some w ->
  (other = key /\ w = v) \/ lookup_key other d = Some w.
Proof.
  destruct (decide (key = other)) as [->|Hne].
  - rewrite lookup_store_eq. intros [= ->]. by left.
  - rewrite lookup_store_ne by done. by right.
Qed.

Lemma shaped_ranked (roots : list nat) (h : list dict) :
  shaped roots h ->
  ranked (fun l => if bool_decide (l ∈ roots) then S (length h)
                   else (length h - l)%nat) h.
Proof.
  intros Hs l d key next Hl Hk.
  destruct (Hs l d key next Hl Hk) as (Hlt & Hroot & Hord).
  rewrite (bool_decide_eq_false_2 _ Hroot).
  destruct (bool_decide (l ∈ roots)) eqn:E.
  - lia.
  - apply bool_decide_eq_false_1 in E. destruct Hord as [?|?]; [done|lia].
Qed.

(** An indexing that succeeds still succeeds, with the same result, when
    dicts are added to the heap. *)
Lemma walk_ext (h ext : list dict) (keys : list string) :
  forall (value r : val),
    walk h keys value = Some r -> walk (h ++ ext) keys value = Some r.
Proof.
  induction keys as [|key rest IH]; intros value r; simpl; [done|].
  destruct value; try done.
  destruct (h !! address) as [d|] eqn:Hd; [|done].
  rewrite (lookup_app_l_Some _ _ _ _ Hd).
  destruct (lookup_key key d); [|done]. apply IH.
Qed.

Lemma walk_app (h : list dict) (p q : list string) :
  forall value,
    walk h (p ++ q) value
    = match walk h p value with
      | Some v => walk h q v
      | None => None
      end.
Proof.
  induction p as [|key p IH]; intros value; simpl; [done|].
  destruct value; try done.
  destruct (h !! address); [|done].
  destruct (lookup_key key l); [|done]. apply IH.
Qed.

Lemma walk_scalar (h : list dict) (keys : list string) (value : val) :
  scalar value = true -> keys <> [] -> walk h keys value = None.
Proof. intros Hs Hk. destruct keys; [done|]. by destruct value. Qed.

(** Below a dict that has just been created, [set] creates every dict of
    the path and succeeds. *)
Lemma set_walk_fresh (keys : list string) (last_key : string) (value : val) :
  forall (h : list dict) (l : nat),
    h !! l = Some [] ->
    exists h',
      set_walk h l keys last_key value = Ok h'
      /\ walk h' (keys ++ [last_key]) (Ref l) = Some value
      /\ (forall m, (m < length h)%nat -> m <> l -> h' !! m = h !! m)
      /\ (length h <= length h')%nat.
Proof.
  induction keys as [|key rest IH]; intros h l Hl.
  - exists (<[l := store_key last_key value []]> h).
    assert (l < length h)%nat by (by eapply lookup_lt_Some).
    simpl. rewrite Hl. split; [done|]. split; [|split].
    + rewrite list_lookup_insert_eq by done. simpl. by rewrite String.eqb_refl.
    + intros m _ Hm. by rewrite list_lookup_insert_ne.
    + by rewrite length_insert.
  - assert (Hlt : (l < length h)%nat) by (by eapply lookup_lt_Some).
    set (h1 := <[l := store_key key (Ref (length h)) []]> h ++ [[]]).
    assert (Hfresh : h1 !! length h = Some []).
    { unfold h1. rewrite lookup_app_r; rewrite length_insert; [|lia].
      by rewrite Nat.sub_diag. }
    destruct (IH h1 (length h) Hfresh) as (h' & Hset & Hwalk & Hframe & Hlen).
    exists h'. simpl. rewrite Hl. simpl. fold h1. split; [exact Hset|].
    assert (Hlen1 : length h1 = S (length h)).
    { unfold h1. rewrite length_app, length_insert. simpl. lia. }
    split; [|split].
    + rewrite Hframe by lia.
      unfold h1. rewrite lookup_app_l by (rewrite length_insert; lia).
      rewrite list_lookup_insert_eq by done. simpl. rewrite String.eqb_refl.
      exact Hwalk.
    + intros m Hm Hne. rewrite Hframe by lia.
      unfold h1. rewrite lookup_app_l by (rewrite length_insert; lia).
      by rewrite list_lookup_insert_ne.
    + lia.
Qed.

(** In a heap where no dict holds itself, a [set] that returns leaves the
    value at the end of the path, and changes no dict that is not below
    the one it starts from. *)
Lemma set_walk_ranked (rank : nat -> nat) (keys : list string)
    (last_key : string) (value : val) :
  forall (h h' : list dict) (l : nat),
    ranked rank h ->
    set_walk h l keys last_key value = Ok h' ->
    walk h' (keys ++ [last_key]) (Ref l) = Some value
    /\ (forall m, (m < length h)%nat -> m <> l -> (rank l <= rank m)%nat ->
                  h' !! m = h !! m)
    /\ (length h <= length h')%nat.
Proof.
  induction keys as [|key rest IH]; intros h h' l Hr Hset.
  - simpl in Hset. destruct (h !! l) as [d|] eqn:Hl; [|done].
    injection Hset as <-.
    assert (l < length h)%nat by (by eapply lookup_lt_Some).
    split; [|split].
    + simpl. rewrite list_lookup_insert_eq by done. by rewrite lookup_store_eq.
    + intros m _ Hm _. by rewrite list_lookup_insert_ne.
    + by rewrite length_insert.
  - simpl in Hset. destruct (h !! l) as [d|] eqn:Hl; [|done].
    assert (Hlt : (l < length h)%nat) by (by eapply lookup_lt_Some).
    destruct (lookup_key key d) as [[ | | | | |next]|] eqn:Hk; try done.
    + destruct (IH h h' next Hr Hset) as (Hwalk & Hframe & Hlen).
      pose proof (Hr l d key next Hl Hk) as Hrank.
      assert (Hnext : l <> next) by (intros ->; lia).
      split; [|split].
      * simpl. rewrite (Hframe l Hlt Hnext) by lia. rewrite Hl, Hk. exact Hwalk.
      * intros m Hm Hne Hle. apply Hframe; [done| |lia].
        intros ->. lia.
      * done.
    + set (h1 := <[l := store_key key (Ref (length h)) d]> h ++ [[]]) in *.
      assert (Hfresh : h1 !! length h = Some []).
      { unfold h1. rewrite lookup_app_r; rewrite length_insert; [|lia].
        by rewrite Nat.sub_diag. }
      destruct (set_walk_fresh rest last_key value h1 (length h) Hfresh)
        as (h2 & Hset2 & Hwalk & Hframe & Hlen).
      rewrite Hset2 in Hset. injection Hset as <-.
      assert (Hlen1 : length h1 = S (length h)).
      { unfold h1. rewrite length_app, length_insert. simpl. lia. }
      split; [|split].
      * simpl. rewrite Hframe by lia.
        unfold h1. rewrite lookup_app_l by (rewrite length_insert; lia).
        rewrite list_lookup_insert_eq by done. rewrite lookup_store_eq.
        exact Hwalk.
      * intros m Hm Hne _. rewrite Hframe by lia.
        unfold h1. rewrite lookup_app_l by (rewrite length_insert; lia).
        by rewrite list_lookup_insert_ne.
      * lia.
Qed.

Lemma split_chars_not_nil (sep : ascii) (s cur : list ascii) :
  Text.split_chars sep s cur <> [].
Proof.
  revert cur. induction s as [|c r IH]; intros cur; simpl; [done|].
  destruct (Ascii.eqb c sep); [done|apply IH].
Qed.

Lemma keys_split (key_path : string) :
  let keys := Text.split "." key_path in
  removelast keys ++ [List.last keys EmptyString] = keys.
Proof.
  cbn zeta. symmetry. apply app_removelast_last. apply split_chars_not_nil.
Qed.

(** [set] raises exactly when one of the keys before the last names
    something that is not a dict. *)
Lemma set_walk_error (roots : list nat) (last_key : string) (value : val)
    (h : list dict) :
  shaped roots h ->
  forall (keys : list string) (l : nat),
    (l < length h)%nat ->
    (forall e, set_walk h l keys last_key value = Err e -> e = TypeError)
    /\ ((exists e, set_walk h l keys last_key value = Err e)
        <-> exists n a, (n <= length keys)%nat
                        /\ walk h (take n keys) (Ref l) = Some a
                        /\ scalar a = true).
Proof.
  intros Hc. induction keys as [|key rest IH]; intros l Hl.
  - destruct (lookup_lt_is_Some_2 h l Hl) as [d Hd].
    simpl. rewrite Hd. split; [done|]. split.
    + by intros [e ?].
    + intros (n & a & Hn & Hw & Ha). rewrite take_nil in Hw.
      simpl in Hw. injection Hw as <-. done.
  - destruct (lookup_lt_is_Some_2 h l Hl) as [d Hd].
    simpl. rewrite Hd.
    destruct (lookup_key key d) as [v|] eqn:Hk.
    + destruct v as [ | | | | |next].
      6: { destruct (Hc l d key next Hd Hk) as (Hnext & _).
           destruct (IH next Hnext) as [IH1 IH2]. split; [exact IH1|].
           rewrite IH2. split.
           - intros (n & a & Hn & Hw & Ha). exists (S n), a.
             split; [simpl; lia|]. split; [|done].
             simpl. by rewrite Hd, Hk.
           - intros (n & a & Hn & Hw & Ha). destruct n as [|n].
             + simpl in Hw. injection Hw as <-. done.
             + exists n, a. simpl in Hn, Hw. rewrite Hd, Hk in Hw.
               split; [lia|]. by split. }
      all: split; [by intros e [= <-]|]; split; [|by eauto];
        intros _; eexists 1%nat, _; (split; [simpl; lia|]);
        (split; [simpl; rewrite ?take_0, Hd, Hk; reflexivity|done]).
    + set (h1 := <[l := store_key key (Ref (length h)) d]> h ++ [[]]).
      assert (Hfresh : h1 !! length h = Some []).
      { unfold h1. rewrite lookup_app_r; rewrite length_insert; [|lia].
        by rewrite Nat.sub_diag. }
      destruct (set_walk_fresh rest last_key value h1 (length h) Hfresh)
        as (h2 & Hset & _).
      rewrite Hset. split; [done|]. split; [by intros [e ?]|].
      intros (n & a & Hn & Hw & Ha). destruct n as [|n].
      * simpl in Hw. injection Hw as <-. done.
      * simpl in Hw. by rewrite Hd, Hk in Hw.
Qed.

(** *** The shape of the heap is kept *)

(** [d[key] = v] keeps the shape when [v] is not a dict or is a dict that
    [d] may hold. *)
Lemma shaped_alter (roots : list nat) (h : list dict) (l : nat)
    (key : string) (v : val) :
  shaped roots h ->
  (forall next, v = Ref next ->
                (next < length h)%nat /\ (next ∉ roots)
                /\ (l ∈ roots \/ (l < next)%nat)) ->
  shaped roots (alter (store_key key v) l h).
Proof.
  intros Hs Hv m d k next Hm Hk. rewrite length_alter.
  destruct (decide (m = l)) as [->|Hne].
  - rewrite list_lookup_alter_eq in Hm.
    destruct (h !! l) as [d0|] eqn:Hl; [|done]. injection Hm as <-.
    apply lookup_store_cases in Hk as [[-> Hnew]|Hk].
    + by apply Hv.
    + by eapply Hs.
  - rewrite list_lookup_alter_ne in Hm by done. by eapply Hs.
Qed.

Lemma shaped_snoc_empty (roots : list nat) (h : list dict) :
  shaped roots h -> shaped roots (h ++ [[]]).
Proof.
  intros Hs m d k next Hm Hk. rewrite length_app. simpl.
  destruct (decide (m < length h)%nat) as [Hlt|Hge].
  - rewrite lookup_app_l in Hm by done.
    destruct (Hs m d k next Hm Hk) as (? & ? & ?). split; [lia|done].
  - rewrite lookup_app_r in Hm by lia.
    destruct (m - length h)%nat; simpl in Hm; [|done].
    by injection Hm as <-.
Qed.

Lemma insert_alter_store (h : list dict) (l : nat) (d : dict)
    (key : string) (v : val) :
  h !! l = Some d ->
  <[l := store_key key v d]> h = alter (store_key key v) l h.
Proof.
  intros Hl. apply list_eq. intros m.
  destruct (decide (m = l)) as [->|Hne].
  - rewrite list_lookup_insert_eq by (by eapply lookup_lt_Some).
    by rewrite list_lookup_alter_eq, Hl.
  - by rewrite list_lookup_insert_ne, list_lookup_alter_ne.
Qed.

(** [set] of a value that is not a dict keeps the shape. *)
Lemma set_walk_shaped (roots : list nat) (last_key : string) (value : val) :
  scalar value = true ->
  forall (keys : list string) (h h' : list dict) (l : nat),
    shaped roots h ->
    (forall r, r ∈ roots -> (r < length h)%nat) ->
    set_walk h l keys last_key value = Ok h' ->
    shaped roots h' /\ (length h <= length h')%nat.
Proof.
  intros Hv. induction keys as [|key rest IH]; intros h h' l Hs Hb Hset.
  - simpl in Hset. destruct (h !! l) as [d|] eqn:Hl; [|done].
    injection Hset as <-. rewrite (insert_alter_store _ _ _ _ _ Hl).
    split; [|by rewrite length_alter].
    apply shaped_alter; [done|]. intros next ->. done.
  - simpl in Hset. destruct (h !! l) as [d|] eqn:Hl; [|done].
    assert (Hlt : (l < length h)%nat) by (by eapply lookup_lt_Some).
    destruct (lookup_key key d) as [[ | | | | |next]|] eqn:Hk; try done.
    + by eapply IH.
    + rewrite (insert_alter_store _ _ _ _ _ Hl) in Hset.
      assert (Hs1 : shaped roots
                      (alter (store_key key (Ref (length h))) l (h ++ [[]]))).
      { apply shaped_alter; [by apply shaped_snoc_empty|].
        intros next [= <-]. rewrite length_app. simpl.
        split; [lia|]. split; [|by right].
        intros Hin. apply Hb in Hin. lia. }
      assert (Heq : alter (store_key key (Ref (length h))) l h ++ [[]]
                    = alter (store_key key (Ref (length h))) l (h ++ [[]])).
      { by rewrite alter_app_l. }
      rewrite Heq in Hset.
      destruct (IH _ _ _ Hs1 ltac:(intros r Hr; rewrite length_alter, length_app;
                                   apply Hb in Hr; lia) Hset) as [Hs' Hlen].
      split; [done|]. rewrite length_alter, length_app in Hlen. lia.
Qed.

(** The objects of a parsed document are new, and building them keeps the
    shape. *)
Lemma import_shaped (roots : list nat) (j : json) :
  forall h : list dict,
    shaped roots h ->
    (forall r, r ∈ roots -> (r < length h)%nat) ->
    shaped roots (import j h).2
    /\ (length h <= length (import j h).2)%nat
    /\ (forall m, (m < length h)%nat -> (import j h).2 !! m = h !! m)
    /\ (forall next, (import j h).1 = Ref next ->
                     (length h <= next < length (import j h).2)%nat).
Proof.
  induction j as [ |b|x|s|xs _|pairs IH] using json_nested_ind; intros h Hs Hb.
  1-5: (simpl; split; [done|]; split; [lia|]; split; [done|]; by intros next ?).
  cbn [import fst snd].
  assert (Hloop : forall (ps : list (string * json)) (g : list dict),
            Forall (fun kv => forall h : list dict,
                      shaped roots h ->
                      (forall r, r ∈ roots -> (r < length h)%nat) ->
                      shaped roots (import kv.2 h).2
                      /\ (length h <= length (import kv.2 h).2)%nat
                      /\ (forall m, (m < length h)%nat ->
                                    (import kv.2 h).2 !! m = h !! m)
                      /\ (forall next, (import kv.2 h).1 = Ref next ->
                            (length h <= next < length (import kv.2 h).2)%nat))
                   ps ->
            shaped roots g ->
            (length h < length g)%nat ->
            (forall m, (m < length h)%nat -> g !! m = h !! m) ->
            let g' := import_items import (length h) ps g in
            shaped roots g' /\ (length g <= length g')%nat
            /\ (forall m, (m < length h)%nat -> g' !! m = h !! m)).
  { induction ps as [|[key value] ps IHps]; intros g Hall Hg Hlen Hframe.
    - simpl. split; [done|]. split; [lia|done].
    - apply Forall_cons in Hall as [Hvalue Hall]. simpl in Hvalue.
      cbn [import_items]. cbn zeta.
      destruct (import value g) as [v g1] eqn:Himp.
      assert (Hb' : forall r, r ∈ roots -> (r < length g)%nat).
      { intros r Hr. apply Hb in Hr. lia. }
      destruct (Hvalue g Hg Hb') as (Hs1 & Hlen1 & Hframe1 & Hnew).
      rewrite Himp in Hs1, Hlen1, Hframe1, Hnew. simpl in *.
      assert (Hs2 : shaped roots (alter (store_key key v) (length h) g1)).
      { apply shaped_alter; [done|]. intros next ->.
        destruct (Hnew next eq_refl) as [Hlo Hhi].
        split; [done|]. split; [|right; lia].
        intros Hin. apply Hb in Hin. lia. }
      destruct (IHps (alter (store_key key v) (length h) g1) Hall Hs2) as
        (Hs3 & Hlen3 & Hframe3).
      + rewrite length_alter. lia.
      + intros m Hm. rewrite list_lookup_alter_ne by lia.
        rewrite Hframe1 by lia. by apply Hframe.
      + split; [done|]. rewrite length_alter in Hlen3. split; [lia|done]. }
  destruct (Hloop pairs (h ++ [[]]) IH (shaped_snoc_empty _ _ Hs)) as
    (Hs' & Hlen' & Hframe').
  - rewrite length_app. simpl. lia.
  - intros m Hm. by rewrite lookup_app_l.
  - rewrite length_app in Hlen'. simpl in Hlen'.
    split; [done|]. split; [lia|]. split; [done|].
    intros next [= <-]. lia.
Qed.

(** [_deep_merge] keeps the shape. *)
Lemma merge_into_shaped (roots : list nat) (update_dict : json) :
  forall (h : list dict) (base_dict : nat),
    shaped roots h ->
    (forall r, r ∈ roots -> (r < length h)%nat) ->
    (base_dict < length h)%nat ->
    shaped roots (merge_into update_dict base_dict h)
    /\ (length h <= length (merge_into update_dict base_dict h))%nat.
Proof.
  induction update_dict as [ |b|x|s|xs _|pairs IH] using json_nested_ind;
    intros h base_dict Hs Hb Hbase; try (simpl; split; (done || lia)).
  cbn [merge_into].
  revert h Hs Hb Hbase.
  induction pairs as [|[key value] ps IHps]; intros h Hs Hb Hbase.
  - simpl. split; [done|lia].
  - apply Forall_cons in IH as [Hvalue Hall]. simpl in Hvalue.
    cbn [merge_items].
    set (h1 := match h !! base_dict with
               | Some d =>
                   match lookup_key key d, value with
                   | Some (Ref l), JObj _ => merge_into value l h
                   | _, _ => assign base_dict key value h
                   end
               | None => h
               end).
    assert (Hassign : shaped roots (assign base_dict key value h)
                      /\ (length h <= length (assign base_dict key value h))%nat).
    { unfold assign.
      destruct (import_shaped roots value h Hs Hb) as (Hs1 & Hlen1 & _ & Hnew).
      destruct (import value h) as [v g1]. simpl in *.
      rewrite length_alter. split; [|done].
      apply shaped_alter; [done|]. intros next ->.
      destruct (Hnew next eq_refl) as [Hlo Hhi].
      split; [done|]. split; [|right; lia].
      intros Hin. apply Hb in Hin. lia. }
    assert (H1 : shaped roots h1 /\ (length h <= length h1)%nat).
    { unfold h1. destruct (h !! base_dict) as [d|] eqn:Hd; [|split; [done|lia]].
      destruct (lookup_key key d) as [[ | | | | |l]|] eqn:Hk; try done.
      destruct value; try done.
      apply Hvalue; [done|done|].
      by destruct (Hs base_dict d key l Hd Hk) as (? & _). }
    destruct H1 as [Hs1 Hlen1].
    destruct (IHps Hall h1 Hs1) as [Hs2 Hlen2].
    + intros r Hr. apply Hb in Hr. lia.
    + lia.
    + split; [done|lia].
Qed.

(** [base_dict[key] = value] for a value of the parsed document: the
    shape is kept, no other dict changes, and the dict holds the value
    built for the document. *)
Lemma assign_spec (roots : list nat) (base_dict : nat) (key : string)
    (value : json) (h : list dict) (d : dict) :
  shaped roots h ->
  (forall r, r ∈ roots -> (r < length h)%nat) ->
  h !! base_dict = Some d ->
  shaped roots (assign base_dict key value h)
  /\ (length h <= length (assign base_dict key value h))%nat
  /\ (forall m, (m < length h)%nat -> m <> base_dict ->
                assign base_dict key value h !! m = h !! m)
  /\ assign base_dict key value h !! base_dict
     = Some (store_key key (import value h).1 d).
Proof.
  intros Hs Hb Hd. unfold assign.
  assert (Hlt : (base_dict < length h)%nat) by (by eapply lookup_lt_Some).
  destruct (import_shaped roots value h Hs Hb) as (Hs1 & Hlen1 & Hframe & Hnew).
  destruct (import value h) as [v g1]. simpl in *.
  rewrite length_alter. split; [|split; [done|split]].
  - apply shaped_alter; [done|]. intros next ->.
    destruct (Hnew next eq_refl) as [Hlo Hhi].
    split; [done|]. split; [|right; lia].
    intros Hin. apply Hb in Hin. lia.
  - intros m Hm Hne. rewrite list_lookup_alter_ne by done. by apply Hframe.
  - rewrite list_lookup_alter_eq, Hframe by done. by rewrite Hd.
Qed.

(** [_deep_merge] changes no root other than the dict it is called on,
    and no dict created before that dict. *)
Lemma merge_into_frame (roots : list nat) (update_dict : json) :
  forall (h : list dict) (base_dict : nat),
    shaped roots h ->
    (forall r, r ∈ roots -> (r < length h)%nat) ->
    (base_dict < length h)%nat ->
    forall m,
      (m < length h)%nat -> m <> base_dict ->
      m ∈ roots \/ ((base_dict ∉ roots) /\ (m < base_dict)%nat) ->
      merge_into update_dict base_dict h !! m = h !! m.
Proof.
  induction update_dict as [ |b|x|s|xs _|pairs IH] using json_nested_ind;
    intros h base_dict Hs Hb Hbase m Hm Hne Habove; try done.
  cbn [merge_into].
  revert h Hs Hb Hbase Hm.
  induction pairs as [|[key value] ps IHps]; intros h Hs Hb Hbase Hm; [done|].
  apply Forall_cons in IH as [Hvalue Hall]. simpl in Hvalue.
  cbn [merge_items].
  destruct (lookup_lt_is_Some_2 h base_dict Hbase) as [d Hd]. rewrite Hd.
  set (h1 := match lookup_key key d, value with
             | Some (Ref l), JObj _ => merge_into value l h
             | _, _ => assign base_dict key value h
             end).
  assert (H1 : shaped roots h1 /\ (length h <= length h1)%nat
               /\ h1 !! m = h !! m).
  { destruct (assign_spec roots base_dict key value h d Hs Hb Hd)
      as (Ha1 & Ha2 & Ha3 & _).
    assert (Ha : shaped roots (assign base_dict key value h)
                 /\ (length h <= length (assign base_dict key value h))%nat
                 /\ assign base_dict key value h !! m = h !! m).
    { split; [done|]. split; [done|]. by apply Ha3. }
    unfold h1.
    destruct (lookup_key key d) as [[ | | | | |l]|] eqn:Hk; try exact Ha.
    destruct value; try exact Ha.
    destruct (Hs base_dict d key l Hd Hk) as (Hl & Hlr & Hlo).
    destruct (merge_into_shaped roots (JObj pairs) h l Hs Hb Hl) as [? ?].
    split; [done|]. split; [done|].
    apply Hvalue; [done|done|done|done| |].
    - intros ->. destruct Habove as [?|[? ?]]; [done|].
      destruct Hlo as [?|?]; [done|lia].
    - destruct Habove as [?|[? ?]]; [by left|right].
      split; [done|]. destruct Hlo as [?|?]; [done|lia]. }
  destruct H1 as (Hs1 & Hlen1 & Hm1).
  rewrite IHps; [done|done|done| | |].
  - intros r Hr. apply Hb in Hr. lia.
  - lia.
  - lia.
Qed.

(** What [_deep_merge] leaves under each key of the dict it is called on,
    for an [update_dict] whose keys are all different. *)
Lemma merge_items_lookup (roots : list nat) (base_dict : nat) :
  forall (ps : list (string * json)) (h : list dict) (d : dict),
    NoDup (map fst ps) ->
    shaped roots h ->
    (forall r, r ∈ roots -> (r < length h)%nat) ->
    h !! base_dict = Some d ->
    exists d',
      merge_items merge_into base_dict ps h !! base_dict = Some d'
      /\ forall key,
           match Py.dict_get key ps with
           | None => lookup_key key d' = lookup_key key d
           | Some value =>
               match lookup_key key d, value with
               | Some (Ref l), JObj _ => lookup_key key d' = Some (Ref l)
               | _, _ =>
                   exists g, (length h <= length g)%nat
                             /\ lookup_key key d' = Some (import value g).1
               end
           end.
Proof.
  induction ps as [|[key value] ps IH]; intros h d Hnd Hs Hb Hd.
  - exists d. by split.
  - apply NoDup_cons in Hnd as [Hkey Hnd]. cbn [merge_items]. rewrite Hd.
    assert (Hbase : (base_dict < length h)%nat) by (by eapply lookup_lt_Some).
    set (h1 := match lookup_key key d, value with
               | Some (Ref l), JObj _ => merge_into value l h
               | _, _ => assign base_dict key value h
               end).
    assert (Hrest : Py.dict_get key ps = None).
    { clear -Hkey. induction ps as [|[k v] ps IHps]; [done|].
      simpl in *. apply not_elem_of_cons in Hkey as [Hne Hkey].
      destruct (String.eqb_spec key k); [done|]. by apply IHps. }
    assert (H1 : exists d1,
               h1 !! base_dict = Some d1
               /\ shaped roots h1 /\ (length h <= length h1)%nat
               /\ (forall other, other <> key ->
                                 lookup_key other d1 = lookup_key other d)
               /\ match lookup_key key d, value with
                  | Some (Ref l), JObj _ => lookup_key key d1 = Some (Ref l)
                  | _, _ => lookup_key key d1 = Some (import value h).1
                  end).
    { destruct (assign_spec roots base_dict key value h d Hs Hb Hd)
        as (Ha1 & Ha2 & _ & Ha4).
      assert (Ha : exists d1,
                 assign base_dict key value h !! base_dict = Some d1
                 /\ shaped roots (assign base_dict key value h)
                 /\ (length h <= length (assign base_dict key value h))%nat
                 /\ (forall other, other <> key ->
                                   lookup_key other d1 = lookup_key other d)
                 /\ lookup_key key d1 = Some (import value h).1).
      { eexists. split; [exact Ha4|]. split; [done|]. split; [done|]. split.
        - intros other Ho. by rewrite lookup_store_ne.
        - by rewrite lookup_store_eq. }
      unfold h1.
      destruct (lookup_key key d) as [[ | | | | |l]|] eqn:Hk; try exact Ha.
      destruct value; try exact Ha.
      destruct (Hs base_dict d key l Hd Hk) as (Hl & Hlr & Hlo).
      destruct (merge_into_shaped roots (JObj pairs) h l Hs Hb Hl) as [? ?].
      exists d. split; [|split; [done|split; [done|split; [done|done]]]].
      rewrite merge_into_frame with (roots := roots); try done.
      - intros ->. destruct Hlo as [?|?]; [done|lia].
      - destruct Hlo as [?|?]; [by left|right]. by split. }
    destruct H1 as (d1 & Hd1 & Hs1 & Hlen1 & Hother & Hthis).
    destruct (IH h1 d1 Hnd Hs1) as (d' & Hd' & Hkeys); [|done|].
    { intros r Hr. apply Hb in Hr. lia. }
    exists d'. split; [done|]. intros k. specialize (Hkeys k). simpl.
    destruct (String.eqb_spec k key) as [->|Hne].
    + rewrite Hrest in Hkeys. rewrite Hkeys.
      destruct (lookup_key key d) as [[ | | | | |l]|]; try (by exists h).
      destruct value; try (by exists h). done.
    + rewrite (Hother k Hne) in Hkeys.
      destruct (Py.dict_get k ps) as [v|]; [|done].
      destruct (lookup_key k d) as [[ | | | | |l]|];
        try (destruct Hkeys as (g & Hg & ?); exists g; split; [lia|done]).
      destruct v;
        try (destruct Hkeys as (g & Hg & ?); exists g; split; [lia|done]).
      done.
Qed.

(** A shallow copy of a root is a new root. *)
Lemma copy_shaped (roots : list nat) (h : list dict) (source : nat) (d : dict) :
  shaped roots h ->
  (forall r, r ∈ roots -> (r < length h)%nat) ->
  h !! source = Some d ->
  source ∈ roots ->
  well_formed {| heap := h ++ [d]; DEFAULT_CONFIG := source; config := length h |}.
Proof.
  intros Hs Hb Hd Hsrc. exists (length h :: roots). cbn [heap DEFAULT_CONFIG config].
  assert (Hlt : (source < length h)%nat) by (by eapply lookup_lt_Some).
  split; [|split; [|split; [|split]]].
  - intros m e key next Hm Hk. rewrite length_app. simpl.
    assert (Hin : exists m0, h !! m0 = Some e /\ (m0 = m \/ m = length h)).
    { destruct (decide (m < length h)%nat) as [Hm'|Hm'].
      - rewrite lookup_app_l in Hm by done. eauto.
      - rewrite lookup_app_r in Hm by lia.
        destruct (m - length h)%nat eqn:E; simpl in Hm; [|done].
        injection Hm as <-. exists source. split; [done|right; lia]. }
    destruct Hin as (m0 & Hm0 & Hcase).
    destruct (Hs m0 e key next Hm0 Hk) as (Hn & Hr & Ho).
    split; [lia|]. split.
    + rewrite not_elem_of_cons. split; [lia|done].
    + destruct Hcase as [<- | ->].
      * destruct Ho as [?|?]; [left; by constructor|by right].
      * left. constructor.
  - intros r Hr. rewrite length_app. simpl.
    apply elem_of_cons in Hr as [->|Hr]; [lia|]. apply Hb in Hr. lia.
  - constructor.
  - by constructor.
  - lia.
Qed.

Lemma set_well_formed (key_path : string) (value : val) (st st' : state) :
  well_formed st ->
  scalar value = true ->
  set key_path value st = Ok st' ->
  well_formed st'.
Proof.
  intros (roots & Hs & Hb & Hc & Hd & Hdr) Hv Hset. unfold set in Hset.
  destruct (set_walk (heap st) (config st)
              (removelast (Text.split "." key_path))
              (List.last (Text.split "." key_path) EmptyString) value)
    as [h'|e] eqn:Hw; [|done].
  injection Hset as <-.
  destruct (set_walk_shaped roots _ _ Hv _ _ _ _ Hs Hb Hw) as [Hs' Hlen].
  exists roots. cbn [heap DEFAULT_CONFIG config].
  split; [done|]. split; [|done].
  intros r Hr. apply Hb in Hr. lia.
Qed.

Lemma reset_well_formed (st : state) :
  well_formed st -> well_formed (reset_to_defaults st).
Proof.
  intros Hwf. pose proof Hwf as (roots & Hs & Hb & Hc & Hd & Hdr).
  unfold reset_to_defaults.
  destruct (lookup_lt_is_Some_2 _ _ (Hb _ Hd)) as [d Hd'].
  rewrite Hd'. by eapply copy_shaped.
Qed.

Lemma toggle_well_formed (st st' : state) (b : bool) :
  well_formed st -> toggle_kiosk_mode st = Ok (b, st') -> well_formed st'.
Proof.
  intros Hwf. unfold toggle_kiosk_mode.
  destruct (set "window.kiosk_mode"
              (VBool (negb (truthy (heap st)
                              (get "window.kiosk_mode" (VBool false) st)))) st)
    as [s|e] eqn:Hset; [|done].
  intros [= <- <-]. eapply set_well_formed; [exact Hwf| |exact Hset]. done.
Qed.

Lemma load_well_formed (loads : string -> option json) (f : file_read)
    (st st' : state) :
  well_formed st -> load_config loads f st = Ok st' -> well_formed st'.
Proof.
  intros Hwf. unfold load_config.
  destruct f as [ |text|e].
  - by intros [= <-].
  - destruct (loads text) as [saved|]; [|by intros [= <-]].
    unfold _deep_merge. destruct saved; try (by intros [= <-]).
    intros [= <-]. destruct Hwf as (roots & Hs & Hb & Hc & Hd & Hdr).
    destruct (merge_into_shaped roots (JObj pairs) (heap st) (config st) Hs Hb
                (Hb _ Hc)) as [Hs' Hlen].
    exists roots. cbn [heap DEFAULT_CONFIG config].
    cbn [merge_into] in Hs', Hlen.
    split; [done|]. split; [|done].
    intros r Hr. apply Hb in Hr. lia.
  - destruct (Exn.is_Exception e); [by intros [= <-]|done].
Qed.

Lemma new_config_well_formed (loads : string -> option json) (f : file_read)
    (st : state) :
  new_config loads f = Ok st -> well_formed st.
Proof.
  unfold new_config.
  assert (Hs0 : shaped [] []) by (intros l d key next Hl; done).
  assert (Hb0 : forall r : nat, r ∈ @nil nat -> (r < length (@nil dict))%nat)
    by (intros r Hr; by apply not_elem_of_nil in Hr).
  destruct (import_shaped [] DEFAULT_CONFIG_literal [] Hs0 Hb0)
    as (Hs & _ & _ & _).
  assert (Himp : (import DEFAULT_CONFIG_literal []).1 = Ref 0) by reflexivity.
  destruct (import DEFAULT_CONFIG_literal []) as [v h]. simpl in Hs, Himp.
  subst v.
  destruct (h !! 0%nat) as [d|] eqn:Hd; [|done].
  apply load_well_formed. eapply (copy_shaped [0%nat]); [| |done|].
  - intros l e key next Hl Hk.
    destruct (Hs l e key next Hl Hk) as (Hn & _ & [Hin|Hlt]).
    + by apply not_elem_of_nil in Hin.
    + split; [done|]. split; [|by right].
      rewrite list_elem_of_singleton. lia.
  - intros r Hr. apply list_elem_of_singleton in Hr as ->.
    by eapply lookup_lt_Some.
  - constructor.
Qed.

Lemma step_well_formed (st : state) (c : call) :
  well_formed st -> stores_scalars c = true -> well_formed (step st c).
Proof.
  intros Hwf Hc. destruct c as [key_path value| |]; simpl in *.
  - destruct (set key_path value st) as [st'|e] eqn:Hset; [|done].
    by eapply set_well_formed.
  - destruct (toggle_kiosk_mode st) as [[b st']|e] eqn:Ht; [|done].
    by eapply toggle_well_formed.
  - by apply reset_well_formed.
Qed.

Lemma run_well_formed (calls : list call) :
  forall st,
    well_formed st -> forallb stores_scalars calls = true ->
    well_formed (run calls st).
Proof.
  induction calls as [|c calls IH]; intros st Hwf Hall; [done|].
  simpl in Hall. apply andb_true_iff in Hall as [Hc Hall].
  simpl. apply IH; [|done]. by apply step_well_formed.
Qed.

Lemma well_formed_round_trip (key_path : string) (value dflt : val)
    (st st' : state) :
  well_formed st ->
  set key_path value st = Ok st' ->
  get key_path dflt st' = value.
Proof.
  intros (roots & Hs & _) Hset. unfold set, get in *.
  destruct (set_walk (heap st) (config st)
              (removelast (Text.split "." key_path))
              (List.last (Text.split "." key_path) EmptyString) value)
    as [h'|e] eqn:Hw; [|done].
  injection Hset as <-. cbn [heap config DEFAULT_CONFIG].
  destruct (set_walk_ranked _ _ _ _ _ _ _ (shaped_ranked _ _ Hs) Hw)
    as (Hwalk & _ & _).
  rewrite keys_split in Hwalk. by rewrite Hwalk.
Qed.

(** X21.  The configuration never holds a dict inside itself.  From a new
    configuration, whatever the saved file holds, every sequence of [set]
    calls with values that are not dicts, of [toggle_kiosk_mode] and of
    [reset_to_defaults] leaves a heap in which every address held is that
    of a dict, [self.config] and [DEFAULT_CONFIG] are two different dicts
    and no dict holds itself, directly or through other dicts. *)
Theorem config_stays_well_formed
    (loads : string -> option json) (f : file_read) (calls : list call)
    (st : state) :
  new_config loads f = Ok st ->
  forallb stores_scalars calls = true ->
  well_formed (run calls st)
  /\ config (run calls st) <> DEFAULT_CONFIG (run calls st)
  /\ is_Some (heap (run calls st) !! config (run calls st))
  /\ is_Some (heap (run calls st) !! DEFAULT_CONFIG (run calls st)).
Proof.
  intros Hnew Hall.
  pose proof (run_well_formed calls st (new_config_well_formed _ _ _ Hnew) Hall)
    as Hwf.
  split; [done|]. destruct Hwf as (roots & Hs & Hb & Hc & Hd & Hne).
  split; [done|]. split; apply lookup_lt_is_Some_2; by apply Hb.
Qed.

(** X22.  A setting that was set is the one read back.  In a well-formed
    heap, a [set] that returns leaves the value at its path: [get] of the
    same path answers the value and not the default, whatever dicts [set]
    had to create on the way; [self.config] and [DEFAULT_CONFIG] stay the
    objects they were, and a value that is not a dict leaves the heap
    well formed. *)
Theorem config_set_then_get
    (key_path : string) (value dflt : val) (st st' : state) :
  well_formed st ->
  set key_path value st = Ok st' ->
  get key_path dflt st' = value
  /\ config st' = config st
  /\ DEFAULT_CONFIG st' = DEFAULT_CONFIG st
  /\ (scalar value = true -> well_formed st').
Proof.
  intros Hwf Hset. split; [by eapply well_formed_round_trip|].
  split; [|split].
  - unfold set in Hset. by destruct (set_walk _ _ _ _ _); simplify_eq.
  - unfold set in Hset. by destruct (set_walk _ _ _ _ _); simplify_eq.
  - intros Hv. by eapply set_well_formed.
Qed.

(** X23.  When [set] raises.  In a well-formed heap, [set] raises exactly
    when a key of the path before the last one names a value that is not
    a dict (a string, a number, a list, [None]); the exception is then
    [TypeError], and [get] of the same path answers the default.  In
    every other case [set] returns, creating the dicts that are
    missing. *)
Theorem config_set_raises
    (key_path : string) (value : val) (st : state) :
  well_formed st ->
  let keys := Text.split "." key_path in
  ((exists e, set key_path value st = Err e)
   <-> exists n a, (n < length keys)%nat
                   /\ walk (heap st) (take n keys) (Ref (config st)) = Some a
                   /\ scalar a = true)
  /\ (forall e, set key_path value st = Err e ->
                e = TypeError /\ forall dflt, get key_path dflt st = dflt).
Proof.
  intros (roots & Hc & Hb & Hroot & _) keys.
  pose proof (Hb _ Hroot) as Hl.
  destruct (set_walk_error roots (List.last keys EmptyString) value (heap st) Hc
              (removelast keys) (config st) Hl) as [Hty Hiff].
  assert (Hset : forall e,
            set key_path value st = Err e
            <-> set_walk (heap st) (config st) (removelast keys)
                  (List.last keys EmptyString) value = Err e).
  { intros e. unfold set. fold keys.
    destruct (set_walk (heap st) (config st) (removelast keys)
                (List.last keys EmptyString) value); split; congruence. }
  assert (Hk : removelast keys ++ [List.last keys EmptyString] = keys)
    by apply keys_split.
  assert (Hlen : length keys = S (length (removelast keys))).
  { rewrite <- Hk at 1. rewrite length_app. simpl. lia. }
  assert (Htake : forall n, (n <= length (removelast keys))%nat ->
                            take n (removelast keys) = take n keys).
  { intros n Hn. rewrite <- Hk at 2. by rewrite take_app_le. }
  assert (Hiff' : (exists e, set key_path value st = Err e)
                  <-> exists n a, (n < length keys)%nat
                        /\ walk (heap st) (take n keys) (Ref (config st)) = Some a
                        /\ scalar a = true).
  { split.
    - intros [e He]. apply Hset in He.
      destruct (proj1 Hiff (ex_intro _ e He)) as (n & a & Hn & Hw & Ha).
      exists n, a. rewrite <- Htake by done. split; [lia|]. by split.
    - intros (n & a & Hn & Hw & Ha).
      destruct (proj2 Hiff) as [e He].
      { exists n, a. rewrite Htake by lia. split; [lia|]. by split. }
      exists e. by apply Hset. }
  split; [exact Hiff'|].
  intros e He. split; [apply Hty; by apply Hset|].
  intros dflt. destruct (proj1 Hiff' (ex_intro _ e He)) as (n & a & Hn & Hw & Ha).
  unfold get. fold keys. rewrite <- (take_drop n keys), walk_app, Hw.
  rewrite walk_scalar; [done|done|].
  intros Hnil. apply (f_equal length) in Hnil. rewrite length_drop in Hnil.
  simpl in Hnil. lia.
Qed.

Lemma removelast_cons_cons {A : Type} (a b : A) (l : list A) :
  removelast (a :: b :: l) = a :: removelast (b :: l).
Proof. reflexivity. Qed.

Lemma last_cons_cons_default {A : Type} (a b d : A) (l : list A) :
  List.last (a :: b :: l) d = List.last (b :: l) d.
Proof. reflexivity. Qed.

(** X24.  [reset_to_defaults] does not undo a nested setting.  The copy of
    [DEFAULT_CONFIG] is shallow, so a section of the configuration is the
    same dict as the section of the class default: a [set] below it
    changes the default itself, and after [reset_to_defaults] the setting
    still reads as set.  Only a setting at the top level is forgotten by
    the reset. *)
Theorem reset_keeps_nested_settings
    (key_path : string) (value dflt : val) (st st1 : state) (C D : dict) :
  well_formed st ->
  heap st !! config st = Some C ->
  heap st !! DEFAULT_CONFIG st = Some D ->
  set key_path value st = Ok st1 ->
  (forall section rest l,
     Text.split "." key_path = section :: rest ->
     rest <> [] ->
     lookup_key section C = Some (Ref l) ->
     lookup_key section D = Some (Ref l) ->
     get key_path dflt (reset_to_defaults st1) = value
     /\ walk (heap st1) (Text.split "." key_path) (Ref (DEFAULT_CONFIG st1))
        = Some value)
  /\ (forall key,
        Text.split "." key_path = [key] ->
        get key_path dflt (reset_to_defaults st1)
        = get key_path dflt (reset_to_defaults st)).
Proof.
  intros (roots & Hs & Hb & Hroot & Hdr & Hne) HC HD Hset.
  pose proof (shaped_ranked _ _ Hs) as Hr.
  unfold set in Hset.
  destruct (set_walk (heap st) (config st)
              (removelast (Text.split "." key_path))
              (List.last (Text.split "." key_path) EmptyString) value)
    as [h1|e] eqn:Hw; [|done].
  injection Hset as <-. split.
  - intros section rest l Hsplit Hrest Hsc Hsd.
    rewrite Hsplit in *. destruct rest as [|key rest]; [done|].
    rewrite removelast_cons_cons, last_cons_cons_default in Hw.
    simpl in Hw. rewrite HC, Hsc in Hw. fold (set_walk (heap st) l) in Hw.
    assert (Hw' : set_walk (heap st) l (removelast (key :: rest))
                    (List.last (key :: rest) EmptyString) value = Ok h1)
      by exact Hw.
    destruct (set_walk_ranked _ _ _ _ _ _ _ Hr Hw') as (Hwalk & Hframe & Hlen).
    rewrite <- app_removelast_last in Hwalk by done.
    pose proof (Hr _ _ _ _ HD Hsd) as Hrank.
    assert (HD1 : h1 !! DEFAULT_CONFIG st = Some D).
    { rewrite Hframe; [done|by apply Hb| |].
      - intros E. rewrite E in Hrank. simpl in Hrank. lia.
      - simpl in *. lia. }
    split.
    + unfold reset_to_defaults, get. cbn [heap DEFAULT_CONFIG config].
      rewrite HD1. cbn [heap DEFAULT_CONFIG config]. rewrite Hsplit.
      cbn [walk]. rewrite lookup_app_r by done. rewrite Nat.sub_diag.
      cbn [lookup list_lookup]. simpl. rewrite Hsd.
      assert (Hx := walk_ext h1 [D] (key :: rest) (Ref l) value Hwalk).
      simpl in Hx. by rewrite Hx.
    + cbn [heap DEFAULT_CONFIG]. cbn [walk]. rewrite HD1, Hsd. exact Hwalk.
  - intros key Hsplit. rewrite Hsplit in Hw. simpl in Hw. rewrite HC in Hw.
    injection Hw as <-.
    assert (HD1 : <[config st := store_key key value C]> (heap st)
                    !! DEFAULT_CONFIG st = Some D).
    { rewrite list_lookup_insert_ne by done. exact HD. }
    unfold reset_to_defaults, get. cbn [heap DEFAULT_CONFIG config].
    rewrite HD1, HD. cbn [heap DEFAULT_CONFIG config]. rewrite Hsplit.
    cbn [walk]. rewrite !lookup_app_r by done. rewrite !Nat.sub_diag.
    reflexivity.
Qed.

Lemma kiosk_keys :
  Text.split "." "window.kiosk_mode" = ["window"; "kiosk_mode"]%string.
Proof. reflexivity. Qed.

(** A [set] on a path of two different keys leaves the value at the
    path. *)
Lemma set_two_keys (h h' : list dict) (c : nat) (k1 k2 : string) (value : val) :
  k1 <> k2 ->
  set_walk h c [k1] k2 value = Ok h' ->
  walk h' [k1; k2] (Ref c) = Some value
  /\ exists l, walk h' [k1] (Ref c) = Some (Ref l) /\ is_Some (h' !! l).
Proof.
  intros Hne Hset. simpl in Hset.
  destruct (h !! c) as [C|] eqn:HC; [|done].
  assert (Hc : (c < length h)%nat) by (by eapply lookup_lt_Some).
  destruct (lookup_key k1 C) as [[ | | | | |l]|] eqn:Hk; try done.
  - destruct (h !! l) as [d|] eqn:Hd; [|done]. injection Hset as <-.
    assert (Hl : (l < length h)%nat) by (by eapply lookup_lt_Some).
    destruct (decide (l = c)) as [->|Hlc].
    + assert (d = C) as -> by congruence.
      simpl. rewrite list_lookup_insert_eq by done.
      rewrite (lookup_store_ne k2 k1) by done. rewrite Hk.
      rewrite list_lookup_insert_eq by done. rewrite lookup_store_eq.
      split; [done|]. exists c. split; [done|].
      rewrite list_lookup_insert_eq by done. eauto.
    + simpl. rewrite list_lookup_insert_ne by done. rewrite HC, Hk.
      rewrite list_lookup_insert_eq by done. rewrite lookup_store_eq.
      split; [done|]. exists l. split; [done|].
      rewrite list_lookup_insert_eq by done. eauto.
  - set (h1 := <[c := store_key k1 (Ref (length h)) C]> h ++ [[]]) in *.
    assert (Hfresh : h1 !! length h = Some []).
    { unfold h1. rewrite lookup_app_r; rewrite length_insert; [|lia].
      by rewrite Nat.sub_diag. }
    rewrite Hfresh in Hset. injection Hset as <-.
    assert (Hlen1 : length h1 = S (length h)).
    { unfold h1. rewrite length_app, length_insert. simpl. lia. }
    assert (Hc1 : h1 !! c = Some (store_key k1 (Ref (length h)) C)).
    { unfold h1. rewrite lookup_app_l by (rewrite length_insert; lia).
      by rewrite list_lookup_insert_eq. }
    simpl. rewrite list_lookup_insert_ne by lia. rewrite Hc1, lookup_store_eq.
    rewrite list_lookup_insert_eq by lia. simpl. rewrite String.eqb_refl.
    split; [done|]. exists (length h). split; [done|].
    rewrite list_lookup_insert_eq by lia. eauto.
Qed.

(** X25.  [toggle_kiosk_mode] flips the mode, whatever the heap.  When it
    returns, the value returned is the negation of the truth value of the
    old setting, [is_kiosk_mode] then answers that value, and a second
    call returns and brings back the truth value of the old setting. *)
Theorem toggle_kiosk_mode_flips (st st' : state) (now_on : bool) :
  toggle_kiosk_mode st = Ok (now_on, st') ->
  now_on = negb (truthy (heap st) (is_kiosk_mode st))
  /\ is_kiosk_mode st' = VBool now_on
  /\ exists st'',
       toggle_kiosk_mode st' = Ok (negb now_on, st'')
       /\ is_kiosk_mode st'' = VBool (negb now_on).
Proof.
  assert (Hone : forall s s' b,
            toggle_kiosk_mode s = Ok (b, s') ->
            b = negb (truthy (heap s) (is_kiosk_mode s))
            /\ is_kiosk_mode s' = VBool b
            /\ exists l, walk (heap s') ["window"]%string (Ref (config s'))
                         = Some (Ref l)
                         /\ is_Some (heap s' !! l)).
  { intros s s' b. unfold toggle_kiosk_mode, is_kiosk_mode, set.
    rewrite kiosk_keys. cbn [removelast List.last].
    destruct (set_walk (heap s) (config s) ["window"]%string "kiosk_mode"
                (VBool (negb (truthy (heap s)
                                (get "window.kiosk_mode" (VBool false) s)))))
      as [h|e] eqn:Hw; [|done].
    intros [= <- <-]. split; [done|].
    assert (Hkeys : "window"%string <> "kiosk_mode"%string) by done.
    destruct (set_two_keys _ _ _ _ _ _ Hkeys Hw) as (Hwalk & l & Hl & Hsome).
    split; [|by exists l].
    unfold get. rewrite kiosk_keys. cbn [heap config]. by rewrite Hwalk. }
  intros Ht. destruct (Hone _ _ _ Ht) as (Hb & Hk & l & Hl & [d Hd]).
  split; [done|]. split; [done|].
  assert (Hret : exists st'', toggle_kiosk_mode st' = Ok (negb now_on, st'')).
  { unfold toggle_kiosk_mode. fold (is_kiosk_mode st'). rewrite Hk.
    cbn [truthy]. unfold set. rewrite kiosk_keys. cbn [removelast List.last].
    simpl in Hl. simpl.
    destruct (heap st' !! config st') as [C|]; [|done].
    destruct (lookup_key "window" C) as [v|]; [|done].
    injection Hl as ->. rewrite Hd. eauto. }
  destruct Hret as [st'' Ht']. exists st''. split; [done|].
  by destruct (Hone _ _ _ Ht') as (_ & Hk' & _).
Qed.

(** X26.  What a saved file does to the configuration.  For a saved
    document that is an object, [load_config] leaves under each top-level
    key: the old value when the document does not have the key; the same
    dict object as before when both the old value and the saved value are
    dicts (the saved fields are merged into that object, which is still
    the one that [DEFAULT_CONFIG] holds); and otherwise the saved value,
    which replaces the old one.  The dict [DEFAULT_CONFIG] itself keeps
    its entries. *)
Theorem saved_file_merged_per_key
    (loads : string -> option json) (text : string)
    (pairs : list (string * json)) (st st' : state) (C : dict) :
  well_formed st ->
  loads text = Some (JObj pairs) ->
  NoDup (map fst pairs) ->
  heap st !! config st = Some C ->
  load_config loads (FileText text) st = Ok st' ->
  config st' = config st
  /\ DEFAULT_CONFIG st' = DEFAULT_CONFIG st
  /\ heap st' !! DEFAULT_CONFIG st = heap st !! DEFAULT_CONFIG st
  /\ exists C',
       heap st' !! config st = Some C'
       /\ forall key,
            (Py.dict_get key pairs = None ->
             lookup_key key C' = lookup_key key C)
            /\ (forall value,
                  Py.dict_get key pairs = Some value ->
                  match lookup_key key C, value with
                  | Some (Ref l), JObj _ => lookup_key key C' = Some (Ref l)
                  | _, _ =>
                      exists g, (length (heap st) <= length g)%nat
                                /\ lookup_key key C' = Some (import value g).1
                  end).
Proof.
  intros (roots & Hs & Hb & Hroot & Hdr & Hne) Hload Hnd HC.
  unfold load_config, _deep_merge. rewrite Hload. intros [= <-].
  cbn [heap config DEFAULT_CONFIG].
  split; [done|]. split; [done|]. split.
  - apply (merge_into_frame roots (JObj pairs)); try done.
    + by apply Hb.
    + by apply Hb.
    + by left.
  - destruct (merge_items_lookup roots (config st) pairs (heap st) C Hnd Hs Hb HC)
      as (C' & HC' & Hkeys).
    exists C'. split; [exact HC'|]. intros key. specialize (Hkeys key).
    split.
    + intros Hnone. by rewrite Hnone in Hkeys.
    + intros value Hsome. by rewrite Hsome in Hkeys.
Qed.

Lemma first_start_new :
  new_config Json.loads FileMissing = Ok first_start.
Proof. vm_compute. reflexivity. Qed.

Lemma first_start_well_formed : well_formed first_start.
Proof. exact (new_config_well_formed _ _ _ first_start_new). Qed.

End ConfigFacts.

Lemma config_stays_well_formed_witness :
  Config.well_formed
    (Config.run [Config.CallSet "window.last_geometry"
                   (Config.VStr "800x480+10+10");
                 Config.CallToggle; Config.CallReset] Config.first_start).
Proof.
  refine (proj1 (config_stays_well_formed Json.loads FileMissing _ _
                   first_start_new _)).
  reflexivity.
Defined.

Lemma config_set_then_get_witness :
  exists st',
    Config.set "window.last_geometry" (Config.VStr "800x480+10+10")
      Config.first_start = Ok st'
    /\ Config.get "window.last_geometry" Config.VNone st'
       = Config.VStr "800x480+10+10".
Proof.
  destruct (Config.set "window.last_geometry" (Config.VStr "800x480+10+10")
              Config.first_start) as [st'|e] eqn:E;
    [|vm_compute in E; discriminate].
  exists st'. split; [reflexivity|].
  exact (proj1 (config_set_then_get _ _ Config.VNone _ _
                  first_start_well_formed E)).
Defined.

Lemma config_set_raises_witness :
  Config.set "window.title.size" (Config.VNum (Fin 12)) Config.first_start
  = Err TypeError
  /\ Config.get "window.title.size" Config.VNone Config.first_start
     = Config.VNone.
Proof.
  pose proof (config_set_raises "window.title.size" (Config.VNum (Fin 12))
                Config.first_start first_start_well_formed) as [Hiff Herr].
  destruct (proj2 Hiff) as [e He].
  { exists 2%nat, (Config.VStr "BOTIBOT - Smart Medication Assistant").
    split; [vm_compute; lia|]. split; vm_compute; reflexivity. }
  destruct (Herr e He) as [-> Hget]. split; [exact He|apply Hget].
Defined.

Lemma reset_keeps_nested_settings_witness :
  exists st1,
    Config.set "window.kiosk_mode" (Config.VBool true) Config.first_start = Ok st1
    /\ Config.get "window.kiosk_mode" (Config.VBool false)
         (Config.reset_to_defaults st1) = Config.VBool true.
Proof.
  destruct (Config.set "window.kiosk_mode" (Config.VBool true)
              Config.first_start) as [st1|e] eqn:E;
    [|vm_compute in E; discriminate].
  exists st1. split; [reflexivity|].
  refine (proj1 (proj1 (reset_keeps_nested_settings "window.kiosk_mode"
                          (Config.VBool true) (Config.VBool false)
                          Config.first_start st1 _ _
                          first_start_well_formed eq_refl eq_refl E)
                   "window"%string ["kiosk_mode"%string] 1%nat
                   eq_refl _ eq_refl eq_refl)).
  discriminate.
Defined.

Lemma toggle_kiosk_mode_flips_witness :
  exists st',
    Config.toggle_kiosk_mode Config.first_start = Ok (true, st')
    /\ Config.is_kiosk_mode st' = Config.VBool true.
Proof.
  destruct (Config.toggle_kiosk_mode Config.first_start) as [[b st']|e] eqn:E;
    [|vm_compute in E; discriminate].
  destruct (toggle_kiosk_mode_flips _ _ _ E) as (Hb & Hk & _).
  vm_compute in Hb. subst b. exists st'. split; [reflexivity|exact Hk].
Defined.

Lemma saved_file_merged_per_key_witness :
  exists st',
    Config.load_config Json.loads
      (FileText (Str.quoted "{'window': {'width': 1024}, 'volume': 3}"))
      Config.first_start
    = Ok st'
    /\ Config.heap st' !! Config.DEFAULT_CONFIG Config.first_start
       = Config.heap Config.first_start !! Config.DEFAULT_CONFIG Config.first_start.
Proof.
  destruct (Config.load_config Json.loads
              (FileText (Str.quoted "{'window': {'width': 1024}, 'volume': 3}"))
              Config.first_start) as [st'|e] eqn:E;
    [|vm_compute in E; discriminate].
  exists st'. split; [reflexivity|].
  refine (proj1 (proj2 (proj2
            (saved_file_merged_per_key Json.loads
               (Str.quoted "{'window': {'width': 1024}, 'volume': 3}")
               [("window", JObj [("width", JNum (Fin 1024))]);
                ("volume", JNum (Fin 3))]%string Config.first_start st' _
               first_start_well_formed _ _ eq_refl E)))).
  - vm_compute. reflexivity.
  - simpl. apply NoDup_cons. split; [|apply NoDup_singleton].
    rewrite list_elem_of_singleton. discriminate.
Defined.
